(** * nsqtop: aggregation, rate derivation, ranking and trend window

    A shallow embedding of [nsq_top.py].  Python integers are [Z]; the
    floats produced by true division are taken as exact rationals ([Q],
    kept in lowest terms), which abstracts the rounding to a double and
    the [OverflowError] of a quotient beyond the range of a double: a
    statement that would depend on either carries a bound on the
    integers involved, within which neither can show;
    strings that serve as names, keys and messages are [string]; the
    sparkline, whose glyphs are not ASCII, is a list of Unicode code
    points.  A Python [dict] keeps its insertion order, which the ranking
    observes, so dictionaries are association lists with in-place update.
    Network calls are taken from an explicit per-cycle environment, and
    an uncaught exception is the [Raise] outcome of a small error monad. *)

From Stdlib Require Import ZArith QArith Qreduction List String Bool Lia.
From Stdlib Require Import Sorting.Sorted Sorting.Permutation.
From Stdlib Require Import Ascii.
Import ListNotations.

Local Open Scope string_scope.
Local Open Scope list_scope.
Local Open Scope Z_scope.

(** ** Configuration (lines 11-18) *)

(** [" ▂▃▄▅▆▇█"]: a space, then U+2582 .. U+2588, lowest intensity first. *)
Definition SPARKLINE_CHARS : list N :=
  [0x20; 0x2582; 0x2583; 0x2584; 0x2585; 0x2586; 0x2587; 0x2588]%N.

Definition SPARKLINE_LENGTH : nat := 60.

(** ** Exceptions *)

Inductive exn := ZeroDivisionError | IndexError | ValueError.

Inductive result (A : Type) :=
| Ok (a : A)
| Raise (e : exn).

Arguments Ok {A} a.
Arguments Raise {A} e.

Definition bind {A B} (m : result A) (k : A -> result B) : result B :=
  match m with
  | Ok a => k a
  | Raise e => Raise e
  end.

Notation "x <- m ;; k" := (bind m (fun x => k))
  (at level 61, m at next level, right associativity).

(** A loop or comprehension whose body may raise: the first exception
    ends it. *)
Fixpoint mapM {A B} (f : A -> result B) (l : list A) : result (list B) :=
  match l with
  | [] => Ok []
  | a :: l' => b <- f a ;; bs <- mapM f l' ;; Ok (b :: bs)
  end.

(** [a / b] on integers: true division, as the exact quotient.  That the
    code rounds it to a double, and raises [OverflowError] when it is
    beyond the range of a double, is not modelled. *)
Definition py_truediv (a b : Z) : result Q :=
  if b =? 0 then Raise ZeroDivisionError
  else Ok (Qred (inject_Z a / inject_Z b)).

(** [int(x)] on a float: truncation towards zero. *)
Definition py_int (x : Q) : Z := Z.quot (Qnum x) (Z.pos (Qden x)).

(** [s[i]]: negative indices count from the end, anything outside raises. *)
Definition py_index {A} (s : list A) (i : Z) : result A :=
  let n := Z.of_nat (List.length s) in
  let j := if i <? 0 then i + n else i in
  if (j <? 0) || (n <=? j) then Raise IndexError
  else match nth_error s (Z.to_nat j) with
       | Some a => Ok a
       | None => Raise IndexError
       end.

(** ** Insertion-ordered dictionaries *)

Section Dict.
Context {V : Type}.

Definition dict := list (string * V).

Fixpoint dict_get (k : string) (d : dict) : option V :=
  match d with
  | [] => None
  | (k', v) :: d' => if String.eqb k k' then Some v else dict_get k d'
  end.

(** [k in d] *)
Definition dict_mem (k : string) (d : dict) : bool :=
  match dict_get k d with Some _ => true | None => false end.

(** [d[k] = v]: an existing key keeps its position, a new key goes last. *)
Fixpoint dict_set (k : string) (v : V) (d : dict) : dict :=
  match d with
  | [] => [(k, v)]
  | (k', v') :: d' =>
      if String.eqb k k' then (k', v) :: d' else (k', v') :: dict_set k v d'
  end.

(** In-place mutation of the value stored at [k]. *)
Fixpoint dict_modify (k : string) (f : V -> V) (d : dict) : dict :=
  match d with
  | [] => []
  | (k', v') :: d' =>
      if String.eqb k k' then (k', f v') :: d' else (k', v') :: dict_modify k f d'
  end.

Definition dict_keys (d : dict) : list string := map fst d.
Definition dict_values (d : dict) : list V := map snd d.
End Dict.

Arguments dict V : clear implicits.

(** ** Data model *)

(** One channel object of a broker's [/stats] document.  [message_count]
    is read with [.get(..., 0)], so it may be absent; the other keys are
    read with [[...]] and must be there. *)
Module ChannelSnapshot.
Record t := mk {
  channel_name : string;
  depth : Z;
  backend_depth : Z;
  in_flight_count : Z;
  message_count : option Z
}.
End ChannelSnapshot.

(** A topic object; an absent ['channels'] is the empty list. *)
Module TopicSnapshot.
Record t := mk {
  topic_name : string;
  channels : list ChannelSnapshot.t
}.
End TopicSnapshot.

(** A broker document; an absent ['topics'] is the empty list. *)
Module BrokerStats.
Record t := mk { topics : list TopicSnapshot.t }.
End BrokerStats.

(** The value stored per channel key in [channel_data].  The two rate
    keys are added by the second phase of [process_stats]. *)
Module AggregatedChannel.
Record t := mk {
  topic : string;
  channel : string;
  depth : Z;
  in_flight_count : Z;
  message_count : Z;
  rate_per_second : option Q;
  rate_per_minute : option Q
}.
End AggregatedChannel.

Module CS := ChannelSnapshot.
Module TS := TopicSnapshot.
Module BS := BrokerStats.
Module AC := AggregatedChannel.

(** [channel.get('message_count', 0)] *)
Definition get_message_count (c : CS.t) : Z :=
  match CS.message_count c with Some n => n | None => 0 end.

(** [f"{topic}/{channel}"] *)
Definition channel_key (topic_name channel_name : string) : string :=
  (topic_name ++ "/" ++ channel_name)%string.

(** ** [get_nsqd_nodes] (lines 20-50) *)

(** A producer entry of a directory service's [/nodes] answer; its
    identity is the address and the port, [hostname] stands for the rest
    of the entry. *)
Module Producer.
Record t := mk {
  broadcast_address : string;
  http_port : Z;
  hostname : string
}.
End Producer.

(** What one [requests.get(f"{lookupd_url}/nodes")] comes to: the
    ['producers'] list of the body (empty when the key is absent), or one
    of the two exceptions the loop catches. *)
Inductive lookup_response :=
| Producers (producers : list Producer.t)
| RequestException (e : string)
| InvalidJSON.

(** The function returns either [{'error': ...}] or the list of nodes. *)
Inductive nodes_result :=
| NodesError (error : string)
| Nodes (unique_producers : list Producer.t).

(** Lines 28-36, for one address. *)
Definition query_lookupd (http_get : string -> lookup_response)
    (acc : list Producer.t * list string) (lookupd_url : string)
    : list Producer.t * list string :=
  let '(all_producers, errors) := acc in
  match http_get lookupd_url with
  | Producers producers => (all_producers ++ producers, errors)
  | RequestException e =>
      (all_producers,
       errors ++ [("Failed to connect to " ++ lookupd_url ++ ": " ++ e)%string])
  | InvalidJSON =>
      (all_producers,
       errors ++ [("Invalid JSON response from " ++ lookupd_url)%string])
  end.

Definition producer_key (p : Producer.t) : string * Z :=
  (Producer.broadcast_address p, Producer.http_port p).

Definition key_eqb (a b : string * Z) : bool :=
  String.eqb (fst a) (fst b) && (snd a =? snd b).

(** Lines 44-48, for one producer: the state is [unique_producers] and [seen]. *)
Definition dedup_step (acc : list Producer.t * list (string * Z))
    (producer : Producer.t) : list Producer.t * list (string * Z) :=
  let '(unique_producers, seen) := acc in
  let key := producer_key producer in
  if existsb (key_eqb key) seen then acc
  else (unique_producers ++ [producer], seen ++ [key]).

Definition get_nsqd_nodes (http_get : string -> lookup_response)
    (lookupd_urls : list string) : nodes_result :=
  let '(all_producers, errors) :=
    fold_left (query_lookupd http_get) lookupd_urls ([], []) in
  match all_producers, errors with
  | [], _ :: _ => NodesError (String.concat "; " errors)
  | _, _ => Nodes (fst (fold_left dedup_step all_producers ([], [])))
  end.

(** ** [get_all_stats] (lines 52-69) *)

(** What one [/stats?format=json] request comes to: a document, flat or
    nested under ['data'], or a failure that the loop skips. *)
Inductive stats_response :=
| StatsFlat (stats : BS.t)
| StatsUnderData (data : BS.t)
| StatsFailed.

Definition get_all_stats (http_get_stats : string -> Z -> stats_response)
    (nodes : list Producer.t) : list BS.t :=
  flat_map (fun producer =>
    match http_get_stats (Producer.broadcast_address producer)
                         (Producer.http_port producer) with
    | StatsFlat stats => [stats]
    | StatsUnderData data => [data]
    | StatsFailed => []
    end) nodes.

(** ** [process_stats], first phase: aggregation (lines 75-95) *)

(** Lines 83-89: the entry created on first sight of a key. *)
Definition new_entry (tp : TS.t) (ch : CS.t) : AC.t :=
  AC.mk (TS.topic_name tp) (CS.channel_name ch)
        0 0 (get_message_count ch) None None.

(** Lines 92-94: the three [+=]. *)
Definition accumulate (ch : CS.t) (r : AC.t) : AC.t :=
  AC.mk (AC.topic r) (AC.channel r)
        (AC.depth r + (CS.depth ch + CS.backend_depth ch))
        (AC.in_flight_count r + CS.in_flight_count ch)
        (AC.message_count r + get_message_count ch)
        (AC.rate_per_second r) (AC.rate_per_minute r).

(** The loop state: [channel_data] and [total_in_flight]. *)
Definition agg_state := (dict AC.t * Z)%type.

(** Body of the innermost loop (lines 81-95). *)
Definition visit_channel (tp : TS.t) (st : agg_state) (ch : CS.t) : agg_state :=
  let '(channel_data, total_in_flight) := st in
  let key := channel_key (TS.topic_name tp) (CS.channel_name ch) in
  let channel_data :=
    if dict_mem key channel_data then channel_data
    else dict_set key (new_entry tp ch) channel_data in
  (dict_modify key (accumulate ch) channel_data,
   total_in_flight + CS.in_flight_count ch).

Definition visit_topic (st : agg_state) (tp : TS.t) : agg_state :=
  fold_left (visit_channel tp) (TS.channels tp) st.

Definition visit_stats (st : agg_state) (stats : BS.t) : agg_state :=
  fold_left visit_topic (BS.topics stats) st.

Definition aggregate (nsqd_stats : list BS.t) : agg_state :=
  fold_left visit_stats nsqd_stats ([], 0).

(** ** [process_stats], second phase: rates (lines 97-110) *)

Definition set_rates (r : AC.t) (per_second per_minute : Q) : AC.t :=
  AC.mk (AC.topic r) (AC.channel r) (AC.depth r) (AC.in_flight_count r)
        (AC.message_count r) (Some per_second) (Some per_minute).

(** [previous_stats.get(channel_key, {}).get('message_count', current_count)] *)
Definition previous_count_of (previous_stats : dict AC.t)
    (channel_key : string) (current_count : Z) : Z :=
  match dict_get channel_key previous_stats with
  | Some p => AC.message_count p
  | None => current_count
  end.

(** Lines 100-106, for one key of [channel_data]. *)
Definition rate_entry (previous_stats : dict AC.t) (interval_seconds : Z)
    (kr : string * AC.t) : result (string * AC.t) :=
  let '(channel_key, r) := kr in
  let current_count := AC.message_count r in
  let previous_count := previous_count_of previous_stats channel_key current_count in
  messages_per_second <-
    py_truediv (Z.max 0 (current_count - previous_count)) interval_seconds ;;
  let messages_per_minute := Qred (messages_per_second * inject_Z 60) in
  Ok (channel_key, set_rates r messages_per_second messages_per_minute).

(** Lines 109-110. *)
Definition zero_entry (kr : string * AC.t) : string * AC.t :=
  (fst kr, set_rates (snd kr) 0 0).

(** [if previous_stats:] holds for a mapping that is there and not empty. *)
Definition truthy (previous_stats : option (dict AC.t)) : option (dict AC.t) :=
  match previous_stats with
  | Some (_ :: _) => previous_stats
  | _ => None
  end.

Definition annotate_rates (channel_data : dict AC.t)
    (previous_stats : option (dict AC.t)) (interval_seconds : Z)
    : result (dict AC.t) :=
  match truthy previous_stats with
  | Some previous => mapM (rate_entry previous interval_seconds) channel_data
  | None => Ok (map zero_entry channel_data)
  end.

(** ** [process_stats], third phase: ranking (lines 112-114) *)

(** [sorted(..., key=lambda x: x['depth'], reverse=True)]: descending, and
    stable, so records of equal depth keep their order. *)
Fixpoint insert_desc (x : AC.t) (l : list AC.t) : list AC.t :=
  match l with
  | [] => [x]
  | y :: l' =>
      if AC.depth y <=? AC.depth x then x :: y :: l' else y :: insert_desc x l'
  end.

Fixpoint sorted_by_depth_desc (l : list AC.t) : list AC.t :=
  match l with
  | [] => []
  | x :: l' => insert_desc x (sorted_by_depth_desc l')
  end.

Definition process_stats (nsqd_stats : list BS.t)
    (previous_stats : option (dict AC.t)) (interval_seconds : Z)
    : result (list AC.t * Z) :=
  let '(channel_data, total_in_flight) := aggregate nsqd_stats in
  channel_data <- annotate_rates channel_data previous_stats interval_seconds ;;
  let sorted_channels := sorted_by_depth_desc (dict_values channel_data) in
  Ok (sorted_channels, total_in_flight).

(** ** [get_sparkline] (lines 116-126) *)

(** [max(history)] on a list known not to be empty. *)
Definition py_max (x : Z) (xs : list Z) : Z := fold_left Z.max xs x.

Definition sparkline_max_val (x : Z) (xs : list Z) : Z :=
  if 0 <? py_max x xs then py_max x xs else 1.

Definition scale (max_val value : Z) : result Z :=
  ratio <- py_truediv value max_val ;;
  Ok (py_int (ratio * inject_Z (Z.of_nat (List.length SPARKLINE_CHARS) - 1))).

Definition get_sparkline (history : list Z) : result (list N) :=
  match history with
  | [] => Ok []
  | x :: xs =>
      let max_val := sparkline_max_val x xs in
      scaled_data <- mapM (scale max_val) history ;;
      mapM (py_index SPARKLINE_CHARS) scaled_data
  end.

(** ** The polling loop of [main] (lines 282-311) *)

(** What the network answers during one cycle. *)
Record network := {
  http_get_nodes : string -> lookup_response;
  http_get_stats : string -> Z -> stats_response
}.

(** The two variables that live across cycles. *)
Record loop_state := {
  inflight_history : list Z;
  previous_channel_stats : option (dict AC.t)
}.

(** Line 282-283. *)
Definition initial_state : loop_state :=
  {| inflight_history := []; previous_channel_stats := None |}.

(** Lines 305-307: [append], then [pop(0)] when over the bound. *)
Definition update_history (inflight_history : list Z) (total_in_flight : Z)
    : list Z :=
  let inflight_history := inflight_history ++ [total_in_flight] in
  if (SPARKLINE_LENGTH <? List.length inflight_history)%nat
  then tl inflight_history
  else inflight_history.

(** Line 302: [{f"{ch['topic']}/{ch['channel']}": ch for ch in channels}] *)
Definition index_channels (channels : list AC.t) : dict AC.t :=
  fold_left (fun d ch => dict_set (channel_key (AC.topic ch) (AC.channel ch)) ch d)
            channels [].

(** [time.sleep] rejects a negative length.  That it also rejects, with
    [OverflowError], a length of more than 9223372036 seconds, which its
    clock cannot hold in nanoseconds, is not modelled. *)
Definition time_sleep (secs : Z) : result unit :=
  if secs <? 0 then Raise ValueError else Ok tt.

(** Lines 290-302: what one cycle finds out, namely [error_message],
    [channels], [total_in_flight] and the new [previous_channel_stats]. *)
Definition poll (lookupd_urls : list string) (interval : Z)
    (previous : option (dict AC.t)) (net : network)
    : result (option string * list AC.t * Z * option (dict AC.t)) :=
  match get_nsqd_nodes (http_get_nodes net) lookupd_urls with
  | NodesError error => Ok (Some error, [], 0, previous)
  | Nodes nodes =>
      let stats := get_all_stats (http_get_stats net) nodes in
      res <- process_stats stats previous interval ;;
      let '(channels, total_in_flight) := res in
      Ok (None, channels, total_in_flight, Some (index_channels channels))
  end.

(** ** [draw_ui] (lines 128-225) *)

(** What [draw_ui] decides is modelled, not how the terminal shows it:
    the screen is the banner or the table with its lines and cells.  The
    title line, which reads the clock, is left out, and a number that is
    printed through a format specification is kept as the number.  A
    character of a [string] stands for one code point, so [len] is
    [String.length]. *)

Definition DEPTH_WARN_THRESHOLD : Z := 100.
Definition DEPTH_CRIT_THRESHOLD : Z := 1000.

(** [s * n]: nothing when [n] is not above zero. *)
Definition py_mul (s : string) (n : Z) : string :=
  String.concat "" (repeat s (Z.to_nat n)).

(** [f"{s:<{width}}"] and [f"{s:>{width}}"] *)
Definition py_ljust (s : string) (width : Z) : string :=
  (s ++ py_mul " " (width - Z.of_nat (String.length s)))%string.

Definition py_rjust (s : string) (width : Z) : string :=
  (py_mul " " (width - Z.of_nat (String.length s)) ++ s)%string.

(** [s[start:]] *)
Definition py_from (start : Z) (s : string) : string :=
  let n := Z.of_nat (String.length s) in
  let i := if start <? 0 then Z.max 0 (start + n) else Z.min start n in
  substring (Z.to_nat i) (Z.to_nat (n - i)) s.

(** [l[:stop]] *)
Definition py_upto {A} (stop : Z) (l : list A) : list A :=
  let n := Z.of_nat (List.length l) in
  let j := if stop <? 0 then Z.max 0 (stop + n) else Z.min stop n in
  firstn (Z.to_nat j) l.

(** The three ways a depth is coloured (lines 192-197). *)
Inductive depth_style := bold_red | bold_yellow | green.

(** One line of the table (lines 180-212); a rate cell is either the
    rate to print or, as [None], the two dashes. *)
Record table_row := {
  cell_topic_channel : string;
  cell_depth : Z;
  cell_depth_style : depth_style;
  cell_in_flight : Z;
  cell_rate_sec : option Q;
  cell_rate_min : option Q
}.

Record table := {
  summary_total_in_flight : Z;
  summary_channels : nat;
  summary_trend : list N;
  table_separator : string;
  table_header_row : string;
  table_rows : list table_row;
  table_more : option Z
}.

Inductive screen :=
| ErrorBanner (message : string)
| Dashboard (t : table).

(** Lines 154-165. *)
Definition topic_channel_width_of (term_width : Z) : Z :=
  let available_width := term_width - 6 in
  let depth_width := 9 in
  let inflight_width := 9 in
  let rate_sec_width := 8 in
  let rate_min_width := 8 in
  let fixed_columns_width :=
    depth_width + inflight_width + rate_sec_width + rate_min_width + 10 in
  let topic_channel_width := available_width - fixed_columns_width in
  Z.max topic_channel_width 25.

(** Line 168. *)
Definition separator_of (topic_channel_width : Z) : string :=
  ("+" ++ py_mul "-" (topic_channel_width + 2)
   ++ "+" ++ py_mul "-" (9 + 2)
   ++ "+" ++ py_mul "-" (9 + 2)
   ++ "+" ++ py_mul "-" (8 + 2)
   ++ "+" ++ py_mul "-" (8 + 2) ++ "+")%string.

(** Line 169. *)
Definition header_row_of (topic_channel_width : Z) : string :=
  ("| " ++ py_ljust "Topic/Channel" topic_channel_width
   ++ " | " ++ py_rjust "Depth" 9
   ++ " | " ++ py_rjust "In-Flight" 9
   ++ " | " ++ py_rjust "Rate/sec" 8
   ++ " | " ++ py_rjust "Rate/min" 8 ++ " |")%string.

(** Lines 180-184. *)
Definition shown_name (topic_channel_width : Z) (channel : AC.t) : string :=
  let topic_channel := channel_key (AC.topic channel) (AC.channel channel) in
  if topic_channel_width <? Z.of_nat (String.length topic_channel)
  then ("..." ++ py_from (- (topic_channel_width - 3)) topic_channel)%string
  else topic_channel.

(** Lines 192-197. *)
Definition style_of_depth (depth : Z) : depth_style :=
  if DEPTH_CRIT_THRESHOLD <=? depth then bold_red
  else if DEPTH_WARN_THRESHOLD <=? depth then bold_yellow
  else green.

(** [channel.get(key, 0)] on a rate, then the test [rate > 0] of lines
    200-208. *)
Definition rate_cell (rate : option Q) : option Q :=
  let rate := match rate with Some q => q | None => 0%Q end in
  if 0 <? Qnum rate then Some rate else None.

(** Lines 179-213, for one channel. *)
Definition draw_row (topic_channel_width : Z) (channel : AC.t) : table_row :=
  {| cell_topic_channel :=
       py_ljust (shown_name topic_channel_width channel) topic_channel_width;
     cell_depth := AC.depth channel;
     cell_depth_style := style_of_depth (AC.depth channel);
     cell_in_flight := AC.in_flight_count channel;
     cell_rate_sec := rate_cell (AC.rate_per_second channel);
     cell_rate_min := rate_cell (AC.rate_per_minute channel) |}.

Definition draw_ui (term_width term_height : Z) (channels : list AC.t)
    (total_in_flight : Z) (inflight_history : list Z) (error : option string)
    : result screen :=
  match error with
  | Some (String c rest) => Ok (ErrorBanner ("Error: " ++ String c rest))
  | _ =>
      sparkline <- get_sparkline inflight_history ;;
      let topic_channel_width := topic_channel_width_of term_width in
      let max_rows := term_height - 12 in
      Ok (Dashboard
            {| summary_total_in_flight := total_in_flight;
               summary_channels := List.length channels;
               summary_trend := sparkline;
               table_separator := separator_of topic_channel_width;
               table_header_row := header_row_of topic_channel_width;
               table_rows :=
                 map (draw_row topic_channel_width) (py_upto max_rows channels);
               table_more :=
                 if max_rows <? Z.of_nat (List.length channels)
                 then Some (Z.of_nat (List.length channels) - max_rows)
                 else None |})
  end.

(** ** The polling loop with its drawing (lines 289-311) *)

(** What a cycle finds around it: the network and the size of the
    terminal at the time of drawing. *)
Record surroundings := {
  around_net : network;
  term_width : Z;
  term_height : Z
}.

(** One turn of [while True], the call of [draw_ui] included. *)
Definition drawn_cycle (lookupd_urls : list string) (interval : Z)
    (st : loop_state) (env : surroundings) : result (loop_state * screen) :=
  outcome <- poll lookupd_urls interval (previous_channel_stats st)
                  (around_net env) ;;
  let '(error_message, channels, total_in_flight, previous) := outcome in
  let history := update_history (inflight_history st) total_in_flight in
  shown <- draw_ui (term_width env) (term_height env) channels total_in_flight
                   history error_message ;;
  _ <- time_sleep interval ;;
  Ok ({| inflight_history := history; previous_channel_stats := previous |},
      shown).

Fixpoint drawn_loop (lookupd_urls : list string) (interval : Z)
    (st : loop_state) (cycles : list surroundings)
    : result (loop_state * list screen) :=
  match cycles with
  | [] => Ok (st, [])
  | env :: cycles' =>
      r <- drawn_cycle lookupd_urls interval st env ;;
      r' <- drawn_loop lookupd_urls interval (fst r) cycles' ;;
      Ok (fst r', snd r :: snd r')
  end.

(** ** The directory-service addresses of [main] (lines 235-278) *)

(** [c.isspace()] for a code point below 256. *)
Definition py_isspace (c : Ascii.ascii) : bool :=
  let n := Ascii.nat_of_ascii c in
  ((9 <=? n) && (n <=? 13) || (28 <=? n) && (n <=? 32)
   || (n =? 133) || (n =? 160))%nat.

Fixpoint py_lstrip (s : string) : string :=
  match s with
  | EmptyString => EmptyString
  | String c rest => if py_isspace c then py_lstrip rest else s
  end.

Fixpoint py_rstrip (s : string) : string :=
  match s with
  | EmptyString => EmptyString
  | String c rest =>
      match py_rstrip rest with
      | EmptyString => if py_isspace c then EmptyString else String c EmptyString
      | kept => String c kept
      end
  end.

(** [s.strip()] *)
Definition py_strip (s : string) : string := py_rstrip (py_lstrip s).

(** [s.split(sep)] for a separator of one character. *)
Fixpoint py_split (sep : Ascii.ascii) (s : string) : list string :=
  match s with
  | EmptyString => [EmptyString]
  | String c rest =>
      if Ascii.eqb c sep then EmptyString :: py_split sep rest
      else match py_split sep rest with
           | piece :: pieces => String c piece :: pieces
           | [] => [String c EmptyString]
           end
  end.

(** [[url.strip() for url in s.split(',') if url.strip()]] *)
Definition stripped_pieces (s : string) : list string :=
  filter (fun url => negb (String.eqb url ""))
         (map py_strip (py_split ","%char s)).

(** Lines 243-245 and 275-277: the scheme is added when none of the two
    is there. *)
Definition add_scheme (url : string) : string :=
  if String.prefix "http://" url || String.prefix "https://" url then url
  else ("http://" ++ url)%string.

(** Lines 235-246: the default taken from the environment. *)
Definition default_lookupd (NSQ_LOOKUPD_ADDRESSES NSQ_LOOKUPD_ADDRESS : option string)
    : string :=
  let default_lookupd :=
    match NSQ_LOOKUPD_ADDRESSES with
    | Some v => v
    | None => match NSQ_LOOKUPD_ADDRESS with Some v => v | None => "" end
    end in
  match default_lookupd with
  | EmptyString => default_lookupd
  | _ => String.concat "," (map add_scheme (stripped_pieces default_lookupd))
  end.

(** How the start of [main] ends: with the usage message of
    [parser.error], or with the addresses the loop will poll. *)
Inductive startup :=
| Usage (message : string)
| Addresses (lookupd_urls : list string).

(** Lines 262-278; [flag] is the value of [--lookupd-http-address] when
    it is given. *)
Definition parse_addresses (flag : option string)
    (NSQ_LOOKUPD_ADDRESSES NSQ_LOOKUPD_ADDRESS : option string) : startup :=
  let lookupd_http_address :=
    match flag with
    | Some v => v
    | None => default_lookupd NSQ_LOOKUPD_ADDRESSES NSQ_LOOKUPD_ADDRESS
    end in
  match lookupd_http_address with
  | EmptyString =>
      Usage "the --lookupd-http-address argument is required, or set NSQ_LOOKUPD_ADDRESSES environment variable"
  | _ =>
      match stripped_pieces lookupd_http_address with
      | [] => Usage "at least one valid lookupd address is required"
      | lookupd_urls => Addresses (map add_scheme lookupd_urls)
      end
  end.

(** ** Notions the statements refer to *)

(** Every (topic, channel) object of the documents, in the order the
    three nested loops of [process_stats] reach them. *)
Definition contributions (nsqd_stats : list BS.t) : list (TS.t * CS.t) :=
  flat_map (fun stats =>
    flat_map (fun tp => map (pair tp) (TS.channels tp)) (BS.topics stats))
    nsqd_stats.

Definition key_of (p : TS.t * CS.t) : string :=
  channel_key (TS.topic_name (fst p)) (CS.channel_name (snd p)).

(** The channel objects that contribute to one channel key. *)
Definition hosting (k : string) (nsqd_stats : list BS.t) : list CS.t :=
  map snd (filter (fun p => String.eqb k (key_of p)) (contributions nsqd_stats)).

Definition Zsum (l : list Z) : Z := fold_right Z.add 0 l.

Definition backlog (ch : CS.t) : Z := CS.depth ch + CS.backend_depth ch.

(** All four counters of every channel object are at least zero. *)
Definition nonneg_channel (ch : CS.t) : Prop :=
  0 <= CS.depth ch /\ 0 <= CS.backend_depth ch /\
  0 <= CS.in_flight_count ch /\ 0 <= get_message_count ch.

Definition nonneg_stats (nsqd_stats : list BS.t) : Prop :=
  forall p, In p (contributions nsqd_stats) -> nonneg_channel (snd p).

(** The loop body on a flattened contribution. *)
Definition visit (st : agg_state) (p : TS.t * CS.t) : agg_state :=
  visit_channel (fst p) st (snd p).

(** The entry of a key after the channel objects [l] were added to [r]. *)
Definition entry_of (l : list CS.t) (r : AC.t) : AC.t :=
  fold_left (fun r ch => accumulate ch r) l r.

(** Keys are distinct and each is the key of the entry stored under it. *)
Definition well_keyed (d : dict AC.t) : Prop :=
  NoDup (dict_keys d) /\
  forall k r, In (k, r) d -> k = channel_key (AC.topic r) (AC.channel r).

(** The rate a channel gets from its current and previous counts. *)
Definition rate_of (current_count previous_count interval_seconds : Z) : Q :=
  Qred (inject_Z (Z.max 0 (current_count - previous_count))
        / inject_Z interval_seconds).

(** [rate_entry] when the division goes through. *)
Definition rated (previous_stats : dict AC.t) (interval_seconds : Z)
    (kr : string * AC.t) : string * AC.t :=
  let current_count := AC.message_count (snd kr) in
  let per_second :=
    rate_of current_count
            (previous_count_of previous_stats (fst kr) current_count)
            interval_seconds in
  (fst kr, set_rates (snd kr) per_second (Qred (per_second * inject_Z 60))).

(** Two records that differ at most in their rates. *)
Definition same_counts (a b : AC.t) : Prop :=
  AC.topic a = AC.topic b /\ AC.channel a = AC.channel b /\
  AC.depth a = AC.depth b /\
  AC.in_flight_count a = AC.in_flight_count b /\
  AC.message_count a = AC.message_count b.

(** The order [sorted(..., reverse=True)] establishes. *)
Definition depth_ge (a b : AC.t) : Prop := AC.depth b <= AC.depth a.

Definition has_depth (n : Z) (r : AC.t) : bool := AC.depth r =? n.

(** The keys of a list in the order of their first occurrence: the order
    a [dict] filled in that sequence lists its keys in. *)
Definition first_seen (keys : list string) : list string :=
  fold_left (fun seen k =>
    if existsb (String.eqb k) seen then seen else seen ++ [k]) keys [].

(** What one directory-service address adds to [all_producers] and to
    [errors]. *)
Definition obtained_from (http_get : string -> lookup_response)
    (lookupd_url : string) : list Producer.t :=
  match http_get lookupd_url with
  | Producers producers => producers
  | _ => []
  end.

Definition failure_of (http_get : string -> lookup_response)
    (lookupd_url : string) : list string :=
  match http_get lookupd_url with
  | Producers _ => []
  | RequestException e =>
      [("Failed to connect to " ++ lookupd_url ++ ": " ++ e)%string]
  | InvalidJSON => [("Invalid JSON response from " ++ lookupd_url)%string]
  end.

(** The request to this address ended in one of the two caught exceptions. *)
Definition address_failed (http_get : string -> lookup_response)
    (lookupd_url : string) : Prop :=
  match http_get lookupd_url with
  | Producers _ => False
  | _ => True
  end.

(** The most recent [SPARKLINE_LENGTH] elements of a sequence. *)
Definition window (samples : list Z) : list Z :=
  skipn (List.length samples - SPARKLINE_LENGTH) samples.

(** The two ends of the palette. *)
Definition lowest_glyph : N := hd 0%N SPARKLINE_CHARS.
Definition highest_glyph : N := last SPARKLINE_CHARS 0%N.

(** The glyph of a value once the two comprehensions went through. *)
Definition glyph_of (max_val value : Z) : N :=
  nth (Z.to_nat (Z.quot (value * 7) max_val)) SPARKLINE_CHARS 0%N.

(** ** Sample inputs *)

(** A broker document with one topic and one channel. *)
Definition broker_doc (topic_name channel_name : string)
    (depth backend_depth in_flight_count message_count : Z) : BS.t :=
  BS.mk [TS.mk topic_name
           [CS.mk channel_name depth backend_depth in_flight_count
                  (Some message_count)]].

Definition rated_zero (topic channel : string)
    (depth in_flight_count message_count : Z) : AC.t :=
  AC.mk topic channel depth in_flight_count message_count (Some 0%Q) (Some 0%Q).

Definition counted (message_count : Z) : AC.t :=
  AC.mk "orders" "billing" 0 0 message_count None None.

(** A directory service that answers with no producers at ["a"] and is
    unreachable elsewhere. *)
Definition empty_then_down (lookupd_url : string) : lookup_response :=
  if String.eqb lookupd_url "http://a:4161" then Producers []
  else RequestException "timed out".

(** A directory service that lists one broker at ["a"] and is
    unreachable elsewhere. *)
Definition one_then_down (lookupd_url : string) : lookup_response :=
  if String.eqb lookupd_url "http://a:4161"
  then Producers [Producer.mk "10.0.0.1" 4151 "nsqd-1"]
  else RequestException "timed out".

(** A cycle in which the directory service at ["a"] lists one broker and
    that broker reports [message_count] for orders/billing. *)
Definition net_up (message_count : Z) : network :=
  {| http_get_nodes := one_then_down;
     http_get_stats := fun _ _ =>
       StatsFlat (broker_doc "orders" "billing" 0 0 0 message_count) |}.

(** A cycle in which no directory service can be reached. *)
Definition net_down : network :=
  {| http_get_nodes := fun _ => RequestException "timed out";
     http_get_stats := fun _ _ => StatsFailed |}.

(** A cycle in which the one broker reports [in_flight_count] messages
    in flight for orders/billing. *)
Definition net_busy (in_flight_count : Z) : network :=
  {| http_get_nodes := one_then_down;
     http_get_stats := fun _ _ =>
       StatsFlat (broker_doc "orders" "billing" 0 0 in_flight_count 0) |}.

(** A cycle on a terminal of 80 columns and 24 lines. *)
Definition at_terminal (net : network) : surroundings :=
  {| around_net := net; term_width := 80; term_height := 24 |}.

(** ** Further notions *)

(** The key under which the loop of [main] files a returned record. *)
Definition row_key (r : AC.t) : string :=
  channel_key (AC.topic r) (AC.channel r).

(** Whether a producer carries the address and port of [q]. *)
Definition same_endpoint (q p : Producer.t) : bool :=
  key_eqb (producer_key p) (producer_key q).

(** Whether the broker behind a node answered the statistics request. *)
Definition answered (http_get_stats : string -> Z -> stats_response)
    (producer : Producer.t) : bool :=
  match http_get_stats (Producer.broadcast_address producer)
                       (Producer.http_port producer) with
  | StatsFailed => false
  | _ => true
  end.

(** The entry the second phase of [process_stats] leaves for an entry of
    [channel_data], when it does not raise. *)
Definition annotate_entry (previous_stats : option (dict AC.t))
    (interval_seconds : Z) (kr : string * AC.t) : string * AC.t :=
  match truthy previous_stats with
  | Some previous => rated previous interval_seconds kr
  | None => zero_entry kr
  end.


(** The sample a cycle added to the history, read off what it drew:
    the total of the summary line, or 0 under the banner, where
    [total_in_flight] still has the value of line 292. *)
Definition sample_of (shown : screen) : Z :=
  match shown with
  | ErrorBanner _ => 0
  | Dashboard t => summary_total_in_flight t
  end.

(** The trend a screen shows, if it shows one, is within the bound. *)
Definition trend_within_bound (shown : screen) : Prop :=
  match shown with
  | ErrorBanner _ => True
  | Dashboard t => (List.length (summary_trend t) <= SPARKLINE_LENGTH)%nat
  end.

(** Line 125 divides and multiplies in double precision.  On integers
    below 2^48 in magnitude the quotient stays within the range of a
    double, and the two roundings, each of relative size at most 2^-53,
    cannot carry 7 * value / max_val across one of the whole numbers
    from -9 to 7: unless it is a whole number, it is at least
    1 / max_val away from the next one, and the whole numbers from -9
    to 7 come out exactly.  So the index the code computes is the
    integer part of the exact quotient whenever that is an index of the
    palette, and the code fails on an index exactly when the exact
    quotient is out of range. *)
Definition small_sample (value : Z) : Prop := - 2 ^ 48 < value < 2 ^ 48.



(** The characters of a string. *)
Definition chars (s : string) : list Ascii.ascii := list_ascii_of_string s.

(** The address given to [main] holds nothing but commas and blanks. *)
Definition only_commas_and_blanks (s : string) : Prop :=
  forall c, In c (chars s) -> c = ","%char \/ py_isspace c = true.

Definition has_scheme (url : string) : Prop :=
  String.prefix "http://" url = true \/ String.prefix "https://" url = true.

(** * Properties *)

(** ** The error monad *)

Lemma bind_Ok {A B} (m : result A) (k : A -> result B) (b : B) :
  bind m k = Ok b -> exists a, m = Ok a /\ k a = Ok b.
Proof.
  destruct m as [a | e]; simpl; intros H.
  - exists a. split; [reflexivity | exact H].
  - discriminate H.
Qed.

Lemma mapM_Ok_length {A B} (f : A -> result B) (l : list A) (out : list B) :
  mapM f l = Ok out -> List.length out = List.length l.
Proof.
  revert out. induction l as [| a l IH]; simpl; intros out H.
  - injection H as <-. reflexivity.
  - apply bind_Ok in H. destruct H as [b [_ H]].
    apply bind_Ok in H. destruct H as [bs [Hbs H]].
    injection H as <-. simpl. f_equal. apply IH. exact Hbs.
Qed.

Lemma mapM_total {A B} (f : A -> result B) (g : A -> B) (l : list A) :
  (forall a, In a l -> f a = Ok (g a)) -> mapM f l = Ok (map g l).
Proof.
  induction l as [| a l IH]; simpl; intros H.
  - reflexivity.
  - rewrite (H a (or_introl eq_refl)). simpl.
    rewrite IH by (intros; apply H; right; assumption).
    reflexivity.
Qed.

(** ** Dictionaries *)

Section DictFacts.
Context {V : Type}.
Implicit Types (d : dict V) (k : string) (v : V).

Lemma dict_get_set k k' v d :
  dict_get k (dict_set k' v d) =
  if String.eqb k k' then Some v else dict_get k d.
Proof.
  induction d as [| [k0 v0] d IH]; simpl.
  - reflexivity.
  - destruct (String.eqb k' k0) eqn:E'; simpl.
    + apply String.eqb_eq in E'. subst k0.
      destruct (String.eqb k k'); reflexivity.
    + destruct (String.eqb k k0) eqn:E0.
      * apply String.eqb_eq in E0. subst k0.
        rewrite String.eqb_sym, E'. reflexivity.
      * exact IH.
Qed.

Lemma dict_get_modify k k' (f : V -> V) d :
  dict_get k (dict_modify k' f d) =
  if String.eqb k k' then option_map f (dict_get k d) else dict_get k d.
Proof.
  induction d as [| [k0 v0] d IH]; simpl.
  - destruct (String.eqb k k'); reflexivity.
  - destruct (String.eqb k' k0) eqn:E'; simpl.
    + apply String.eqb_eq in E'. subst k0.
      destruct (String.eqb k k'); reflexivity.
    + destruct (String.eqb k k0) eqn:E0.
      * apply String.eqb_eq in E0. subst k0.
        rewrite String.eqb_sym, E'. reflexivity.
      * exact IH.
Qed.

Lemma dict_get_In k v d : dict_get k d = Some v -> In (k, v) d.
Proof.
  induction d as [| [k0 v0] d IH]; simpl; intros H.
  - discriminate H.
  - destruct (String.eqb k k0) eqn:E.
    + apply String.eqb_eq in E. injection H as ->. subst. left. reflexivity.
    + right. apply IH. exact H.
Qed.

Lemma dict_get_None_keys k d : dict_get k d = None -> ~ In k (dict_keys d).
Proof.
  induction d as [| [k0 v0] d IH]; simpl; intros H.
  - intros [].
  - destruct (String.eqb k k0) eqn:E; [discriminate H |].
    apply String.eqb_neq in E. intros [-> | Hin]; [congruence |].
    exact (IH H Hin).
Qed.

Lemma In_dict_get k v d :
  NoDup (dict_keys d) -> In (k, v) d -> dict_get k d = Some v.
Proof.
  induction d as [| [k0 v0] d IH]; simpl; intros Hnd Hin.
  - destruct Hin.
  - inversion Hnd as [| ? ? Hnot Hnd']; subst.
    destruct Hin as [Heq | Hin].
    + injection Heq as -> ->. rewrite String.eqb_refl. reflexivity.
    + destruct (String.eqb k k0) eqn:E.
      * apply String.eqb_eq in E. subst k0. exfalso. apply Hnot.
        unfold dict_keys. change k with (fst (k, v)). apply in_map. exact Hin.
      * apply IH; assumption.
Qed.

Lemma dict_keys_modify k (f : V -> V) d :
  dict_keys (dict_modify k f d) = dict_keys d.
Proof.
  induction d as [| [k0 v0] d IH]; simpl.
  - reflexivity.
  - destruct (String.eqb k k0); simpl; [reflexivity | f_equal; exact IH].
Qed.

Lemma dict_keys_set_new k v d :
  dict_get k d = None -> dict_keys (dict_set k v d) = dict_keys d ++ [k].
Proof.
  induction d as [| [k0 v0] d IH]; simpl; intros H.
  - reflexivity.
  - destruct (String.eqb k k0); [discriminate H |].
    simpl. f_equal. apply IH. exact H.
Qed.

Lemma dict_keys_set_old k v d :
  dict_get k d <> None -> dict_keys (dict_set k v d) = dict_keys d.
Proof.
  induction d as [| [k0 v0] d IH]; simpl; intros H.
  - congruence.
  - destruct (String.eqb k k0); simpl; [reflexivity |].
    f_equal. apply IH. exact H.
Qed.

Lemma In_dict_modify k (f : V -> V) d (P : string -> V -> Prop) :
  (forall k0 v0, In (k0, v0) d -> P k0 v0) ->
  (forall k0 v0, P k0 v0 -> P k0 (f v0)) ->
  forall k0 v0, In (k0, v0) (dict_modify k f d) -> P k0 v0.
Proof.
  intros Hd Hf. induction d as [| [k1 v1] d IH]; simpl; intros k0 v0 Hin.
  - destruct Hin.
  - destruct (String.eqb k k1); simpl in Hin.
    + destruct Hin as [Heq | Hin].
      * injection Heq as <- <-. apply Hf. apply Hd. left. reflexivity.
      * apply Hd. right. exact Hin.
    + destruct Hin as [Heq | Hin].
      * injection Heq as <- <-. apply Hd. left. reflexivity.
      * apply IH; [| exact Hin]. intros. apply Hd. right. assumption.
Qed.

Lemma In_dict_set k v d k0 v0 :
  In (k0, v0) (dict_set k v d) -> (k0, v0) = (k, v) \/ In (k0, v0) d.
Proof.
  induction d as [| [k1 v1] d IH]; simpl; intros Hin.
  - destruct Hin as [Heq | []]. left. symmetry. exact Heq.
  - destruct (String.eqb k k1) eqn:E; simpl in Hin.
    + apply String.eqb_eq in E. subst k1.
      destruct Hin as [Heq | Hin]; [left; symmetry; exact Heq | right; right; exact Hin].
    + destruct Hin as [Heq | Hin]; [right; left; exact Heq |].
      destruct (IH Hin) as [H | H]; [left; exact H | right; right; exact H].
Qed.
End DictFacts.

(** ** Aggregation *)

Lemma fold_left_flat_map {A B C} (f : A -> C -> A) (g : B -> list C)
    (l : list B) (a : A) :
  fold_left f (flat_map g l) a = fold_left (fun a b => fold_left f (g b) a) l a.
Proof.
  revert a. induction l as [| b l IH]; simpl; intros a.
  - reflexivity.
  - rewrite fold_left_app. apply IH.
Qed.

Lemma fold_left_map_arg {A B C} (f : A -> C -> A) (h : B -> C)
    (l : list B) (a : A) :
  fold_left f (map h l) a = fold_left (fun a b => f a (h b)) l a.
Proof.
  revert a. induction l as [| b l IH]; simpl; intros a; [reflexivity | apply IH].
Qed.

Lemma aggregate_contributions (nsqd_stats : list BS.t) :
  aggregate nsqd_stats = fold_left visit (contributions nsqd_stats) ([], 0).
Proof.
  unfold aggregate, contributions.
  rewrite fold_left_flat_map.
  generalize (@nil (string * AC.t), 0).
  induction nsqd_stats as [| s l IH]; simpl; intros st; [reflexivity |].
  rewrite <- IH. f_equal.
  rewrite fold_left_flat_map. unfold visit_stats.
  generalize st. clear.
  induction (BS.topics s) as [| tp tps IH]; simpl; intros st; [reflexivity |].
  rewrite <- IH. f_equal.
  rewrite fold_left_map_arg. reflexivity.
Qed.

Lemma visit_get (p : TS.t * CS.t) (d : dict AC.t) (t : Z) (k : string) :
  dict_get k (fst (visit (d, t) p)) =
  if String.eqb k (key_of p)
  then match dict_get k d with
       | Some r => Some (accumulate (snd p) r)
       | None => Some (accumulate (snd p) (new_entry (fst p) (snd p)))
       end
  else dict_get k d.
Proof.
  unfold visit, visit_channel. fold (key_of p). simpl.
  rewrite dict_get_modify. unfold dict_mem.
  destruct (String.eqb k (key_of p)) eqn:E.
  - apply String.eqb_eq in E. subst k.
    destruct (dict_get (key_of p) d) as [r |] eqn:G.
    + rewrite G. reflexivity.
    + rewrite dict_get_set, String.eqb_refl. reflexivity.
  - destruct (dict_get (key_of p) d); [reflexivity |].
    rewrite dict_get_set, E. reflexivity.
Qed.

(** The entry of every key after the loops: the fold of the three [+=]
    over the key's contributions, from the entry its first one created. *)
Lemma fold_visit_get (cs : list (TS.t * CS.t)) :
  forall (d : dict AC.t) (t : Z) (k : string),
    dict_get k (fst (fold_left visit cs (d, t))) =
    let own := filter (fun p => String.eqb k (key_of p)) cs in
    match dict_get k d with
    | Some r => Some (entry_of (map snd own) r)
    | None =>
        match own with
        | [] => None
        | p :: _ => Some (entry_of (map snd own) (new_entry (fst p) (snd p)))
        end
    end.
Proof.
  induction cs as [| p cs IH]; intros d t k.
  - simpl. destruct (dict_get k d); reflexivity.
  - change (fold_left visit (p :: cs) (d, t))
      with (fold_left visit cs (visit (d, t) p)).
    assert (G := visit_get p d t k).
    destruct (visit (d, t) p) as [d' t'].
    rewrite IH. cbv zeta. simpl fst in G.
    rewrite G. simpl filter.
    destruct (String.eqb k (key_of p)).
    + destruct (dict_get k d); reflexivity.
    + reflexivity.
Qed.

Lemma fold_visit_total (cs : list (TS.t * CS.t)) :
  forall (d : dict AC.t) (t : Z),
    snd (fold_left visit cs (d, t)) =
    t + Zsum (map (fun p => CS.in_flight_count (snd p)) cs).
Proof.
  induction cs as [| p cs IH]; intros d t.
  - simpl. lia.
  - change (fold_left visit (p :: cs) (d, t))
      with (fold_left visit cs (visit (d, t) p)).
    unfold visit at 2, visit_channel. rewrite IH. simpl. lia.
Qed.

Lemma entry_of_fields (l : list CS.t) :
  forall r : AC.t,
    AC.topic (entry_of l r) = AC.topic r /\
    AC.channel (entry_of l r) = AC.channel r /\
    AC.depth (entry_of l r) = AC.depth r + Zsum (map backlog l) /\
    AC.in_flight_count (entry_of l r) =
      AC.in_flight_count r + Zsum (map CS.in_flight_count l) /\
    AC.message_count (entry_of l r) =
      AC.message_count r + Zsum (map get_message_count l) /\
    AC.rate_per_second (entry_of l r) = AC.rate_per_second r /\
    AC.rate_per_minute (entry_of l r) = AC.rate_per_minute r.
Proof.
  induction l as [| ch l IH]; intros r; simpl.
  - repeat split; lia.
  - destruct (IH (accumulate ch r)) as (Ht & Hc & Hd & Hi & Hm & Hs & Hn).
    unfold entry_of in *. rewrite Ht, Hc, Hd, Hi, Hm, Hs, Hn.
    unfold backlog. simpl.
    repeat split; lia.
Qed.

Lemma visit_well_keyed (p : TS.t * CS.t) (d : dict AC.t) (t : Z) :
  well_keyed d -> well_keyed (fst (visit (d, t) p)).
Proof.
  intros [Hnd Hk]. unfold visit, visit_channel. fold (key_of p). simpl.
  unfold dict_mem.
  destruct (dict_get (key_of p) d) as [r |] eqn:G; split.
  - rewrite dict_keys_modify. exact Hnd.
  - apply In_dict_modify with (P := fun k r =>
      k = channel_key (AC.topic r) (AC.channel r)); [exact Hk |].
    intros k0 v0 H. exact H.
  - rewrite dict_keys_modify, dict_keys_set_new by exact G.
    apply Permutation_NoDup with (l := key_of p :: dict_keys d).
    + apply Permutation_cons_append.
    + constructor; [apply dict_get_None_keys; exact G | exact Hnd].
  - apply In_dict_modify with (P := fun k r =>
      k = channel_key (AC.topic r) (AC.channel r)).
    + intros k0 v0 Hin. apply In_dict_set in Hin.
      destruct Hin as [Heq | Hin]; [| apply Hk; exact Hin].
      injection Heq as -> ->. reflexivity.
    + intros k0 v0 H. exact H.
Qed.

Lemma fold_visit_well_keyed (cs : list (TS.t * CS.t)) :
  forall st : agg_state, well_keyed (fst st) ->
    well_keyed (fst (fold_left visit cs st)).
Proof.
  induction cs as [| p cs IH]; intros [d t] H; simpl.
  - exact H.
  - apply IH. apply visit_well_keyed. exact H.
Qed.

Lemma aggregate_well_keyed (nsqd_stats : list BS.t) :
  well_keyed (fst (aggregate nsqd_stats)).
Proof.
  rewrite aggregate_contributions. apply fold_visit_well_keyed.
  split; [constructor | intros k r []].
Qed.

(** What [channel_data] holds for a key once the loops are done. *)
Lemma aggregate_get (nsqd_stats : list BS.t) (k : string) :
  dict_get k (fst (aggregate nsqd_stats)) =
  match filter (fun p => String.eqb k (key_of p)) (contributions nsqd_stats) with
  | [] => None
  | p :: _ =>
      Some (entry_of (hosting k nsqd_stats) (new_entry (fst p) (snd p)))
  end.
Proof.
  rewrite aggregate_contributions, fold_visit_get. reflexivity.
Qed.

Lemma aggregate_total (nsqd_stats : list BS.t) :
  snd (aggregate nsqd_stats) =
  Zsum (map (fun p => CS.in_flight_count (snd p)) (contributions nsqd_stats)).
Proof.
  rewrite aggregate_contributions, fold_visit_total. lia.
Qed.

(** ** Rates *)

Lemma rate_entry_rated (previous : dict AC.t) (interval_seconds : Z)
    (kr : string * AC.t) :
  interval_seconds <> 0 ->
  rate_entry previous interval_seconds kr = Ok (rated previous interval_seconds kr).
Proof.
  intros Hi. destruct kr as [k r]. unfold rate_entry, py_truediv.
  destruct (Z.eqb_spec interval_seconds 0) as [E | _]; [contradiction |].
  reflexivity.
Qed.

Lemma annotate_rates_rated (channel_data previous : dict AC.t)
    (previous_stats : option (dict AC.t)) (interval_seconds : Z) :
  interval_seconds <> 0 ->
  truthy previous_stats = Some previous ->
  annotate_rates channel_data previous_stats interval_seconds =
  Ok (map (rated previous interval_seconds) channel_data).
Proof.
  intros Hi Ht. unfold annotate_rates. rewrite Ht.
  apply mapM_total. intros kr _. apply rate_entry_rated. exact Hi.
Qed.

Lemma annotate_rates_zero (channel_data : dict AC.t)
    (previous_stats : option (dict AC.t)) (interval_seconds : Z) :
  truthy previous_stats = None ->
  annotate_rates channel_data previous_stats interval_seconds =
  Ok (map zero_entry channel_data).
Proof.
  intros Ht. unfold annotate_rates. rewrite Ht. reflexivity.
Qed.

(** With a usable interval the second phase always goes through, and it
    rewrites the values in place: same keys, same order. *)
Lemma annotate_rates_shape (channel_data : dict AC.t)
    (previous_stats : option (dict AC.t)) (interval_seconds : Z) :
  interval_seconds <> 0 ->
  exists h : string * AC.t -> string * AC.t,
    annotate_rates channel_data previous_stats interval_seconds =
      Ok (map h channel_data) /\
    forall kr, fst (h kr) = fst kr /\ same_counts (snd (h kr)) (snd kr).
Proof.
  intros Hi. destruct (truthy previous_stats) as [previous |] eqn:Ht.
  - exists (rated previous interval_seconds). split.
    + apply annotate_rates_rated; assumption.
    + intros [k r]. repeat split.
  - exists zero_entry. split.
    + apply annotate_rates_zero. exact Ht.
    + intros [k r]. repeat split.
Qed.

Lemma dict_get_map {V} (h : string * V -> string * V) (d : dict V) (k : string) :
  (forall kr, fst (h kr) = fst kr) ->
  dict_get k (map h d) = option_map (fun v => snd (h (k, v))) (dict_get k d).
Proof.
  intros Hh. induction d as [| [k0 v0] d IH]; simpl.
  - reflexivity.
  - specialize (Hh (k0, v0)). destruct (h (k0, v0)) as [k1 v1] eqn:E.
    simpl in Hh. subst k1.
    destruct (String.eqb k k0) eqn:Ek.
    + apply String.eqb_eq in Ek. subst k0. simpl. rewrite E. reflexivity.
    + exact IH.
Qed.

(** ** Ranking *)

Lemma insert_desc_perm (x : AC.t) (l : list AC.t) :
  Permutation (x :: l) (insert_desc x l).
Proof.
  induction l as [| y l IH]; simpl.
  - apply Permutation_refl.
  - destruct (AC.depth y <=? AC.depth x).
    + apply Permutation_refl.
    + eapply perm_trans; [apply perm_swap | apply perm_skip; exact IH].
Qed.

Lemma sorted_by_depth_desc_perm (l : list AC.t) :
  Permutation l (sorted_by_depth_desc l).
Proof.
  induction l as [| x l IH]; simpl.
  - apply perm_nil.
  - eapply perm_trans; [apply perm_skip; exact IH | apply insert_desc_perm].
Qed.

Lemma insert_desc_sorted (x : AC.t) (l : list AC.t) :
  StronglySorted depth_ge l -> StronglySorted depth_ge (insert_desc x l).
Proof.
  induction l as [| y l IH]; simpl; intros Hs.
  - constructor; constructor.
  - inversion Hs as [| ? ? Hs' Hall]; subst.
    destruct (Z.leb_spec (AC.depth y) (AC.depth x)) as [Hle | Hlt].
    + constructor; [exact Hs |].
      constructor; [exact Hle |].
      eapply Forall_impl; [| exact Hall].
      intros z Hz. unfold depth_ge in *. lia.
    + constructor; [apply IH; exact Hs' |].
      eapply Permutation_Forall; [apply insert_desc_perm |].
      constructor; [unfold depth_ge; lia | exact Hall].
Qed.

Lemma sorted_by_depth_desc_sorted (l : list AC.t) :
  StronglySorted depth_ge (sorted_by_depth_desc l).
Proof.
  induction l as [| x l IH]; simpl.
  - constructor.
  - apply insert_desc_sorted. exact IH.
Qed.

Lemma insert_desc_stable (n : Z) (x : AC.t) (l : list AC.t) :
  filter (has_depth n) (insert_desc x l) = filter (has_depth n) (x :: l).
Proof.
  induction l as [| y l IH]; simpl.
  - reflexivity.
  - destruct (Z.leb_spec (AC.depth y) (AC.depth x)) as [Hle | Hlt].
    + reflexivity.
    + simpl. rewrite IH. simpl. unfold has_depth.
      destruct (Z.eqb_spec (AC.depth y) n) as [Ey | Ey]; [| reflexivity].
      destruct (Z.eqb_spec (AC.depth x) n) as [Ex | Ex]; [lia | reflexivity].
Qed.

Lemma sorted_by_depth_desc_stable (n : Z) (l : list AC.t) :
  filter (has_depth n) (sorted_by_depth_desc l) = filter (has_depth n) l.
Proof.
  induction l as [| x l IH]; simpl.
  - reflexivity.
  - rewrite insert_desc_stable. simpl. rewrite IH. reflexivity.
Qed.

(** ** What the whole of [process_stats] returns *)

Lemma process_stats_shape (nsqd_stats : list BS.t)
    (previous_stats : option (dict AC.t)) (interval_seconds : Z) :
  interval_seconds <> 0 ->
  exists h : string * AC.t -> string * AC.t,
    annotate_rates (fst (aggregate nsqd_stats)) previous_stats interval_seconds
      = Ok (map h (fst (aggregate nsqd_stats))) /\
    process_stats nsqd_stats previous_stats interval_seconds =
      Ok (sorted_by_depth_desc (dict_values (map h (fst (aggregate nsqd_stats)))),
          snd (aggregate nsqd_stats)) /\
    forall kr, fst (h kr) = fst kr /\ same_counts (snd (h kr)) (snd kr).
Proof.
  intros Hi.
  destruct (annotate_rates_shape (fst (aggregate nsqd_stats)) previous_stats
              interval_seconds Hi) as [h [Hann Hh]].
  exists h. split; [exact Hann | split; [| exact Hh]].
  unfold process_stats. destruct (aggregate nsqd_stats) as [cd total].
  simpl in *. rewrite Hann. reflexivity.
Qed.

Lemma Zsum_nonneg (l : list Z) : Forall (fun z => 0 <= z) l -> 0 <= Zsum l.
Proof.
  induction 1 as [| z l Hz _ IH]; simpl; lia.
Qed.

Lemma Zsum_map_nonneg {A} (f : A -> Z) (l : list A) :
  (forall a, In a l -> 0 <= f a) -> 0 <= Zsum (map f l).
Proof.
  intros H. apply Zsum_nonneg. apply Forall_forall.
  intros z Hz. apply in_map_iff in Hz. destruct Hz as [a [<- Ha]].
  apply H. exact Ha.
Qed.

Lemma hosting_In (k : string) (nsqd_stats : list BS.t) (ch : CS.t) :
  In ch (hosting k nsqd_stats) ->
  exists p, In p (contributions nsqd_stats) /\ snd p = ch /\ key_of p = k.
Proof.
  unfold hosting. intros H. apply in_map_iff in H.
  destruct H as [p [Hp Hin]]. apply filter_In in Hin.
  destruct Hin as [Hin Hk]. apply String.eqb_eq in Hk.
  exists p. repeat split; [exact Hin | exact Hp | symmetry; exact Hk].
Qed.

(** Every field of the entry of a key, in terms of the channel objects
    that contribute to it: the first of them, [p], names the entry, and
    its message count is counted once at creation and once more by the
    [+=] that follows. *)
Lemma aggregate_entry (nsqd_stats : list BS.t) (k : string) (r : AC.t) :
  dict_get k (fst (aggregate nsqd_stats)) = Some r ->
  exists p rest,
    filter (fun p => String.eqb k (key_of p)) (contributions nsqd_stats)
      = p :: rest /\
    AC.topic r = TS.topic_name (fst p) /\
    AC.channel r = CS.channel_name (snd p) /\
    AC.depth r = Zsum (map backlog (hosting k nsqd_stats)) /\
    AC.in_flight_count r = Zsum (map CS.in_flight_count (hosting k nsqd_stats)) /\
    AC.message_count r =
      get_message_count (snd p)
      + Zsum (map get_message_count (hosting k nsqd_stats)) /\
    AC.rate_per_second r = None /\ AC.rate_per_minute r = None.
Proof.
  rewrite aggregate_get.
  destruct (filter _ (contributions nsqd_stats)) as [| p rest] eqn:F;
    [discriminate |].
  intros H. injection H as <-. exists p, rest.
  split; [reflexivity |].
  destruct (entry_of_fields (hosting k nsqd_stats) (new_entry (fst p) (snd p)))
    as (Ht & Hc & Hd & Hi & Hm & Hs & Hn).
  rewrite Ht, Hc, Hd, Hi, Hm, Hs, Hn. simpl.
  repeat split; lia.
Qed.

(** ** Message counts (C1, C2) *)

(** A channel that a single channel object contributes to gets twice that
    object's counter: once from line 88, once from line 94. *)
Lemma message_count_single_contribution (nsqd_stats : list BS.t) (k : string)
    (r : AC.t) (ch : CS.t) :
  dict_get k (fst (aggregate nsqd_stats)) = Some r ->
  hosting k nsqd_stats = [ch] ->
  AC.message_count r = 2 * get_message_count ch.
Proof.
  intros Hg Hh. destruct (aggregate_entry _ _ _ Hg) as (p & rest & F & _ & _ & _ & _ & Hm & _).
  rewrite Hm, Hh. unfold hosting in Hh. rewrite F in Hh. simpl in Hh.
  injection Hh as Hp _. rewrite Hp.
  change (Zsum (map get_message_count [ch])) with (get_message_count ch + 0).
  lia.
Qed.

(** C1: the specification has the message count of a channel start at
    zero and equal the sum of the brokers' counters, a channel on one
    broker getting that broker's counter.  The code does otherwise: one
    broker reporting 5 messages for orders/billing yields a message
    count of 10, because the entry is created with the counter already
    in it (line 88) and the counter is then added again (line 94). *)
Theorem C1_single_broker_counter_is_doubled :
  process_stats [broker_doc "orders" "billing" 0 0 0 5] None 2 =
  Ok ([rated_zero "orders" "billing" 0 0 10], 0).
Proof. reflexivity. Qed.

(** C2: the specification has the aggregate unchanged under any
    permutation of the documents.  The code does otherwise for the
    message count: with two brokers reporting 1 and 2 messages for the
    same channel, one order gives 4 and the other gives 5, since the
    counter of whichever broker comes first is counted twice. *)
Theorem C2_message_count_depends_on_broker_order :
  let a := broker_doc "orders" "billing" 0 0 0 1 in
  let b := broker_doc "orders" "billing" 0 0 0 2 in
  Permutation [a; b] [b; a] /\
  process_stats [a; b] None 2 = Ok ([rated_zero "orders" "billing" 0 0 4], 0) /\
  process_stats [b; a] None 2 = Ok ([rated_zero "orders" "billing" 0 0 5], 0).
Proof.
  cbv zeta. split; [apply perm_swap |]. split; reflexivity.
Qed.

(** ** Order independence of the sums *)

Lemma Zsum_perm (l l' : list Z) : Permutation l l' -> Zsum l = Zsum l'.
Proof.
  induction 1; simpl; lia.
Qed.

Lemma filter_perm {A} (f : A -> bool) (l l' : list A) :
  Permutation l l' -> Permutation (filter f l) (filter f l').
Proof.
  induction 1 as [| x l l' _ IH | x y l | l l' l'' _ IH1 _ IH2]; simpl.
  - apply perm_nil.
  - destruct (f x); [apply perm_skip |]; exact IH.
  - destruct (f x), (f y); try apply Permutation_refl. apply perm_swap.
  - eapply perm_trans; eassumption.
Qed.

Lemma contributions_perm (s s' : list BS.t) :
  Permutation s s' -> Permutation (contributions s) (contributions s').
Proof.
  intros H. unfold contributions. apply Permutation_flat_map. exact H.
Qed.

Lemma hosting_perm (k : string) (s s' : list BS.t) :
  Permutation s s' -> Permutation (hosting k s) (hosting k s').
Proof.
  intros H. unfold hosting. apply Permutation_map, filter_perm,
    contributions_perm. exact H.
Qed.

(** Whatever the order of the documents, the same keys are there, with
    the same depth and the same in-flight count, and the total of the
    in-flight counts is the same. *)
Lemma aggregate_sums_order_independent (s s' : list BS.t) :
  Permutation s s' ->
  snd (aggregate s) = snd (aggregate s') /\
  forall k,
    match dict_get k (fst (aggregate s)), dict_get k (fst (aggregate s')) with
    | Some r, Some r' =>
        AC.depth r = AC.depth r' /\
        AC.in_flight_count r = AC.in_flight_count r'
    | None, None => True
    | _, _ => False
    end.
Proof.
  intros H. split.
  - rewrite !aggregate_total. apply Zsum_perm, Permutation_map,
      contributions_perm. exact H.
  - intros k.
    destruct (dict_get k (fst (aggregate s))) as [r |] eqn:G;
      destruct (dict_get k (fst (aggregate s'))) as [r' |] eqn:G'.
    + destruct (aggregate_entry _ _ _ G) as (_ & _ & _ & _ & _ & Hd & Hi & _).
      destruct (aggregate_entry _ _ _ G') as (_ & _ & _ & _ & _ & Hd' & Hi' & _).
      rewrite Hd, Hd', Hi, Hi'.
      split; apply Zsum_perm, Permutation_map, hosting_perm; exact H.
    + destruct (aggregate_entry _ _ _ G) as (p & rest & F & _).
      rewrite aggregate_get in G'.
      assert (P := filter_perm (fun p => String.eqb k (key_of p)) _ _
                     (contributions_perm _ _ H)).
      rewrite F in P.
      destruct (filter _ (contributions s')); [| discriminate G'].
      apply Permutation_sym, Permutation_nil in P. discriminate P.
    + destruct (aggregate_entry _ _ _ G') as (p & rest & F & _).
      rewrite aggregate_get in G.
      assert (P := filter_perm (fun p => String.eqb k (key_of p)) _ _
                     (contributions_perm _ _ H)).
      rewrite F in P.
      destruct (filter _ (contributions s)); [| discriminate G].
      apply Permutation_nil in P. discriminate P.
    + exact I.
Qed.

(** ** Depth and signs of an entry *)

Lemma aggregate_entry_nonneg (nsqd_stats : list BS.t) (k : string) (r : AC.t) :
  nonneg_stats nsqd_stats ->
  dict_get k (fst (aggregate nsqd_stats)) = Some r ->
  AC.depth r = Zsum (map backlog (hosting k nsqd_stats)) /\
  0 <= AC.depth r /\ 0 <= AC.in_flight_count r /\ 0 <= AC.message_count r.
Proof.
  intros Hnn G.
  destruct (aggregate_entry _ _ _ G) as (p & rest & F & _ & _ & Hd & Hi & Hm & _).
  assert (Hch : forall ch, In ch (hosting k nsqd_stats) -> nonneg_channel ch).
  { intros ch Hin. apply hosting_In in Hin. destruct Hin as (q & Hq & <- & _).
    apply Hnn. exact Hq. }
  assert (Hp : nonneg_channel (snd p)).
  { apply Hnn. assert (Hin : In p (p :: rest)) by (left; reflexivity).
    rewrite <- F in Hin. apply filter_In in Hin. apply Hin. }
  split; [exact Hd |]. rewrite Hd, Hi, Hm.
  split; [| split].
  - apply Zsum_map_nonneg. intros ch Hin. unfold backlog.
    destruct (Hch ch Hin) as (? & ? & _). lia.
  - apply Zsum_map_nonneg. intros ch Hin. apply (Hch ch Hin).
  - assert (0 <= Zsum (map get_message_count (hosting k nsqd_stats))).
    { apply Zsum_map_nonneg. intros ch Hin. apply (Hch ch Hin). }
    destruct Hp as (_ & _ & _ & Hp). lia.
Qed.

(** ** The records returned, one by one (C6) *)

Lemma rate_entry_Ok (previous : dict AC.t) (interval_seconds : Z)
    (kr out : string * AC.t) :
  rate_entry previous interval_seconds kr = Ok out ->
  out = rated previous interval_seconds kr.
Proof.
  destruct kr as [k r]. unfold rate_entry, py_truediv.
  destruct (interval_seconds =? 0); [discriminate |].
  intros H. injection H as <-. reflexivity.
Qed.

Lemma mapM_Ok_map {A B} (f : A -> result B) (g : A -> B) (l : list A)
    (out : list B) :
  (forall a b, f a = Ok b -> b = g a) ->
  mapM f l = Ok out -> out = map g l.
Proof.
  intros Hfg. revert out. induction l as [| a l IH]; simpl; intros out H.
  - injection H as <-. reflexivity.
  - apply bind_Ok in H. destruct H as [b [Hb H]].
    apply bind_Ok in H. destruct H as [bs [Hbs H]].
    injection H as <-. rewrite (Hfg a b Hb), (IH bs Hbs). reflexivity.
Qed.

Lemma annotate_rates_Ok (channel_data out : dict AC.t)
    (previous_stats : option (dict AC.t)) (interval_seconds : Z) :
  annotate_rates channel_data previous_stats interval_seconds = Ok out ->
  out = map (annotate_entry previous_stats interval_seconds) channel_data.
Proof.
  unfold annotate_rates, annotate_entry.
  destruct (truthy previous_stats) as [previous |]; intros H.
  - apply mapM_Ok_map with (f := rate_entry previous interval_seconds);
      [apply rate_entry_Ok | exact H].
  - injection H as <-. reflexivity.
Qed.

Lemma annotate_entry_same (previous_stats : option (dict AC.t))
    (interval_seconds : Z) (kr : string * AC.t) :
  fst (annotate_entry previous_stats interval_seconds kr) = fst kr /\
  same_counts (snd (annotate_entry previous_stats interval_seconds kr)) (snd kr).
Proof.
  unfold annotate_entry. destruct (truthy previous_stats); destruct kr;
    repeat split.
Qed.

Lemma dict_get_keys {V} (k : string) (d : dict V) :
  In k (dict_keys d) <-> dict_get k d <> None.
Proof.
  split.
  - intros Hin Hnone. exact (dict_get_None_keys k d Hnone Hin).
  - intros H. destruct (dict_get k d) as [v |] eqn:G; [| congruence].
    apply dict_get_In in G. unfold dict_keys.
    change k with (fst (k, v)). apply in_map. exact G.
Qed.

(** The result of [process_stats], when there is one, laid out: the
    total, and the records as the sorted values of the annotated
    mapping, each under the key the loop of [main] will file it under. *)
Lemma process_stats_rows (nsqd_stats : list BS.t)
    (previous_stats : option (dict AC.t)) (interval_seconds : Z)
    (sorted_channels : list AC.t) (total_in_flight : Z) :
  process_stats nsqd_stats previous_stats interval_seconds
    = Ok (sorted_channels, total_in_flight) ->
  total_in_flight = snd (aggregate nsqd_stats) /\
  Permutation
    (map (fun kr => snd (annotate_entry previous_stats interval_seconds kr))
         (fst (aggregate nsqd_stats)))
    sorted_channels /\
  map row_key
    (map (fun kr => snd (annotate_entry previous_stats interval_seconds kr))
         (fst (aggregate nsqd_stats)))
    = dict_keys (fst (aggregate nsqd_stats)).
Proof.
  unfold process_stats. intros H.
  destruct (aggregate_well_keyed nsqd_stats) as [_ Hkey].
  destruct (aggregate nsqd_stats) as [cd total]. simpl in *.
  apply bind_Ok in H. destruct H as [cd' [Hann H]]. injection H as <- <-.
  apply annotate_rates_Ok in Hann. subst cd'.
  split; [reflexivity |]. split.
  - unfold dict_values. rewrite map_map. apply sorted_by_depth_desc_perm.
  - unfold dict_keys. rewrite map_map. apply map_ext_in. intros [k r] Hin.
    destruct (annotate_entry_same previous_stats interval_seconds (k, r))
      as (_ & Ht & Hc & _).
    unfold row_key. rewrite Ht, Hc. simpl. symmetry. apply Hkey. exact Hin.
Qed.

Lemma in_rows (nsqd_stats : list BS.t)
    (previous_stats : option (dict AC.t)) (interval_seconds : Z)
    (sorted_channels : list AC.t) (total_in_flight : Z) (r' : AC.t) :
  process_stats nsqd_stats previous_stats interval_seconds
    = Ok (sorted_channels, total_in_flight) ->
  (In r' sorted_channels <->
   exists r,
     dict_get (row_key r') (fst (aggregate nsqd_stats)) = Some r /\
     r' = snd (annotate_entry previous_stats interval_seconds (row_key r', r))).
Proof.
  intros H. destruct (process_stats_rows _ _ _ _ _ H) as (_ & Hperm & _).
  destruct (aggregate_well_keyed nsqd_stats) as [Hnd Hkey].
  split.
  - intros Hin. apply (Permutation_in _ (Permutation_sym Hperm)) in Hin.
    apply in_map_iff in Hin. destruct Hin as ([k r] & Hr & Hin).
    destruct (annotate_entry_same previous_stats interval_seconds (k, r))
      as (_ & Ht & Hc & _).
    assert (Hk : row_key r' = k).
    { unfold row_key. rewrite <- Hr, Ht, Hc. simpl. symmetry.
      apply Hkey. exact Hin. }
    exists r. rewrite Hk. split; [apply In_dict_get; assumption | symmetry; exact Hr].
  - intros (r & Hg & Hr). apply (Permutation_in _ Hperm).
    apply in_map_iff. exists (row_key r', r).
    split; [symmetry; exact Hr | apply dict_get_In; exact Hg].
Qed.

Lemma row_keys_permuted (nsqd_stats : list BS.t)
    (previous_stats : option (dict AC.t)) (interval_seconds : Z)
    (sorted_channels : list AC.t) (total_in_flight : Z) :
  process_stats nsqd_stats previous_stats interval_seconds
    = Ok (sorted_channels, total_in_flight) ->
  Permutation (dict_keys (fst (aggregate nsqd_stats)))
              (map row_key sorted_channels) /\
  NoDup (map row_key sorted_channels).
Proof.
  intros H. destruct (process_stats_rows _ _ _ _ _ H) as (_ & Hperm & Hkeys).
  destruct (aggregate_well_keyed nsqd_stats) as [Hnd _].
  assert (Hp : Permutation (dict_keys (fst (aggregate nsqd_stats)))
                           (map row_key sorted_channels)).
  { rewrite <- Hkeys. apply Permutation_map. exact Hperm. }
  split; [exact Hp | exact (Permutation_NoDup Hp Hnd)].
Qed.

(** Every channel object of the documents has an entry under its key. *)
Lemma aggregate_has_entry (nsqd_stats : list BS.t) (p : TS.t * CS.t) :
  In p (contributions nsqd_stats) ->
  exists r, dict_get (key_of p) (fst (aggregate nsqd_stats)) = Some r.
Proof.
  intros Hin. rewrite aggregate_get.
  destruct (filter (fun q => String.eqb (key_of p) (key_of q))
                   (contributions nsqd_stats)) as [| q rest] eqn:F.
  - exfalso.
    assert (H : In p (filter (fun q => String.eqb (key_of p) (key_of q))
                             (contributions nsqd_stats))).
    { apply filter_In. split; [exact Hin | apply String.eqb_refl]. }
    rewrite F in H. destruct H.
  - eexists. reflexivity.
Qed.

(** C6: when the depth, backend depth, in-flight count and message count
    of every channel object are at least zero, every channel object of
    the documents has an entry in the aggregated mapping under its key,
    and every entry has as depth the sum of depth plus backend depth
    over the channel objects contributing to its key, its depth,
    in-flight count and message count being at least zero.  On a first
    cycle [process_stats] always returns; and whenever it returns,
    whatever the previous mapping and the interval, it returns a record
    for the key of every channel object, and every record it returns
    has that sum as depth and counters that are at least zero. *)
Theorem C6_depth_is_backlog_sum_and_counts_nonneg (nsqd_stats : list BS.t) :
  nonneg_stats nsqd_stats ->
  (forall p, In p (contributions nsqd_stats) ->
     exists r, dict_get (key_of p) (fst (aggregate nsqd_stats)) = Some r) /\
  (forall k r, dict_get k (fst (aggregate nsqd_stats)) = Some r ->
     AC.depth r = Zsum (map backlog (hosting k nsqd_stats)) /\
     0 <= AC.depth r /\ 0 <= AC.in_flight_count r /\ 0 <= AC.message_count r) /\
  (forall interval_seconds,
     exists sorted_channels total_in_flight,
       process_stats nsqd_stats None interval_seconds
         = Ok (sorted_channels, total_in_flight)) /\
  forall previous_stats interval_seconds sorted_channels total_in_flight,
    process_stats nsqd_stats previous_stats interval_seconds
      = Ok (sorted_channels, total_in_flight) ->
    (forall p, In p (contributions nsqd_stats) ->
       exists r, In r sorted_channels /\ row_key r = key_of p /\
                 AC.depth r = Zsum (map backlog (hosting (key_of p) nsqd_stats))) /\
    forall r, In r sorted_channels ->
      AC.depth r =
        Zsum (map backlog
                (hosting (channel_key (AC.topic r) (AC.channel r)) nsqd_stats)) /\
      0 <= AC.depth r /\ 0 <= AC.in_flight_count r /\ 0 <= AC.message_count r.
Proof.
  intros Hnn. split; [apply aggregate_has_entry |]. split; [| split].
  - intros k r G. apply aggregate_entry_nonneg; assumption.
  - intros interval_seconds. unfold process_stats.
    destruct (aggregate nsqd_stats) as [cd total].
    rewrite annotate_rates_zero by reflexivity. eexists _, _. reflexivity.
  - intros previous_stats interval_seconds sorted_channels total_in_flight Hps.
    destruct (aggregate_well_keyed nsqd_stats) as [Hnd Hkey].
    split.
    + intros p Hp. destruct (aggregate_has_entry nsqd_stats p Hp) as [r0 G].
      destruct (annotate_entry_same previous_stats interval_seconds
                  (key_of p, r0)) as (_ & Ht & Hc & Hd & _).
      cbn [snd] in Ht, Hc, Hd.
      assert (Hk : row_key (snd (annotate_entry previous_stats interval_seconds
                                   (key_of p, r0))) = key_of p).
      { unfold row_key. rewrite Ht, Hc. symmetry.
        apply Hkey. apply dict_get_In. exact G. }
      exists (snd (annotate_entry previous_stats interval_seconds (key_of p, r0))).
      split; [| split; [exact Hk |]].
      * apply (in_rows _ _ _ _ _ _ Hps). exists r0. rewrite Hk.
        split; [exact G | reflexivity].
      * rewrite Hd. apply (aggregate_entry_nonneg _ _ _ Hnn G).
    + intros r Hin. apply (in_rows _ _ _ _ _ _ Hps) in Hin.
      destruct Hin as (r0 & G & Hr).
      destruct (annotate_entry_same previous_stats interval_seconds
                  (row_key r, r0)) as (_ & Ht & Hc & Hd & Hf & Hm).
      rewrite <- Hr in Ht, Hc, Hd, Hf, Hm. cbn [snd] in Ht, Hc, Hd, Hf, Hm.
      rewrite Hd, Hf, Hm. change (channel_key (AC.topic r) (AC.channel r))
        with (row_key r).
      apply aggregate_entry_nonneg; assumption.
Qed.

(** Two brokers report orders/billing, one with depth 3 and backend
    depth 4, the other with depth 10 and none: the record returned has
    depth 17. *)
Lemma C6_witness :
  exists sorted_channels total_in_flight r,
    process_stats [broker_doc "orders" "billing" 3 4 1 5;
                   broker_doc "orders" "billing" 10 0 2 7] None 2
      = Ok (sorted_channels, total_in_flight) /\
    In r sorted_channels /\
    row_key r = "orders/billing" /\
    AC.depth r = 17 /\
    0 <= AC.in_flight_count r /\ 0 <= AC.message_count r.
Proof.
  destruct (C6_depth_is_backlog_sum_and_counts_nonneg
              [broker_doc "orders" "billing" 3 4 1 5;
               broker_doc "orders" "billing" 10 0 2 7])
    as (_ & _ & Hret & Hrec).
  - intros p Hin. simpl in Hin.
    destruct Hin as [<- | [<- | []]]; unfold nonneg_channel, get_message_count;
      simpl; lia.
  - destruct (Hret 2) as (chans & total & Hps).
    destruct (Hrec None 2 chans total Hps) as [Hex Hall].
    destruct (Hex (TS.mk "orders"
                     [CS.mk "billing" 3 4 1 (Some 5)],
                   CS.mk "billing" 3 4 1 (Some 5))
                  (or_introl eq_refl)) as (r & Hin & Hkey & Hd).
    exists chans, total, r.
    split; [exact Hps |]. split; [exact Hin |]. split; [exact Hkey |].
    split; [exact Hd |]. apply (Hall r Hin).
Defined.

(** ** Rate annotation (C3) *)

Lemma rate_of_same (count interval_seconds : Z) :
  rate_of count count interval_seconds = 0%Q.
Proof.
  unfold rate_of. rewrite Z.sub_diag. change (Z.max 0 0) with 0.
  change 0%Q with (Qred 0). apply Qred_complete.
  unfold Qdiv. apply Qmult_0_l.
Qed.

Lemma rate_of_value (current previous interval_seconds : Z) :
  (rate_of current previous interval_seconds ==
   inject_Z (Z.max 0 (current - previous)) / inject_Z interval_seconds)%Q.
Proof.
  unfold rate_of. apply Qred_correct.
Qed.

Lemma rate_of_nonneg (current previous interval_seconds : Z) :
  0 < interval_seconds ->
  (0 <= rate_of current previous interval_seconds)%Q.
Proof.
  intros Hpos. rewrite rate_of_value.
  apply Qle_shift_div_l.
  - change 0%Q with (inject_Z 0). rewrite <- Zlt_Qlt. exact Hpos.
  - rewrite Qmult_0_l. change 0%Q with (inject_Z 0). rewrite <- Zle_Qle. lia.
Qed.

(** C3: with an elapsed interval above zero the annotation goes through,
    keeps every key and every count, and gives each channel both rates:
    (i) zero and zero when there is no previous mapping; (ii) zero and
    zero when the key is not in the previous mapping, the previous count
    then being the current one; (iii) otherwise the per-second rate is
    max(0, current - previous) / elapsed, never below zero, and the
    per-minute rate is sixty times that.  With previous 100, current 130
    and 2 seconds the rates are 15 and 900; with previous 500 and current
    10 they are 0. *)
Theorem C3_rate_annotation (channel_data : dict AC.t)
    (previous_stats : option (dict AC.t)) (elapsed : Z)
    (k : string) (r : AC.t) :
  0 < elapsed ->
  dict_get k channel_data = Some r ->
  (exists out r' per_second per_minute,
    annotate_rates channel_data previous_stats elapsed = Ok out /\
    dict_keys out = dict_keys channel_data /\
    dict_get k out = Some r' /\
    same_counts r' r /\
    AC.rate_per_second r' = Some per_second /\
    AC.rate_per_minute r' = Some per_minute /\
    (previous_stats = None -> per_second = 0%Q /\ per_minute = 0%Q) /\
    (forall previous,
       previous_stats = Some previous -> dict_get k previous = None ->
       previous_count_of previous k (AC.message_count r) = AC.message_count r /\
       per_second = 0%Q /\ per_minute = 0%Q) /\
    (forall previous p,
       previous_stats = Some previous -> dict_get k previous = Some p ->
       (per_second ==
          inject_Z (Z.max 0 (AC.message_count r - AC.message_count p))
          / inject_Z elapsed)%Q /\
       (per_minute == per_second * inject_Z 60)%Q /\
       (0 <= per_second)%Q)) /\
  annotate_rates [("orders/billing", counted 130)]
                 (Some [("orders/billing", counted 100)]) 2
    = Ok [("orders/billing", set_rates (counted 130) (15 # 1) (900 # 1))] /\
  annotate_rates [("orders/billing", counted 10)]
                 (Some [("orders/billing", counted 500)]) 2
    = Ok [("orders/billing", set_rates (counted 10) 0 0)].
Proof.
  intros Hpos Hget. split; [| split; reflexivity].
  assert (Hi : elapsed <> 0) by lia.
  destruct (truthy previous_stats) as [previous |] eqn:Ht.
  - (* a previous mapping that is there and not empty *)
    assert (Hprev : previous_stats = Some previous).
    { destruct previous_stats as [[| e l] |]; simpl in Ht;
        try discriminate Ht. exact Ht. }
    exists (map (rated previous elapsed) channel_data),
           (snd (rated previous elapsed (k, r))),
           (rate_of (AC.message_count r)
                    (previous_count_of previous k (AC.message_count r)) elapsed),
           (Qred (rate_of (AC.message_count r)
                    (previous_count_of previous k (AC.message_count r)) elapsed
                  * inject_Z 60)).
    split; [apply annotate_rates_rated; assumption |].
    split; [unfold dict_keys; rewrite map_map; apply map_ext; intros [? ?]; reflexivity |].
    split; [rewrite dict_get_map by (intros [? ?]; reflexivity);
            rewrite Hget; reflexivity |].
    split; [repeat split |].
    split; [reflexivity |]. split; [reflexivity |].
    split; [intros E; rewrite E in Hprev; discriminate Hprev |].
    split.
    + intros previous' E Hnone. rewrite Hprev in E. injection E as <-.
      unfold previous_count_of. rewrite Hnone.
      split; [reflexivity |]. rewrite rate_of_same. split; reflexivity.
    + intros previous' p E Hsome. rewrite Hprev in E. injection E as <-.
      unfold previous_count_of. rewrite Hsome.
      split; [apply rate_of_value |].
      split; [apply Qred_correct | apply rate_of_nonneg; exact Hpos].
  - (* no previous mapping, or an empty one *)
    exists (map zero_entry channel_data), (set_rates r 0 0), 0%Q, 0%Q.
    split; [apply annotate_rates_zero; exact Ht |].
    split; [unfold dict_keys; rewrite map_map; apply map_ext; intros [? ?]; reflexivity |].
    split; [rewrite dict_get_map by (intros [? ?]; reflexivity);
            rewrite Hget; reflexivity |].
    split; [repeat split |].
    split; [reflexivity |]. split; [reflexivity |].
    split; [intros _; split; reflexivity |].
    split.
    + intros previous E Hnone. unfold previous_count_of. rewrite Hnone.
      repeat split.
    + intros previous p E Hsome. subst previous_stats.
      destruct previous as [| e l]; [discriminate Hsome | discriminate Ht].
Qed.

Lemma C3_witness :
  exists out r' per_second per_minute,
    annotate_rates [("orders/billing", counted 130)]
                   (Some [("orders/billing", counted 100)]) 2 = Ok out /\
    dict_get "orders/billing" out = Some r' /\
    AC.rate_per_second r' = Some per_second /\
    AC.rate_per_minute r' = Some per_minute /\
    (per_second == 15 # 1)%Q /\ (per_minute == 900 # 1)%Q.
Proof.
  destruct (C3_rate_annotation
              [("orders/billing", counted 130)]
              (Some [("orders/billing", counted 100)]) 2
              "orders/billing" (counted 130) ltac:(lia) eq_refl)
    as [(out & r' & ps & pm & Ho & _ & Hg & _ & Hs & Hm & _ & _ & Hrate) _].
  exists out, r', ps, pm.
  destruct (Hrate _ (counted 100) eq_refl eq_refl) as (Hps & Hpm & _).
  repeat split; try assumption.
  - rewrite Hps. reflexivity.
  - rewrite Hpm, Hps. reflexivity.
Defined.

(** ** Ranking (C8) *)

Lemma dict_mem_keys {V} (k : string) (d : dict V) :
  dict_mem k d = existsb (String.eqb k) (dict_keys d).
Proof.
  unfold dict_mem. induction d as [| [k0 v0] d IH]; simpl.
  - reflexivity.
  - destruct (String.eqb k k0); [reflexivity | exact IH].
Qed.

Lemma visit_keys (p : TS.t * CS.t) (d : dict AC.t) (t : Z) :
  dict_keys (fst (visit (d, t) p)) =
  if existsb (String.eqb (key_of p)) (dict_keys d)
  then dict_keys d else dict_keys d ++ [key_of p].
Proof.
  unfold visit, visit_channel. fold (key_of p). simpl.
  rewrite dict_keys_modify, <- dict_mem_keys.
  destruct (dict_mem (key_of p) d) eqn:M; [reflexivity |].
  apply dict_keys_set_new. unfold dict_mem in M.
  destruct (dict_get (key_of p) d); [discriminate M | reflexivity].
Qed.

Lemma fold_visit_keys (cs : list (TS.t * CS.t)) :
  forall (d : dict AC.t) (t : Z),
    dict_keys (fst (fold_left visit cs (d, t))) =
    fold_left (fun seen k =>
      if existsb (String.eqb k) seen then seen else seen ++ [k])
      (map key_of cs) (dict_keys d).
Proof.
  induction cs as [| p cs IH]; intros d t.
  - reflexivity.
  - change (fold_left visit (p :: cs) (d, t))
      with (fold_left visit cs (visit (d, t) p)).
    rewrite (surjective_pairing (visit (d, t) p)), IH, visit_keys.
    reflexivity.
Qed.

(** [channel_data] lists its keys in the order the documents first
    mention them. *)
Lemma aggregate_keys (nsqd_stats : list BS.t) :
  dict_keys (fst (aggregate nsqd_stats)) =
  first_seen (map key_of (contributions nsqd_stats)).
Proof.
  rewrite aggregate_contributions. apply fold_visit_keys.
Qed.

(** C8: whenever the interval is not zero, [process_stats] returns a
    list that is in descending order of depth and holds exactly the
    annotated records; for every depth, the records of that depth come
    in the order the mapping lists them, which is the order in which the
    documents first mention their keys; and the result is a function of
    the input, so two runs on the same input agree. *)
Theorem C8_ranking_sorted_stable_deterministic (nsqd_stats : list BS.t)
    (previous_stats : option (dict AC.t)) (interval_seconds : Z) :
  interval_seconds <> 0 ->
  exists channel_data sorted_channels total_in_flight,
    annotate_rates (fst (aggregate nsqd_stats)) previous_stats interval_seconds
      = Ok channel_data /\
    process_stats nsqd_stats previous_stats interval_seconds
      = Ok (sorted_channels, total_in_flight) /\
    StronglySorted depth_ge sorted_channels /\
    Permutation (dict_values channel_data) sorted_channels /\
    (forall n, filter (has_depth n) sorted_channels
               = filter (has_depth n) (dict_values channel_data)) /\
    dict_keys channel_data = first_seen (map key_of (contributions nsqd_stats)) /\
    (forall first_run second_run,
       process_stats nsqd_stats previous_stats interval_seconds = first_run ->
       process_stats nsqd_stats previous_stats interval_seconds = second_run ->
       first_run = second_run /\ first_run = Ok (sorted_channels, total_in_flight)).
Proof.
  intros Hi.
  destruct (process_stats_shape nsqd_stats previous_stats interval_seconds Hi)
    as (h & Hann & Hps & Hh).
  eexists _, _, _. split; [exact Hann |]. split; [exact Hps |].
  split; [apply sorted_by_depth_desc_sorted |].
  split; [apply sorted_by_depth_desc_perm |].
  split; [intros n; apply sorted_by_depth_desc_stable |].
  split.
  - rewrite <- aggregate_keys. unfold dict_keys. rewrite map_map.
    apply map_ext. intros kr. apply Hh.
  - intros first_run second_run H1 H2. rewrite <- H1, <- H2.
    split; [reflexivity | exact Hps].
Qed.

Lemma C8_witness :
  exists sorted_channels total_in_flight,
    process_stats [broker_doc "orders" "billing" 3 4 1 5;
                   broker_doc "orders" "audit" 7 0 2 9;
                   broker_doc "events" "audit" 10 1 0 1] None 2
      = Ok (sorted_channels, total_in_flight) /\
    StronglySorted depth_ge sorted_channels /\
    map AC.channel (filter (has_depth 7) sorted_channels) = ["billing"; "audit"].
Proof.
  destruct (C8_ranking_sorted_stable_deterministic
              [broker_doc "orders" "billing" 3 4 1 5;
               broker_doc "orders" "audit" 7 0 2 9;
               broker_doc "events" "audit" 10 1 0 1] None 2 ltac:(lia))
    as (cd & chans & total & Hann & Hps & Hsorted & _ & Hstable & _).
  exists chans, total. split; [exact Hps |]. split; [exact Hsorted |].
  rewrite Hstable. injection Hann as <-. reflexivity.
Defined.

(** ** Endpoint resolution (C5) *)

Lemma query_lookupd_fold (http_get : string -> lookup_response)
    (lookupd_urls : list string) :
  forall (all_producers : list Producer.t) (errors : list string),
    fold_left (query_lookupd http_get) lookupd_urls (all_producers, errors) =
    (all_producers ++ flat_map (obtained_from http_get) lookupd_urls,
     errors ++ flat_map (failure_of http_get) lookupd_urls).
Proof.
  induction lookupd_urls as [| url urls IH]; intros ps es; simpl.
  - rewrite !app_nil_r. reflexivity.
  - unfold obtained_from at 1, failure_of at 1.
    destruct (http_get url) as [producers | e |]; rewrite IH;
      rewrite <- ?app_assoc; simpl; rewrite ?app_nil_r; reflexivity.
Qed.

Lemma key_eqb_eq (a b : string * Z) : key_eqb a b = true <-> a = b.
Proof.
  destruct a as [a1 a2], b as [b1 b2]. unfold key_eqb. simpl.
  rewrite andb_true_iff, String.eqb_eq, Z.eqb_eq.
  split; [intros [-> ->]; reflexivity | intros H; injection H; auto].
Qed.

Lemma existsb_key_eqb (key : string * Z) (seen : list (string * Z)) :
  existsb (key_eqb key) seen = true <-> In key seen.
Proof.
  rewrite existsb_exists. split.
  - intros [x [Hin Heq]]. apply key_eqb_eq in Heq. subst x. exact Hin.
  - intros Hin. exists key. split; [exact Hin | apply key_eqb_eq; reflexivity].
Qed.

(** The second loop keeps, for every address-and-port pair, the first
    producer that carries it, and nothing else. *)
Lemma dedup_fold (producers : list Producer.t) :
  forall (unique : list Producer.t) (seen : list (string * Z)),
    seen = map producer_key unique -> NoDup seen ->
    let out := fold_left dedup_step producers (unique, seen) in
    snd out = map producer_key (fst out) /\ NoDup (snd out) /\
    (forall q, In q (fst out) -> In q unique \/ In q producers) /\
    (forall q, In q unique \/ In q producers ->
       In (producer_key q) (map producer_key (fst out))).
Proof.
  induction producers as [| p ps IH]; intros unique seen Hseen Hnd; cbv zeta.
  - simpl. split; [exact Hseen |]. split; [exact Hnd |].
    split; [intros q Hq; left; exact Hq |].
    intros q [Hq | []]. apply in_map. exact Hq.
  - simpl fold_left. unfold dedup_step at 2.
    destruct (existsb (key_eqb (producer_key p)) seen) eqn:E.
    + apply existsb_key_eqb in E.
      destruct (IH unique seen Hseen Hnd) as (H1 & H2 & H3 & H4).
      split; [exact H1 |]. split; [exact H2 |]. split.
      * intros q Hq. destruct (H3 q Hq) as [H | H]; [left | right; right]; exact H.
      * intros q [Hq | [<- | Hq]].
        -- apply H4. left. exact Hq.
        -- rewrite Hseen in E. apply in_map_iff in E.
           destruct E as [p' [Hk Hp']]. rewrite <- Hk. apply H4. left. exact Hp'.
        -- apply H4. right. exact Hq.
    + assert (Hnot : ~ In (producer_key p) seen).
      { intros Hin. apply existsb_key_eqb in Hin. congruence. }
      destruct (IH (unique ++ [p]) (seen ++ [producer_key p])) as (H1 & H2 & H3 & H4).
      * rewrite map_app, Hseen. reflexivity.
      * apply Permutation_NoDup with (l := producer_key p :: seen);
          [apply Permutation_cons_append | constructor; assumption].
      * split; [exact H1 |]. split; [exact H2 |]. split.
        -- intros q Hq. destruct (H3 q Hq) as [H | H].
           ++ apply in_app_or in H. destruct H as [H | [<- | []]];
                [left; exact H | right; left; reflexivity].
           ++ right. right. exact H.
        -- intros q [Hq | [<- | Hq]]; apply H4.
           ++ left. apply in_or_app. left. exact Hq.
           ++ left. apply in_or_app. right. left. reflexivity.
           ++ right. exact Hq.
Qed.

Lemma get_nsqd_nodes_cases (http_get : string -> lookup_response)
    (lookupd_urls : list string) :
  let all_producers := flat_map (obtained_from http_get) lookupd_urls in
  let errors := flat_map (failure_of http_get) lookupd_urls in
  get_nsqd_nodes http_get lookupd_urls =
  match all_producers, errors with
  | [], _ :: _ => NodesError (String.concat "; " errors)
  | _, _ => Nodes (fst (fold_left dedup_step all_producers ([], [])))
  end.
Proof.
  unfold get_nsqd_nodes. rewrite query_lookupd_fold. reflexivity.
Qed.

Lemma failure_of_failed (http_get : string -> lookup_response)
    (lookupd_urls : list string) :
  flat_map (failure_of http_get) lookupd_urls <> [] <->
  exists url, In url lookupd_urls /\ address_failed http_get url.
Proof.
  induction lookupd_urls as [| url urls IH]; simpl.
  - split; [congruence | intros [u [[] _]]].
  - unfold failure_of at 1, address_failed.
    destruct (http_get url) as [producers | e |] eqn:E; simpl.
    + rewrite IH. split.
      * intros [u [Hin Hf]]. exists u. split; [right; exact Hin | exact Hf].
      * intros [u [[<- | Hin] Hf]].
        -- unfold address_failed in Hf. rewrite E in Hf. destruct Hf.
        -- exists u. split; assumption.
    + split; [intros _ | discriminate].
      exists url. split; [left; reflexivity |]. rewrite E. exact I.
    + split; [intros _ | discriminate].
      exists url. split; [left; reflexivity |]. rewrite E. exact I.
Qed.

Lemma all_failed_nothing_obtained (http_get : string -> lookup_response)
    (lookupd_urls : list string) :
  (forall url, In url lookupd_urls -> address_failed http_get url) ->
  flat_map (obtained_from http_get) lookupd_urls = [].
Proof.
  induction lookupd_urls as [| url urls IH]; simpl; intros H.
  - reflexivity.
  - rewrite IH by (intros u Hu; apply H; right; exact Hu).
    assert (Hf := H url (or_introl eq_refl)).
    unfold address_failed in Hf. unfold obtained_from.
    destruct (http_get url); [destruct Hf | reflexivity | reflexivity].
Qed.

(** C5, as the code has it: resolution fails exactly when no address
    contributed a producer and at least one address failed, and the
    diagnostic is then the per-address messages joined by "; " in the
    order of the addresses.  So it fails when every address of a list
    that is not empty failed; and when some address returned a producer
    list that is not empty, whatever the others did, it returns the
    producers obtained, one per address-and-port pair, and no error. *)
Theorem C5_resolution_fails_iff_nothing_obtained
    (http_get : string -> lookup_response) (lookupd_urls : list string) :
  let obtained := flat_map (obtained_from http_get) lookupd_urls in
  let errors := flat_map (failure_of http_get) lookupd_urls in
  ((exists error, get_nsqd_nodes http_get lookupd_urls = NodesError error) <->
   (obtained = [] /\
    exists url, In url lookupd_urls /\ address_failed http_get url)) /\
  (forall error,
     get_nsqd_nodes http_get lookupd_urls = NodesError error ->
     error = String.concat "; " errors) /\
  (lookupd_urls <> [] ->
   (forall url, In url lookupd_urls -> address_failed http_get url) ->
   get_nsqd_nodes http_get lookupd_urls
     = NodesError (String.concat "; " errors)) /\
  (forall url p ps,
     In url lookupd_urls -> http_get url = Producers (p :: ps) ->
     exists nodes,
       get_nsqd_nodes http_get lookupd_urls = Nodes nodes /\
       nodes <> [] /\
       (forall q, In q nodes -> In q obtained) /\
       (forall q, In q obtained -> In (producer_key q) (map producer_key nodes)) /\
       NoDup (map producer_key nodes)).
Proof.
  intros obtained errors.
  assert (Hcases := get_nsqd_nodes_cases http_get lookupd_urls).
  cbv zeta in Hcases. fold obtained errors in Hcases.
  assert (Herr : errors <> [] <->
                 exists url, In url lookupd_urls /\ address_failed http_get url)
    by apply failure_of_failed.
  split; [| split; [| split]].
  - rewrite Hcases. split.
    + intros [error H]. destruct obtained as [| p ps].
      * split; [reflexivity |]. apply Herr.
        destruct errors; [discriminate H | discriminate].
      * discriminate H.
    + intros [Ho Hf]. apply Herr in Hf. rewrite Ho.
      destruct errors as [| e es]; [congruence |].
      eexists. reflexivity.
  - intros error H. rewrite Hcases in H.
    destruct obtained as [| p ps]; [| discriminate H].
    destruct errors as [| e es]; [discriminate H |].
    injection H as <-. reflexivity.
  - intros Hne Hall. rewrite Hcases.
    unfold obtained. rewrite all_failed_nothing_obtained by exact Hall.
    assert (He : errors <> []).
    { apply Herr. destruct lookupd_urls as [| url urls]; [congruence |].
      exists url. split; [left; reflexivity | apply Hall; left; reflexivity]. }
    destruct errors as [| e es]; [congruence | reflexivity].
  - intros url p ps Hin Hget.
    assert (Hp : In p obtained).
    { unfold obtained. apply in_flat_map. exists url. split; [exact Hin |].
      unfold obtained_from. rewrite Hget. left. reflexivity. }
    destruct (dedup_fold obtained [] [] eq_refl (NoDup_nil _))
      as (H1 & H2 & H3 & H4).
    exists (fst (fold_left dedup_step obtained ([], []))).
    split; [| split; [| split; [| split]]].
    + rewrite Hcases. destruct obtained as [| p0 ps0]; [destruct Hp | reflexivity].
    + intros Hnil. specialize (H4 p (or_intror Hp)).
      rewrite Hnil in H4. destruct H4.
    + intros q Hq. destruct (H3 q Hq) as [[] | H]. exact H.
    + intros q Hq. apply H4. right. exact Hq.
    + rewrite <- H1. exact H2.
Qed.

(** Against C5 as stated: with one address answering with an empty
    producer list and the other unreachable, resolution fails although
    not every address failed. *)
Lemma C5_fails_although_an_address_answered :
  ~ ((exists error,
        get_nsqd_nodes empty_then_down ["http://a:4161"; "http://b:4161"]
          = NodesError error) <->
     (forall url, In url ["http://a:4161"; "http://b:4161"] ->
        address_failed empty_then_down url)).
Proof.
  intros [H _].
  assert (Hfail : exists error,
             get_nsqd_nodes empty_then_down ["http://a:4161"; "http://b:4161"]
               = NodesError error)
    by (eexists; reflexivity).
  exact (H Hfail "http://a:4161" (or_introl eq_refl)).
Qed.

Lemma C5_witness :
  exists nodes,
    get_nsqd_nodes one_then_down ["http://a:4161"; "http://b:4161"] = Nodes nodes /\
    nodes <> [] /\
    NoDup (map producer_key nodes).
Proof.
  destruct (C5_resolution_fails_iff_nothing_obtained
              one_then_down ["http://a:4161"; "http://b:4161"])
    as (_ & _ & _ & H).
  destruct (H "http://a:4161" (Producer.mk "10.0.0.1" 4151 "nsqd-1") []
              (or_introl eq_refl) eq_refl)
    as (nodes & Hn & Hne & _ & _ & Hnd).
  exists nodes. repeat split; assumption.
Defined.

(** ** The trend window (C7) *)

Lemma tl_skipn {A} (k : nat) (l : list A) : tl (skipn k l) = skipn (S k) l.
Proof.
  revert l. induction k as [| k IH]; intros l.
  - destruct l; reflexivity.
  - destruct l as [| a l]; [reflexivity |]. simpl skipn at 1. rewrite IH.
    reflexivity.
Qed.

Lemma update_history_length (h : list Z) (x : Z) :
  (List.length h <= SPARKLINE_LENGTH)%nat ->
  (List.length (update_history h x) <= SPARKLINE_LENGTH)%nat /\
  ((List.length h < SPARKLINE_LENGTH)%nat -> update_history h x = h ++ [x]) /\
  (List.length h = SPARKLINE_LENGTH -> update_history h x = tl h ++ [x]).
Proof.
  intros Hle. unfold update_history.
  assert (Hlen : List.length (h ++ [x]) = S (List.length h))
    by (rewrite length_app; simpl; lia).
  destruct (Nat.ltb_spec SPARKLINE_LENGTH (List.length (h ++ [x]))) as [Hlt | Hge].
  - assert (Heq : List.length h = SPARKLINE_LENGTH) by lia.
    destruct h as [| a h]; [unfold SPARKLINE_LENGTH in Heq; discriminate Heq |].
    simpl in *. rewrite length_app. simpl. repeat split; try lia.
  - repeat split; try lia.
Qed.

Lemma update_history_window (samples : list Z) (x : Z) :
  update_history (window samples) x = window (samples ++ [x]).
Proof.
  unfold update_history, window.
  rewrite !length_app, length_skipn. simpl List.length.
  destruct (Nat.ltb_spec SPARKLINE_LENGTH
              (List.length samples - (List.length samples - SPARKLINE_LENGTH) + 1))
    as [Hlt | Hge].
  - assert (Hn : (SPARKLINE_LENGTH <= List.length samples)%nat) by lia.
    replace (List.length samples + 1 - SPARKLINE_LENGTH)%nat
      with (S (List.length samples - SPARKLINE_LENGTH)) by lia.
    rewrite skipn_app.
    replace (S (List.length samples - SPARKLINE_LENGTH) - List.length samples)%nat
      with 0%nat by (unfold SPARKLINE_LENGTH in *; lia).
    rewrite <- tl_skipn. simpl skipn at 2.
    destruct (skipn (List.length samples - SPARKLINE_LENGTH) samples) eqn:E.
    + apply (f_equal (@List.length Z)) in E. rewrite length_skipn in E.
      simpl in E. unfold SPARKLINE_LENGTH in *. lia.
    + reflexivity.
  - replace (List.length samples - SPARKLINE_LENGTH)%nat with 0%nat by lia.
    replace (List.length samples + 1 - SPARKLINE_LENGTH)%nat with 0%nat by lia.
    reflexivity.
Qed.

Lemma window_length (samples : list Z) :
  (List.length (window samples) <= SPARKLINE_LENGTH)%nat.
Proof.
  unfold window. rewrite length_skipn. lia.
Qed.


Lemma get_sparkline_length (history : list Z) (sparkline : list N) :
  get_sparkline history = Ok sparkline ->
  List.length sparkline = List.length history.
Proof.
  destruct history as [| x xs]; unfold get_sparkline.
  - intros H. injection H as <-. reflexivity.
  - intros H. apply bind_Ok in H. destruct H as [scaled_data [Hs H]].
    rewrite (mapM_Ok_length _ _ _ H). exact (mapM_Ok_length _ _ _ Hs).
Qed.

Lemma failure_message_nonempty (http_get : string -> lookup_response)
    (lookupd_urls : list string) (m : string) :
  In m (flat_map (failure_of http_get) lookupd_urls) ->
  exists c rest, m = String c rest.
Proof.
  intros H. apply in_flat_map in H. destruct H as [url [_ H]].
  unfold failure_of in H.
  destruct (http_get url) as [producers | e |]; simpl in H;
    [destruct H | destruct H as [<- | []] | destruct H as [<- | []]];
    eexists _, _; reflexivity.
Qed.

Lemma resolution_error_nonempty (http_get : string -> lookup_response)
    (lookupd_urls : list string) (error : string) :
  get_nsqd_nodes http_get lookupd_urls = NodesError error ->
  exists c rest, error = String c rest.
Proof.
  rewrite get_nsqd_nodes_cases. intros H.
  destruct (flat_map (obtained_from http_get) lookupd_urls); [| discriminate H].
  destruct (flat_map (failure_of http_get) lookupd_urls) as [| m ms] eqn:E;
    [discriminate H |].
  injection H as <-.
  destruct (failure_message_nonempty http_get lookupd_urls m) as (c & rest & ->).
  { rewrite E. left. reflexivity. }
  destruct ms; simpl; eexists _, _; reflexivity.
Qed.

(** What a cycle that came to its end has done: the sample it added is
    the one its screen shows, and the screen is the banner, the previous
    mapping being kept, or the table of what [process_stats] returned
    for the previous mapping, those records being kept for the next
    cycle. *)
Lemma drawn_cycle_Ok (lookupd_urls : list string) (interval : Z)
    (st st' : loop_state) (env : surroundings) (shown : screen) :
  drawn_cycle lookupd_urls interval st env = Ok (st', shown) ->
  inflight_history st' = update_history (inflight_history st) (sample_of shown) /\
  match get_nsqd_nodes (http_get_nodes (around_net env)) lookupd_urls with
  | NodesError error =>
      shown = ErrorBanner ("Error: " ++ error) /\
      previous_channel_stats st' = previous_channel_stats st
  | Nodes nodes =>
      exists channels total_in_flight t,
        process_stats (get_all_stats (http_get_stats (around_net env)) nodes)
                      (previous_channel_stats st) interval
          = Ok (channels, total_in_flight) /\
        previous_channel_stats st' = Some (index_channels channels) /\
        shown = Dashboard t /\
        get_sparkline (inflight_history st') = Ok (summary_trend t) /\
        summary_total_in_flight t = total_in_flight /\
        summary_channels t = List.length channels /\
        table_rows t =
          map (draw_row (topic_channel_width_of (term_width env)))
              (py_upto (term_height env - 12) channels)
  end.
Proof.
  unfold drawn_cycle, poll.
  destruct (get_nsqd_nodes (http_get_nodes (around_net env)) lookupd_urls)
    as [error | nodes] eqn:G.
  - destruct (resolution_error_nonempty _ _ _ G) as (c & rest & ->).
    cbn [bind draw_ui]. intros H. apply bind_Ok in H.
    destruct H as [[] [_ H]]. injection H as <- <-.
    repeat split.
  - intros H. apply bind_Ok in H.
    destruct H as [[[[error_message channels] total_in_flight] previous] [Hp H]].
    apply bind_Ok in Hp. destruct Hp as [[channels' total'] [Hps Hp]].
    injection Hp as <- <- <- <-.
    apply bind_Ok in H. destruct H as [shown' [Hd H]].
    apply bind_Ok in H. destruct H as [[] [_ H]]. injection H as <- <-.
    unfold draw_ui in Hd. apply bind_Ok in Hd.
    destruct Hd as [sparkline [Hs Hd]]. injection Hd as <-.
    cbn. split; [reflexivity |].
    eexists _, _, _. split; [exact Hps |]. split; [reflexivity |].
    split; [reflexivity |]. cbn. repeat split. exact Hs.
Qed.

(** Along a run of the loop the history is the window over all samples
    taken, and no trend drawn is longer than the bound. *)
Lemma drawn_loop_history (lookupd_urls : list string) (interval : Z)
    (cycles : list surroundings) :
  forall (st st' : loop_state) (screens : list screen) (samples : list Z),
    drawn_loop lookupd_urls interval st cycles = Ok (st', screens) ->
    inflight_history st = window samples ->
    List.length screens = List.length cycles /\
    inflight_history st' = window (samples ++ map sample_of screens) /\
    Forall trend_within_bound screens.
Proof.
  induction cycles as [| env cycles IH]; intros st st' screens samples Hrun Hst.
  - simpl in Hrun. injection Hrun as <- <-. simpl. rewrite app_nil_r.
    repeat split; [exact Hst | constructor].
  - simpl in Hrun. apply bind_Ok in Hrun.
    destruct Hrun as [[st1 shown] [Hc Hrun]]. cbn [fst snd] in Hrun.
    apply bind_Ok in Hrun. destruct Hrun as [[st2 screens'] [Hl Hrun]].
    cbn [fst snd] in Hrun. injection Hrun as <- <-.
    pose proof (drawn_cycle_Ok _ _ _ _ _ _ Hc) as [Hh Hshown].
    rewrite Hst, update_history_window in Hh.
    destruct (IH st1 st2 screens' _ Hl Hh) as (Hlen & Hw & Hall).
    split; [simpl; rewrite Hlen; reflexivity |]. split.
    + rewrite Hw, <- app_assoc. reflexivity.
    + constructor; [| exact Hall].
      destruct shown as [message | t]; [exact I |]. simpl.
      destruct (get_nsqd_nodes (http_get_nodes (around_net env)) lookupd_urls)
        as [error | nodes].
      * destruct Hshown as [Hshown _]. discriminate Hshown.
      * destruct Hshown as (channels & total & t' & _ & _ & Ht & Hs & _).
        injection Ht as <-.
        rewrite (get_sparkline_length _ _ Hs), Hh. apply window_length.
Qed.

(** C7: one update of the history appends the sample and, when that
    takes the length over 60, removes exactly the first element; so a
    history within the bound stays within it.  In whatever state the
    loop is after any number of cycles, the drawing included, the
    history is the last 60 (or fewer, when fewer were taken) of the
    samples of the cycles so far, one per cycle and in the order they
    were taken, and no trend that was drawn had more than 60 glyphs. *)
Theorem C7_history_is_last_sixty_samples :
  (forall (h : list Z) (x : Z),
     (List.length h <= SPARKLINE_LENGTH)%nat ->
     (List.length (update_history h x) <= SPARKLINE_LENGTH)%nat /\
     ((List.length h < SPARKLINE_LENGTH)%nat -> update_history h x = h ++ [x]) /\
     (List.length h = SPARKLINE_LENGTH -> update_history h x = tl h ++ [x])) /\
  (forall (lookupd_urls : list string) (interval : Z)
          (cycles : list surroundings) (st : loop_state) (screens : list screen),
     drawn_loop lookupd_urls interval initial_state cycles = Ok (st, screens) ->
     List.length screens = List.length cycles /\
     inflight_history st = window (map sample_of screens) /\
     (List.length (inflight_history st) <= SPARKLINE_LENGTH)%nat /\
     Forall trend_within_bound screens).
Proof.
  split.
  - apply update_history_length.
  - intros lookupd_urls interval cycles st screens Hrun.
    destruct (drawn_loop_history lookupd_urls interval cycles
                initial_state st screens [] Hrun eq_refl)
      as (Hlen & Hw & Hall).
    simpl in Hw. repeat split; try assumption.
    rewrite Hw. apply window_length.
Qed.

(** A history of 60 samples loses its first on the next update; and 61
    cycles with 1, 2, ..., 61 messages in flight leave the history at
    2, ..., 61, the first sample gone. *)
Lemma C7_witness :
  update_history (map Z.of_nat (seq 1 60)) 61 = map Z.of_nat (seq 2 60) /\
  exists st screens,
    drawn_loop ["http://a:4161"] 2 initial_state
      (map (fun n => at_terminal (net_busy (Z.of_nat n))) (seq 1 61))
      = Ok (st, screens) /\
    map sample_of screens = map Z.of_nat (seq 1 61) /\
    inflight_history st = map Z.of_nat (seq 2 60) /\
    Forall trend_within_bound screens.
Proof.
  destruct C7_history_is_last_sixty_samples as [Hstep Hrun].
  split.
  - assert (Hl : (List.length (map Z.of_nat (seq 1 60)) <= SPARKLINE_LENGTH)%nat)
      by (rewrite length_map, length_seq; unfold SPARKLINE_LENGTH; lia).
    destruct (Hstep (map Z.of_nat (seq 1 60)) 61 Hl) as (_ & _ & H).
    rewrite H by reflexivity. reflexivity.
  - destruct (drawn_loop ["http://a:4161"] 2 initial_state
                (map (fun n => at_terminal (net_busy (Z.of_nat n))) (seq 1 61)))
      as [[st screens] | e] eqn:D; [| vm_compute in D; discriminate D].
    destruct (Hrun _ _ _ _ _ D) as (_ & Hw & _ & Hall).
    exists st, screens. split; [reflexivity |].
    assert (Hs : map sample_of screens = map Z.of_nat (seq 1 61)).
    { vm_compute in D. injection D as _ <-. reflexivity. }
    split; [exact Hs |]. split; [| exact Hall].
    rewrite Hw, Hs. reflexivity.
Defined.

(** ** A cycle whose resolution failed (C4) *)

(** C4, as the code has it: a cycle whose resolution failed, with an
    interval the sleep accepts, shows the error and nothing else,
    records a zero sample, and leaves the previous mapping as it was,
    neither clearing nor replacing it.  The
    next cycle that resolves and draws its table therefore passes
    [process_stats] the mapping from before the failed cycle: the rows
    it shows, and the records it keeps, are those computed against that
    mapping. *)
Theorem C4_failed_cycle_keeps_previous_mapping (lookupd_urls : list string)
    (interval : Z) (st : loop_state) (env : surroundings) (error : string) :
  0 <= interval < 2 ^ 31 ->
  get_nsqd_nodes (http_get_nodes (around_net env)) lookupd_urls
    = NodesError error ->
  exists st',
    drawn_cycle lookupd_urls interval st env
      = Ok (st', ErrorBanner ("Error: " ++ error)) /\
    previous_channel_stats st' = previous_channel_stats st /\
    inflight_history st' = update_history (inflight_history st) 0 /\
    forall (next : surroundings) (st'' : loop_state) (t : table),
      drawn_cycle lookupd_urls interval st' next = Ok (st'', Dashboard t) ->
      exists nodes channels total_in_flight,
        get_nsqd_nodes (http_get_nodes (around_net next)) lookupd_urls
          = Nodes nodes /\
        process_stats (get_all_stats (http_get_stats (around_net next)) nodes)
                      (previous_channel_stats st) interval
          = Ok (channels, total_in_flight) /\
        table_rows t =
          map (draw_row (topic_channel_width_of (term_width next)))
              (py_upto (term_height next - 12) channels) /\
        summary_total_in_flight t = total_in_flight /\
        summary_channels t = List.length channels /\
        previous_channel_stats st'' = Some (index_channels channels).
Proof.
  intros [Hint _] Herr.
  assert (Hc : drawn_cycle lookupd_urls interval st env =
               Ok ({| inflight_history := update_history (inflight_history st) 0;
                      previous_channel_stats := previous_channel_stats st |},
                   ErrorBanner ("Error: " ++ error))).
  { unfold drawn_cycle, poll. rewrite Herr. cbn [bind].
    destruct (resolution_error_nonempty _ _ _ Herr) as (c & rest & ->).
    cbn [draw_ui bind]. unfold time_sleep.
    destruct (Z.ltb_spec interval 0); [lia | reflexivity]. }
  eexists. split; [exact Hc |]. cbn [previous_channel_stats inflight_history].
  split; [reflexivity |]. split; [reflexivity |].
  intros next st'' t Hnext.
  pose proof (drawn_cycle_Ok _ _ _ _ _ _ Hnext) as [_ H].
  cbn [previous_channel_stats] in H.
  destruct (get_nsqd_nodes (http_get_nodes (around_net next)) lookupd_urls)
    as [error' | nodes].
  - destruct H as [H _]. discriminate H.
  - destruct H as (channels & total & t' & Hps & Hprev & Ht & _ & Htot & Hn & Hrows).
    injection Ht as <-.
    exists nodes, channels, total. repeat split; assumption.
Qed.

(** Against C4 as stated: a cycle reporting 100 messages, then a cycle in
    which no directory service answers, then a cycle reporting 130.  The
    table of the third cycle does not show the two dashes that stand for
    a rate of zero: its rate is taken against the mapping of the first
    cycle. *)
Lemma C4_rate_after_failed_cycle_is_not_zero :
  ~ (forall st screens,
       drawn_loop ["http://a:4161"] 2 initial_state
                  [at_terminal (net_up 100); at_terminal net_down;
                   at_terminal (net_up 130)] = Ok (st, screens) ->
       forall t row,
         nth_error screens 2 = Some (Dashboard t) -> In row (table_rows t) ->
         cell_rate_sec row = None).
Proof.
  intros H.
  specialize (H _ _ eq_refl _ _ eq_refl (or_introl eq_refl)).
  discriminate H.
Qed.

(** A failed cycle after one that kept a count of 200 for
    orders/billing, and the cycle after it, which reports 130 (held
    twice, as 260): the rate shown is (260 - 200) / 2 = 30. *)
Lemma C4_witness :
  exists st',
    drawn_cycle ["http://a:4161"] 2
      {| inflight_history := [3];
         previous_channel_stats := Some [("orders/billing", counted 200)] |}
      (at_terminal net_down)
      = Ok (st', ErrorBanner "Error: Failed to connect to http://a:4161: timed out") /\
    previous_channel_stats st' = Some [("orders/billing", counted 200)] /\
    inflight_history st' = [3; 0] /\
    exists st'' t,
      drawn_cycle ["http://a:4161"] 2 st' (at_terminal (net_up 130))
        = Ok (st'', Dashboard t) /\
      map cell_rate_sec (table_rows t) = [Some (30 # 1)%Q].
Proof.
  destruct (C4_failed_cycle_keeps_previous_mapping
              ["http://a:4161"] 2
              {| inflight_history := [3];
                 previous_channel_stats := Some [("orders/billing", counted 200)] |}
              (at_terminal net_down)
              "Failed to connect to http://a:4161: timed out"
              ltac:(lia) eq_refl)
    as (st' & Hc & Hp & Hh & Hnext).
  exists st'. split; [exact Hc |]. split; [exact Hp |]. split; [exact Hh |].
  destruct (drawn_cycle ["http://a:4161"] 2 st' (at_terminal (net_up 130)))
    as [[st'' [message | t]] | e] eqn:D.
  - exfalso. pose proof (drawn_cycle_Ok _ _ _ _ _ _ D) as [_ H].
    vm_compute in H.
    destruct H as (? & ? & ? & _ & _ & H & _). discriminate H.
  - exists st'', t. split; [reflexivity |].
    destruct (Hnext _ _ _ D) as (nodes & channels & total & Hn & Hps & Hrows & _).
    injection Hn as <-. vm_compute in Hps.
    injection Hps as <- _. rewrite Hrows. reflexivity.
  - exfalso. unfold drawn_cycle, poll in D. rewrite Hp, Hh in D.
    vm_compute in D. discriminate D.
Defined.

(** ** The sparkline (C9, C10) *)

Lemma mapM_map {A B C} (f : B -> result C) (g : A -> B) (l : list A) :
  mapM f (map g l) = mapM (fun a => f (g a)) l.
Proof.
  induction l as [| a l IH]; simpl; [reflexivity | rewrite IH; reflexivity].
Qed.

Lemma mapM_Raise {A B} (f : A -> result B) (l : list A) (e : exn) :
  mapM f l = Raise e -> exists a, In a l /\ f a = Raise e.
Proof.
  induction l as [| a l IH]; simpl; intros H.
  - discriminate H.
  - destruct (f a) as [b | e'] eqn:F; simpl in H.
    + destruct (mapM f l) as [bs | e''] eqn:M; simpl in H; [discriminate H |].
      injection H as ->. destruct (IH eq_refl) as [a' [Hin Ha']].
      exists a'. split; [right; exact Hin | exact Ha'].
    + injection H as ->. exists a. split; [left; reflexivity | exact F].
Qed.

Lemma py_int_Qeq (p q : Q) : (p == q)%Q -> py_int p = py_int q.
Proof.
  unfold Qeq, py_int. destruct p as [pn pd], q as [qn qd]. simpl. intros H.
  transitivity (Z.quot (pn * Z.pos qd) (Z.pos pd * Z.pos qd)).
  - symmetry. apply Z.quot_mul_cancel_r; lia.
  - rewrite H, (Z.mul_comm (Z.pos pd) (Z.pos qd)).
    apply Z.quot_mul_cancel_r; lia.
Qed.

Lemma scale_value (max_val value : Z) :
  0 < max_val -> scale max_val value = Ok (Z.quot (value * 7) max_val).
Proof.
  intros Hpos. unfold scale, py_truediv.
  destruct (Z.eqb_spec max_val 0) as [E | _]; [lia |].
  cbn [bind]. f_equal.
  change (Z.of_nat (List.length SPARKLINE_CHARS) - 1) with 7.
  destruct max_val as [| m | m]; try lia.
  change (Z.quot (value * 7) (Z.pos m)) with (py_int ((value * 7) # m)).
  apply py_int_Qeq. rewrite Qred_correct.
  unfold Qeq. simpl. lia.
Qed.

Lemma sparkline_max_val_pos (x : Z) (xs : list Z) : 1 <= sparkline_max_val x xs.
Proof.
  unfold sparkline_max_val.
  destruct (Z.ltb_spec 0 (py_max x xs)); lia.
Qed.

Lemma py_max_spec (xs : list Z) :
  forall x,
    x <= py_max x xs /\ Forall (fun v => v <= py_max x xs) xs /\
    In (py_max x xs) (x :: xs).
Proof.
  unfold py_max. induction xs as [| y ys IH]; intros x; simpl.
  - split; [lia |]. split; [constructor | left; reflexivity].
  - destruct (IH (Z.max x y)) as (H1 & H2 & H3).
    split; [lia |]. split.
    + constructor; [lia | exact H2].
    + destruct H3 as [H3 | H3]; [| right; right; exact H3].
      rewrite <- H3.
      destruct (Z.max_spec x y) as [[_ E] | [_ E]];
        [right; left | left]; symmetry; exact E.
Qed.

Lemma py_index_no_division {A} (s : list A) (i : Z) :
  py_index s i <> Raise ZeroDivisionError.
Proof.
  unfold py_index.
  destruct ((_ <? 0) || (_ <=? _)); [discriminate |].
  destruct (nth_error s _); discriminate.
Qed.

Lemma py_index_palette (i : Z) :
  0 <= i <= 7 ->
  py_index SPARKLINE_CHARS i = Ok (nth (Z.to_nat i) SPARKLINE_CHARS 0%N).
Proof.
  intros H.
  assert (C : i = 0 \/ i = 1 \/ i = 2 \/ i = 3 \/ i = 4 \/ i = 5 \/ i = 6 \/ i = 7)
    by lia.
  repeat (destruct C as [-> | C]; [reflexivity |]). subst i. reflexivity.
Qed.

(** The first comprehension never raises: its divisor is at least 1. *)
Lemma scaled_data_total (x : Z) (xs : list Z) (history : list Z) :
  mapM (scale (sparkline_max_val x xs)) history =
  Ok (map (fun value => Z.quot (value * 7) (sparkline_max_val x xs)) history).
Proof.
  apply mapM_total. intros value _. apply scale_value.
  pose proof (sparkline_max_val_pos x xs). lia.
Qed.

Lemma get_sparkline_unfold (x : Z) (xs : list Z) :
  get_sparkline (x :: xs) =
  mapM (fun value =>
          py_index SPARKLINE_CHARS
            (Z.quot (value * 7) (sparkline_max_val x xs))) (x :: xs).
Proof.
  unfold get_sparkline. rewrite scaled_data_total. cbn [bind].
  apply mapM_map.
Qed.

Lemma py_max_zeros (n : nat) : py_max 0 (repeat 0 n) = 0.
Proof.
  unfold py_max. induction n as [| n IH]; simpl; [reflexivity | exact IH].
Qed.

Lemma get_sparkline_zeros (n : nat) :
  get_sparkline (repeat 0 n) = Ok (repeat lowest_glyph n).
Proof.
  destruct n as [| n]; [reflexivity |].
  change (repeat 0 (S n)) with (0 :: repeat 0 n).
  rewrite get_sparkline_unfold.
  unfold sparkline_max_val. rewrite py_max_zeros. simpl (if 0 <? 0 then _ else _).
  change (0 :: repeat 0 n) with (repeat 0 (S n)).
  rewrite mapM_total with (g := fun _ => lowest_glyph).
  - f_equal. generalize (S n). intros k.
    induction k as [| k IH]; simpl; [reflexivity | f_equal; exact IH].
  - intros a Ha. apply repeat_spec in Ha. subst a. reflexivity.
Qed.

(** With a maximum above zero and no value below zero, both
    comprehensions go through, and the glyph of a value is the one at
    the integer part of 7 * value / maximum. *)
Lemma get_sparkline_scaled (x : Z) (xs : list Z) :
  0 < py_max x xs ->
  Forall (fun value => 0 <= value) (x :: xs) ->
  get_sparkline (x :: xs) = Ok (map (glyph_of (py_max x xs)) (x :: xs)) /\
  forall value, In value (x :: xs) ->
    0 <= Z.quot (value * 7) (py_max x xs) <= 7 /\
    Z.quot (value * 7) (py_max x xs) * py_max x xs <= 7 * value
      < (Z.quot (value * 7) (py_max x xs) + 1) * py_max x xs.
Proof.
  intros Hpos Hnn.
  destruct (py_max_spec xs x) as (Hx & Hxs & _).
  assert (Hall : Forall (fun value => value <= py_max x xs) (x :: xs))
    by (constructor; assumption).
  rewrite Forall_forall in Hnn, Hall.
  assert (Hidx : forall value, In value (x :: xs) ->
            0 <= Z.quot (value * 7) (py_max x xs) <= 7 /\
            Z.quot (value * 7) (py_max x xs) * py_max x xs <= 7 * value
              < (Z.quot (value * 7) (py_max x xs) + 1) * py_max x xs).
  { intros value Hv. specialize (Hnn value Hv). specialize (Hall value Hv).
    pose proof (Z.quot_rem' (value * 7) (py_max x xs)) as Hqr.
    pose proof (Z.rem_bound_pos (value * 7) (py_max x xs) ltac:(lia) Hpos) as Hr.
    split; [| lia].
    split; [apply Z.quot_pos; lia | apply Z.quot_le_upper_bound; lia]. }
  split; [| exact Hidx].
  rewrite get_sparkline_unfold.
  assert (E : sparkline_max_val x xs = py_max x xs).
  { unfold sparkline_max_val.
    destruct (Z.ltb_spec 0 (py_max x xs)); [reflexivity | lia]. }
  rewrite E. apply mapM_total.
  intros value Hv. apply py_index_palette. apply Hidx. exact Hv.
Qed.

(** C9: the divisor [max_val] is at least 1 for every history, so the
    sparkline never raises a division by zero; a history of zeros, of
    any length, and [0, 0, 0] in particular, gives the lowest glyph once
    per sample; and when the maximum of the window is above zero, the
    sparkline of a history of counts (none below zero, all below 2^48)
    has at each position the glyph at index [i] of the palette, [i]
    being the integer part of 7 * value / maximum, between 0 and 7:
    the eight levels divide the range from 0 to the maximum evenly. *)
Theorem C9_sparkline_never_divides_by_zero :
  (forall x xs, 1 <= sparkline_max_val x xs) /\
  (forall history, get_sparkline history <> Raise ZeroDivisionError) /\
  (forall n, get_sparkline (repeat 0 n) = Ok (repeat lowest_glyph n)) /\
  get_sparkline [0; 0; 0] = Ok [lowest_glyph; lowest_glyph; lowest_glyph] /\
  (forall x xs,
     0 < py_max x xs ->
     Forall (fun value => 0 <= value) (x :: xs) ->
     Forall small_sample (x :: xs) ->
     exists sparkline,
       get_sparkline (x :: xs) = Ok sparkline /\
       forall n value,
         nth_error (x :: xs) n = Some value ->
         exists i,
           0 <= i <= 7 /\
           i * py_max x xs <= 7 * value < (i + 1) * py_max x xs /\
           nth_error sparkline n = nth_error SPARKLINE_CHARS (Z.to_nat i)).
Proof.
  split; [apply sparkline_max_val_pos |].
  split; [| split; [apply get_sparkline_zeros | split; [reflexivity |]]].
  - intros [| x xs]; [discriminate |].
    rewrite get_sparkline_unfold. intros H.
    apply mapM_Raise in H. destruct H as [value [_ H]].
    exact (py_index_no_division _ _ H).
  - intros x xs Hpos Hnn _.
    destruct (get_sparkline_scaled x xs Hpos Hnn) as [Hs Hidx].
    eexists. split; [exact Hs |].
    intros n value Hn.
    destruct (Hidx value (nth_error_In _ _ Hn)) as [Hr Hlin].
    exists (Z.quot (value * 7) (py_max x xs)).
    split; [exact Hr |]. split; [exact Hlin |].
    rewrite nth_error_map, Hn. cbn [option_map]. unfold glyph_of.
    symmetry. apply nth_error_nth'.
    change (List.length SPARKLINE_CHARS) with 8%nat. lia.
Qed.

(** The history 2, 10, 5: seven times the value over the maximum 10 is
    1.4, 7 and 3.5, which gives the glyphs at 1, 7 and 3. *)
Lemma C9_witness :
  get_sparkline [2; 10; 5] = Ok [0x2582; 0x2588; 0x2584]%N.
Proof.
  destruct C9_sparkline_never_divides_by_zero as (_ & _ & _ & _ & H).
  destruct (H 2 [10; 5]) as (sparkline & Hs & _).
  - vm_compute. reflexivity.
  - repeat constructor; lia.
  - repeat constructor; unfold small_sample; lia.
  - rewrite Hs. vm_compute in Hs. injection Hs as <-. reflexivity.
Defined.

(** C10: a history of integers none of which is below zero always gets a
    sparkline, with exactly one glyph per element; the empty history
    gets the empty string; and when the maximum is above zero, every
    position that holds the maximum shows the highest glyph. *)
Theorem C10_one_glyph_per_sample (history : list Z) :
  Forall (fun value => 0 <= value) history ->
  exists sparkline,
    get_sparkline history = Ok sparkline /\
    List.length sparkline = List.length history /\
    (history = [] -> sparkline = []) /\
    forall x xs,
      history = x :: xs ->
      In (py_max x xs) history /\
      Forall (fun value => value <= py_max x xs) history /\
      (0 < py_max x xs ->
       forall i, nth_error history i = Some (py_max x xs) ->
                 nth_error sparkline i = Some highest_glyph).
Proof.
  intros Hnn. destruct history as [| x xs].
  - exists []. split; [reflexivity |]. split; [reflexivity |].
    split; [reflexivity |]. intros x0 xs0 H. discriminate H.
  - destruct (py_max_spec xs x) as (Hx & Hxs & Hin).
    assert (Hall : Forall (fun value => value <= py_max x xs) (x :: xs))
      by (constructor; assumption).
    pose proof (sparkline_max_val_pos x xs) as Hm.
    exists (map (glyph_of (sparkline_max_val x xs)) (x :: xs)).
    split; [| split; [apply length_map | split; [discriminate |]]].
    + rewrite get_sparkline_unfold. apply mapM_total.
      intros value Hv. apply py_index_palette.
      rewrite Forall_forall in Hnn, Hall.
      specialize (Hnn value Hv). specialize (Hall value Hv).
      unfold sparkline_max_val in *.
      destruct (Z.ltb_spec 0 (py_max x xs)) as [Hpos | Hle].
      * split.
        -- apply Z.quot_pos; lia.
        -- apply Z.quot_le_upper_bound; lia.
      * assert (value = 0) by lia. subst value.
        change (Z.quot (0 * 7) 1) with 0. lia.
    + intros x' xs' E. injection E as <- <-.
      split; [exact Hin |]. split; [exact Hall |].
      intros Hpos i Hi. rewrite nth_error_map, Hi. cbn [option_map]. f_equal.
      unfold glyph_of, sparkline_max_val.
      destruct (Z.ltb_spec 0 (py_max x xs)) as [_ | Hle]; [| lia].
      rewrite (Z.mul_comm (py_max x xs) 7), Z.quot_mul by lia. reflexivity.
Qed.

Lemma C10_witness :
  exists sparkline,
    get_sparkline [0; 3; 10; 7] = Ok sparkline /\
    List.length sparkline = 4%nat /\
    nth_error sparkline 2 = Some highest_glyph.
Proof.
  destruct (C10_one_glyph_per_sample [0; 3; 10; 7]) as (s & Hs & Hlen & _ & H).
  - repeat constructor; lia.
  - exists s. split; [exact Hs |]. split; [exact Hlen |].
    destruct (H 0 [3; 10; 7] eq_refl) as (_ & _ & Hmax).
    apply (Hmax ltac:(vm_compute; reflexivity) 2%nat). reflexivity.
Defined.

(** * Further properties of the code *)

(** ** Deduplication of the endpoints (lines 41-50) *)

Lemma same_endpoint_true (q p : Producer.t) :
  same_endpoint q p = true <-> producer_key p = producer_key q.
Proof. unfold same_endpoint. apply key_eqb_eq. Qed.

Lemma dedup_step_cons (p : Producer.t) (ps unique : list Producer.t)
    (seen : list (string * Z)) :
  fold_left dedup_step (p :: ps) (unique, seen) =
  fold_left dedup_step ps
    (if existsb (key_eqb (producer_key p)) seen then (unique, seen)
     else (unique ++ [p], seen ++ [producer_key p])).
Proof. reflexivity. Qed.

(** What the second loop holds after a run from any state in which
    [seen] lists the keys of [unique_producers]: a producer is in the
    result when it was there before, or when its key was not seen and it
    is the first of the remaining producers to carry that key. *)
Lemma dedup_fold_first (producers : list Producer.t) :
  forall (unique : list Producer.t) (seen : list (string * Z)),
    seen = map producer_key unique ->
    forall q,
      In q (fst (fold_left dedup_step producers (unique, seen))) <->
      In q unique \/
      (~ In (producer_key q) seen /\ find (same_endpoint q) producers = Some q).
Proof.
  induction producers as [| p ps IH]; intros unique seen Hseen q.
  - simpl. split; [intros H; left; exact H |].
    intros [H | [_ H]]; [exact H | discriminate H].
  - rewrite dedup_step_cons. simpl find.
    destruct (existsb (key_eqb (producer_key p)) seen) eqn:E.
    + rewrite (IH unique seen Hseen q). apply existsb_key_eqb in E.
      destruct (same_endpoint q p) eqn:S.
      * apply same_endpoint_true in S. rewrite <- S.
        split; (intros [H | [Hn _]]; [left; exact H | contradiction]).
      * apply iff_refl.
    + assert (Hnot : ~ In (producer_key p) seen).
      { intros Hin. apply existsb_key_eqb in Hin. congruence. }
      rewrite (IH (unique ++ [p]) (seen ++ [producer_key p]))
        by (rewrite map_app, Hseen; reflexivity).
      destruct (same_endpoint q p) eqn:S.
      * apply same_endpoint_true in S. split.
        -- intros [H | [Hn _]].
           ++ apply in_app_or in H. destruct H as [H | [<- | []]];
                [left; exact H | right].
              split; [exact Hnot | reflexivity].
           ++ exfalso. apply Hn. apply in_or_app. right. left. exact S.
        -- intros [H | [_ H]].
           ++ left. apply in_or_app. left. exact H.
           ++ injection H as <-. left. apply in_or_app. right. left. reflexivity.
      * assert (Hne : producer_key p <> producer_key q).
        { intros Heq. apply same_endpoint_true in Heq. congruence. }
        split.
        -- intros [H | [Hn Hf]].
           ++ apply in_app_or in H. destruct H as [H | [<- | []]];
                [left; exact H | congruence].
           ++ right. split; [| exact Hf].
              intros Hin. apply Hn. apply in_or_app. left. exact Hin.
        -- intros [H | [Hn Hf]].
           ++ left. apply in_or_app. left. exact H.
           ++ right. split; [| exact Hf].
              intros Hin. apply in_app_or in Hin.
              destruct Hin as [Hin | [Heq | []]]; [exact (Hn Hin) | congruence].
Qed.

(** Producers whose keys are already distinct pass through unchanged. *)
Lemma dedup_fold_distinct (producers : list Producer.t) :
  forall (unique : list Producer.t) (seen : list (string * Z)),
    NoDup (seen ++ map producer_key producers) ->
    fst (fold_left dedup_step producers (unique, seen)) = unique ++ producers.
Proof.
  induction producers as [| p ps IH]; intros unique seen Hnd.
  - simpl. rewrite app_nil_r. reflexivity.
  - rewrite dedup_step_cons. simpl in Hnd.
    destruct (existsb (key_eqb (producer_key p)) seen) eqn:E.
    + apply existsb_key_eqb in E. apply NoDup_remove_2 in Hnd.
      exfalso. apply Hnd. apply in_or_app. left. exact E.
    + rewrite IH.
      * rewrite <- app_assoc. reflexivity.
      * rewrite <- app_assoc. exact Hnd.
Qed.

(** X1: when resolution returns nodes, no two of them share an address
    and port; a producer is returned exactly when it is the first, in the
    order the directory services were asked and answered, to carry its
    address and port; and producers that were distinct to begin with are
    returned as they came, in the same order. *)
Theorem nodes_are_first_of_each_endpoint
    (http_get : string -> lookup_response) (lookupd_urls : list string)
    (nodes : list Producer.t) :
  get_nsqd_nodes http_get lookupd_urls = Nodes nodes ->
  let obtained := flat_map (obtained_from http_get) lookupd_urls in
  NoDup (map producer_key nodes) /\
  (forall q, In q nodes <-> find (same_endpoint q) obtained = Some q) /\
  (NoDup (map producer_key obtained) -> nodes = obtained).
Proof.
  intros Hget obtained.
  assert (Hnodes : nodes = fst (fold_left dedup_step obtained ([], []))).
  { rewrite get_nsqd_nodes_cases in Hget. fold obtained in Hget.
    destruct obtained as [| p ps];
      [destruct (flat_map (failure_of http_get) lookupd_urls);
         [| discriminate Hget] |];
      injection Hget as <-; reflexivity. }
  subst nodes. split; [| split].
  - destruct (dedup_fold obtained [] [] eq_refl (NoDup_nil _)) as (H1 & H2 & _).
    rewrite <- H1. exact H2.
  - intros q. rewrite (dedup_fold_first obtained [] [] eq_refl q).
    split; [intros [[] | [_ H]]; exact H | intros H; right; split; [intros [] | exact H]].
  - intros Hnd. apply (dedup_fold_distinct obtained [] []). exact Hnd.
Qed.

Lemma nodes_are_first_of_each_endpoint_witness :
  exists nodes,
    get_nsqd_nodes
      (fun _ => Producers [Producer.mk "10.0.0.1" 4151 "nsqd-1";
                           Producer.mk "10.0.0.1" 4151 "nsqd-1-again"])
      ["http://a:4161"] = Nodes nodes /\
    NoDup (map producer_key nodes) /\
    In (Producer.mk "10.0.0.1" 4151 "nsqd-1") nodes /\
    ~ In (Producer.mk "10.0.0.1" 4151 "nsqd-1-again") nodes.
Proof.
  eexists. split; [reflexivity |].
  destruct (nodes_are_first_of_each_endpoint
              (fun _ => Producers [Producer.mk "10.0.0.1" 4151 "nsqd-1";
                                   Producer.mk "10.0.0.1" 4151 "nsqd-1-again"])
              ["http://a:4161"] _ eq_refl) as (Hnd & Hfirst & _).
  split; [exact Hnd |]. split.
  - apply Hfirst. reflexivity.
  - intros Hin. apply Hfirst in Hin. discriminate Hin.
Defined.

(** ** Fetching the statistics (lines 52-69) *)

Lemma get_all_stats_In (http_get_stats : string -> Z -> stats_response)
    (nodes : list Producer.t) (stats : BS.t) :
  In stats (get_all_stats http_get_stats nodes) <->
  exists node,
    In node nodes /\
    (http_get_stats (Producer.broadcast_address node) (Producer.http_port node)
       = StatsFlat stats \/
     http_get_stats (Producer.broadcast_address node) (Producer.http_port node)
       = StatsUnderData stats).
Proof.
  unfold get_all_stats. rewrite in_flat_map. split.
  - intros [node [Hin Hs]]. exists node. split; [exact Hin |].
    destruct (http_get_stats _ _) as [s0 | d0 |];
      [left | right | destruct Hs]; destruct Hs as [<- | []]; reflexivity.
  - intros [node [Hin [Hs | Hs]]]; exists node; (split; [exact Hin |]);
      rewrite Hs; left; reflexivity.
Qed.

Lemma get_all_stats_all_failed (http_get_stats : string -> Z -> stats_response)
    (nodes : list Producer.t) :
  (forall node, In node nodes -> answered http_get_stats node = false) ->
  get_all_stats http_get_stats nodes = [].
Proof.
  intros Hall. unfold get_all_stats.
  induction nodes as [| n ns IH]; simpl; [reflexivity |].
  assert (A := Hall n (or_introl eq_refl)). unfold answered in A.
  destruct (http_get_stats _ _); try discriminate A.
  simpl. apply IH. intros node Hin. apply Hall. right. exact Hin.
Qed.

(** X2: the statistics hold one document for every node that answered,
    whether it nests its data or not, and none for a node that failed:
    so never more documents than nodes, as many as nodes only when every
    node answered, and none at all when every node failed. *)
Theorem get_all_stats_skips_failed_nodes
    (http_get_stats : string -> Z -> stats_response) (nodes : list Producer.t) :
  let all_stats := get_all_stats http_get_stats nodes in
  List.length all_stats = List.length (filter (answered http_get_stats) nodes) /\
  (List.length all_stats <= List.length nodes)%nat /\
  (List.length all_stats = List.length nodes <->
   forall node, In node nodes -> answered http_get_stats node = true) /\
  ((forall node, In node nodes -> answered http_get_stats node = false) ->
   all_stats = []) /\
  (forall stats,
     In stats all_stats <->
     exists node,
       In node nodes /\
       (http_get_stats (Producer.broadcast_address node) (Producer.http_port node)
          = StatsFlat stats \/
        http_get_stats (Producer.broadcast_address node) (Producer.http_port node)
          = StatsUnderData stats)).
Proof.
  cbv zeta.
  assert (Hlen : List.length (get_all_stats http_get_stats nodes)
                 = List.length (filter (answered http_get_stats) nodes)).
  { unfold get_all_stats, answered.
    induction nodes as [| n ns IH]; simpl; [reflexivity |].
    destruct (http_get_stats _ _); simpl; rewrite IH; reflexivity. }
  split; [exact Hlen |]. rewrite Hlen.
  split; [apply filter_length_le |]. split; [| split].
  - clear Hlen. induction nodes as [| n ns IH]; simpl.
    + split; [intros _ node [] | reflexivity].
    + pose proof (filter_length_le (answered http_get_stats) ns) as Hle.
      destruct (answered http_get_stats n) eqn:A; simpl.
      * split.
        -- intros H node [<- | Hin]; [exact A |].
           apply IH; [lia | exact Hin].
        -- intros H. f_equal. apply IH. intros node Hin. apply H. right. exact Hin.
      * split; [lia |]. intros H. specialize (H n (or_introl eq_refl)). congruence.
  - apply get_all_stats_all_failed.
  - apply get_all_stats_In.
Qed.

(** ** When [process_stats] raises (lines 98-106) *)

Lemma aggregate_nil_iff (nsqd_stats : list BS.t) :
  fst (aggregate nsqd_stats) = [] <-> contributions nsqd_stats = [].
Proof.
  split; intros H.
  - destruct (contributions nsqd_stats) as [| p cs] eqn:C; [reflexivity |].
    exfalso. assert (G := aggregate_get nsqd_stats (key_of p)).
    rewrite C in G. simpl in G. rewrite String.eqb_refl in G.
    rewrite H in G. discriminate G.
  - rewrite aggregate_contributions, H. reflexivity.
Qed.

(** X3: [process_stats] raises the division by zero exactly when the
    interval is zero, a previous mapping that is not empty was passed,
    and the documents hold at least one channel.  In particular an
    interval of zero is harmless on the first cycle and whenever no
    channel is reported, and an interval other than zero never leads to
    that exception. *)
Theorem process_stats_raises_iff (nsqd_stats : list BS.t)
    (previous_stats : option (dict AC.t)) (interval_seconds : Z) :
  process_stats nsqd_stats previous_stats interval_seconds
    = Raise ZeroDivisionError <->
  interval_seconds = 0 /\
  (exists entry rest, previous_stats = Some (entry :: rest)) /\
  contributions nsqd_stats <> [].
Proof.
  destruct (Z.eq_dec interval_seconds 0) as [-> | Hi].
  - unfold process_stats.
    destruct (aggregate nsqd_stats) as [cd total] eqn:A.
    assert (Hnil := aggregate_nil_iff nsqd_stats). rewrite A in Hnil.
    simpl in Hnil. unfold annotate_rates.
    destruct previous_stats as [[| entry rest] |]; simpl truthy.
    + simpl. split; [discriminate |].
      intros (_ & (en & re & H) & _). discriminate H.
    + destruct cd as [| [k r] cd'].
      * simpl. split; [discriminate |].
        intros (_ & _ & H). exfalso. apply H. apply Hnil. reflexivity.
      * simpl. split.
        -- intros _.
           repeat split; [eexists _, _; reflexivity |].
           intros C. apply Hnil in C. discriminate C.
        -- intros _. reflexivity.
    + simpl. split; [discriminate |].
      intros (_ & (en & re & H) & _). discriminate H.
  - destruct (process_stats_shape nsqd_stats previous_stats interval_seconds Hi)
      as (h & _ & Hps & _).
    rewrite Hps. split; [discriminate | intros (H & _); contradiction].
Qed.

(** ** The total and the rows (lines 92-95, 113-114) *)

Lemma in_flight_sum_modify (k : string) (f : AC.t -> AC.t) (c : Z)
    (d : dict AC.t) :
  (forall v, AC.in_flight_count (f v) = AC.in_flight_count v + c) ->
  dict_get k d <> None ->
  Zsum (map AC.in_flight_count (dict_values (dict_modify k f d))) =
  Zsum (map AC.in_flight_count (dict_values d)) + c.
Proof.
  intros Hf. induction d as [| [k0 v0] d IH]; simpl; intros Hk.
  - congruence.
  - destruct (String.eqb k k0) eqn:E; simpl.
    + rewrite Hf. lia.
    + rewrite IH by exact Hk. lia.
Qed.

Lemma in_flight_sum_set_new (k : string) (v : AC.t) (d : dict AC.t) :
  dict_get k d = None ->
  Zsum (map AC.in_flight_count (dict_values (dict_set k v d))) =
  Zsum (map AC.in_flight_count (dict_values d)) + AC.in_flight_count v.
Proof.
  induction d as [| [k0 v0] d IH]; simpl; intros Hk.
  - lia.
  - destruct (String.eqb k k0) eqn:E; [discriminate Hk |].
    simpl. rewrite IH by exact Hk. lia.
Qed.

Lemma visit_in_flight_sum (p : TS.t * CS.t) (d : dict AC.t) (t : Z) :
  Zsum (map AC.in_flight_count (dict_values (fst (visit (d, t) p)))) =
  Zsum (map AC.in_flight_count (dict_values d)) + CS.in_flight_count (snd p).
Proof.
  unfold visit, visit_channel. fold (key_of p). simpl fst.
  unfold dict_mem. destruct (dict_get (key_of p) d) as [r |] eqn:G.
  - apply in_flight_sum_modify; [reflexivity | congruence].
  - rewrite in_flight_sum_modify with (c := CS.in_flight_count (snd p)).
    + rewrite in_flight_sum_set_new by exact G. simpl. lia.
    + reflexivity.
    + rewrite dict_get_set, String.eqb_refl. discriminate.
Qed.

Lemma fold_visit_in_flight_sum (cs : list (TS.t * CS.t)) :
  forall (d : dict AC.t) (t : Z),
    Zsum (map AC.in_flight_count (dict_values (fst (fold_left visit cs (d, t))))) =
    Zsum (map AC.in_flight_count (dict_values d))
    + Zsum (map (fun p => CS.in_flight_count (snd p)) cs).
Proof.
  induction cs as [| p cs IH]; intros d t.
  - simpl. lia.
  - change (fold_left visit (p :: cs) (d, t))
      with (fold_left visit cs (visit (d, t) p)).
    rewrite (surjective_pairing (visit (d, t) p)), IH, visit_in_flight_sum.
    simpl. lia.
Qed.

(** X4: the total in-flight count that [process_stats] returns is the
    sum of the in-flight counts of the records it returns, so the
    summary line and the table always agree. *)
Theorem total_in_flight_is_sum_of_rows (nsqd_stats : list BS.t)
    (previous_stats : option (dict AC.t)) (interval_seconds : Z)
    (sorted_channels : list AC.t) (total_in_flight : Z) :
  process_stats nsqd_stats previous_stats interval_seconds
    = Ok (sorted_channels, total_in_flight) ->
  total_in_flight = Zsum (map AC.in_flight_count sorted_channels).
Proof.
  unfold process_stats.
  destruct (aggregate nsqd_stats) as [cd total] eqn:A. intros H.
  apply bind_Ok in H. destruct H as [cd' [Hann H]]. injection H as <- <-.
  assert (Hsum : total = Zsum (map AC.in_flight_count (dict_values cd))).
  { pose proof (aggregate_total nsqd_stats) as Ht.
    pose proof (fold_visit_in_flight_sum (contributions nsqd_stats) [] 0) as Hs.
    rewrite <- aggregate_contributions, A in Hs. rewrite A in Ht.
    simpl in Ht, Hs. lia. }
  rewrite Hsum.
  rewrite <- (Zsum_perm _ _ (Permutation_map AC.in_flight_count
                               (sorted_by_depth_desc_perm (dict_values cd')))).
  f_equal. unfold annotate_rates in Hann.
  destruct (truthy previous_stats) as [previous |].
  - clear A Hsum. revert cd' Hann.
    induction cd as [| [k r] cd IH]; simpl; intros cd' Hann.
    + injection Hann as <-. reflexivity.
    + apply bind_Ok in Hann. destruct Hann as [[k' r'] [He Hann]].
      apply bind_Ok in Hann. destruct Hann as [rest [Hrest Hann]].
      injection Hann as <-. simpl. rewrite <- (IH rest Hrest). f_equal.
      unfold rate_entry in He. apply bind_Ok in He.
      destruct He as [q [_ He]]. injection He as _ <-. reflexivity.
  - injection Hann as <-. unfold dict_values. rewrite !map_map.
    apply map_ext. intros [k r]. reflexivity.
Qed.

Lemma total_in_flight_is_sum_of_rows_witness :
  12 = Zsum (map AC.in_flight_count
               [rated_zero "orders" "billing" 7 12 18]).
Proof.
  apply (total_in_flight_is_sum_of_rows
           [broker_doc "orders" "billing" 3 4 5 6;
            broker_doc "orders" "billing" 0 0 7 6] None 2).
  reflexivity.
Defined.

(** ** One record per channel key (lines 78-95, 113-114) *)

(** X5: [process_stats] returns one record per channel key that the
    documents mention and none for any other key: a channel no broker
    reports this cycle is not in the result, however many earlier cycles
    had it, and a channel several brokers report is there once. *)
Theorem one_row_per_reported_channel (nsqd_stats : list BS.t)
    (previous_stats : option (dict AC.t)) (interval_seconds : Z)
    (sorted_channels : list AC.t) (total_in_flight : Z) :
  process_stats nsqd_stats previous_stats interval_seconds
    = Ok (sorted_channels, total_in_flight) ->
  NoDup (map row_key sorted_channels) /\
  (forall k, In k (map row_key sorted_channels) <->
             In k (map key_of (contributions nsqd_stats))) /\
  List.length sorted_channels
    = List.length (first_seen (map key_of (contributions nsqd_stats))).
Proof.
  intros H. destruct (row_keys_permuted _ _ _ _ _ H) as [Hp Hnd].
  split; [exact Hnd |]. split.
  - intros k. split.
    + intros Hin. apply (Permutation_in _ (Permutation_sym Hp)) in Hin.
      apply dict_get_keys in Hin. rewrite aggregate_get in Hin.
      destruct (filter _ (contributions nsqd_stats)) as [| p rest] eqn:F;
        [congruence |].
      assert (Hpin : In p (p :: rest)) by (left; reflexivity).
      rewrite <- F in Hpin. apply filter_In in Hpin.
      destruct Hpin as [Hpin Hk]. apply String.eqb_eq in Hk. subst k.
      apply in_map. exact Hpin.
    + intros Hin. apply (Permutation_in _ Hp). apply dict_get_keys.
      rewrite aggregate_get. apply in_map_iff in Hin.
      destruct Hin as [p [Hk Hpin]].
      assert (Hf : In p (filter (fun p => String.eqb k (key_of p))
                                (contributions nsqd_stats))).
      { apply filter_In. split; [exact Hpin |]. apply String.eqb_eq.
        symmetry. exact Hk. }
      destruct (filter _ (contributions nsqd_stats)); [destruct Hf | discriminate].
  - rewrite <- aggregate_keys, <- (length_map row_key).
    symmetry. apply Permutation_length. exact Hp.
Qed.

Lemma one_row_per_reported_channel_witness :
  NoDup (map row_key [rated_zero "orders" "billing" 7 12 18]) /\
  List.length [rated_zero "orders" "billing" 7 12 18] = 1%nat.
Proof.
  destruct (one_row_per_reported_channel
              [broker_doc "orders" "billing" 3 4 5 6;
               broker_doc "orders" "billing" 0 0 7 6] None 2 _ _ eq_refl)
    as (Hnd & _ & Hlen).
  split; [exact Hnd | exact Hlen].
Defined.

(** ** From one cycle to the next (lines 299-302, 98-106) *)

Lemma index_fold_get (l : list AC.t) :
  forall (d : dict AC.t) (k : string),
    NoDup (map row_key l) ->
    dict_get k (fold_left (fun d ch => dict_set (row_key ch) ch d) l d) =
    match find (fun ch => String.eqb k (row_key ch)) l with
    | Some ch => Some ch
    | None => dict_get k d
    end.
Proof.
  induction l as [| x l IH]; intros d k Hnd; simpl.
  - reflexivity.
  - inversion Hnd as [| ? ? Hnot Hnd']; subst.
    rewrite IH by exact Hnd'. rewrite dict_get_set.
    destruct (String.eqb k (row_key x)) eqn:E.
    + apply String.eqb_eq in E. subst k.
      destruct (find (fun ch => String.eqb (row_key x) (row_key ch)) l) as [y |] eqn:F;
        [| reflexivity].
      apply find_some in F. destruct F as [Hy Hk]. apply String.eqb_eq in Hk.
      exfalso. apply Hnot. rewrite Hk. apply in_map. exact Hy.
    + reflexivity.
Qed.

(** Line 302 is a lookup table of the records by key: with distinct keys
    every record is found under its own key, and nothing else is there. *)
Lemma index_channels_get (l : list AC.t) (k : string) :
  NoDup (map row_key l) ->
  dict_get k (index_channels l) = find (fun ch => String.eqb k (row_key ch)) l.
Proof.
  intros Hnd. unfold index_channels.
  change (fun d ch => dict_set (channel_key (AC.topic ch) (AC.channel ch)) ch d)
    with (fun d ch => dict_set (row_key ch) ch d).
  rewrite index_fold_get by exact Hnd.
  destruct (find _ l); reflexivity.
Qed.

Lemma find_by_key (l : list AC.t) (x : AC.t) :
  NoDup (map row_key l) -> In x l ->
  find (fun ch => String.eqb (row_key x) (row_key ch)) l = Some x.
Proof.
  induction l as [| y l IH]; simpl; intros Hnd Hin; [destruct Hin |].
  inversion Hnd as [| ? ? Hnot Hnd']; subst.
  destruct Hin as [-> | Hin].
  - rewrite String.eqb_refl. reflexivity.
  - destruct (String.eqb (row_key x) (row_key y)) eqn:E.
    + apply String.eqb_eq in E. exfalso. apply Hnot. rewrite <- E.
      apply in_map. exact Hin.
    + apply IH; assumption.
Qed.

Lemma find_absent {A} (f : A -> bool) (l : list A) :
  (forall x, In x l -> f x = false) -> find f l = None.
Proof.
  induction l as [| a l IH]; simpl; intros H; [reflexivity |].
  rewrite (H a (or_introl eq_refl)). apply IH.
  intros x Hx. apply H. right. exact Hx.
Qed.

(** What the mapping kept for the next cycle holds: for every key of
    this cycle's aggregate, a record with this cycle's message count, and
    nothing under any other key. *)
Lemma kept_for_next_cycle (nsqd_stats : list BS.t)
    (previous_stats : option (dict AC.t)) (interval_seconds : Z)
    (sorted_channels : list AC.t) (total_in_flight : Z) (k : string) :
  process_stats nsqd_stats previous_stats interval_seconds
    = Ok (sorted_channels, total_in_flight) ->
  match dict_get k (fst (aggregate nsqd_stats)) with
  | Some r =>
      exists r', dict_get k (index_channels sorted_channels) = Some r' /\
                 AC.message_count r' = AC.message_count r
  | None => dict_get k (index_channels sorted_channels) = None
  end.
Proof.
  intros H.
  destruct (row_keys_permuted _ _ _ _ _ H) as [_ Hnd].
  rewrite index_channels_get by exact Hnd.
  destruct (aggregate_well_keyed nsqd_stats) as [_ Hkey].
  destruct (dict_get k (fst (aggregate nsqd_stats))) as [r |] eqn:G.
  - pose (r' := snd (annotate_entry previous_stats interval_seconds (k, r))).
    destruct (annotate_entry_same previous_stats interval_seconds (k, r))
      as (_ & Ht & Hc & _ & _ & Hm).
    assert (Hk : row_key r' = k).
    { unfold row_key, r'. rewrite Ht, Hc. simpl. symmetry.
      apply Hkey. apply dict_get_In. exact G. }
    assert (Hin : In r' sorted_channels).
    { apply (in_rows _ _ _ _ _ r' H). exists r. rewrite Hk.
      split; [exact G | reflexivity]. }
    exists r'. split; [| exact Hm].
    rewrite <- Hk. apply find_by_key; assumption.
  - apply find_absent. intros x Hx.
    apply (in_rows _ _ _ _ _ x H) in Hx. destruct Hx as (r & Hg & _).
    destruct (String.eqb_spec k (row_key x)) as [E | _]; [| reflexivity].
    subst k. congruence.
Qed.

(** X6: between two cycles that both resolve, with an interval above
    zero, the second cycle always returns, and the rate per second it
    gives a channel is max(0, count now - count before) / interval when
    the channel was in the first cycle's aggregate, the counts being the
    aggregated message counts of the two cycles, and zero when the
    channel is new.  So when the brokers report the same documents twice
    in a row, every rate of the second cycle is zero. *)
Theorem rate_between_two_cycles (first second : list BS.t)
    (previous_stats : option (dict AC.t)) (interval_seconds : Z)
    (channels : list AC.t) (total_in_flight : Z) :
  0 < interval_seconds ->
  process_stats first previous_stats interval_seconds
    = Ok (channels, total_in_flight) ->
  exists channels' total_in_flight',
    process_stats second (Some (index_channels channels)) interval_seconds
      = Ok (channels', total_in_flight') /\
    forall r', In r' channels' ->
      exists per_second,
        AC.rate_per_second r' = Some per_second /\
        match dict_get (row_key r') (fst (aggregate first)) with
        | Some r =>
            (per_second ==
               inject_Z (Z.max 0 (AC.message_count r' - AC.message_count r))
               / inject_Z interval_seconds)%Q
        | None => per_second = 0%Q
        end /\
        (second = first -> per_second = 0%Q).
Proof.
  intros Hpos H1.
  destruct (process_stats_shape second (Some (index_channels channels))
              interval_seconds ltac:(lia)) as (h & _ & H2 & _).
  eexists _, _. split; [exact H2 |].
  intros r' Hin. apply (in_rows _ _ _ _ _ r' H2) in Hin.
  destruct Hin as (r0 & G2 & Hr').
  assert (Hkept := kept_for_next_cycle first previous_stats interval_seconds
                     channels total_in_flight (row_key r') H1).
  assert (Hm : AC.message_count r' = AC.message_count r0).
  { rewrite Hr'.
    apply (annotate_entry_same (Some (index_channels channels)) interval_seconds
             (row_key r', r0)). }
  unfold annotate_entry, truthy in Hr'.
  destruct (index_channels channels) as [| entry rest] eqn:I.
  - (* nothing was kept: the first cycle had no channel at all *)
    exists 0%Q. rewrite Hr' at 1. split; [reflexivity |].
    destruct (dict_get (row_key r') (fst (aggregate first))) as [r |] eqn:G1.
    + destruct Hkept as (r1 & Hk & _). discriminate Hk.
    + split; reflexivity.
  - rewrite <- I in *. clear I entry rest.
    exists (rate_of (AC.message_count r0)
              (previous_count_of (index_channels channels) (row_key r')
                 (AC.message_count r0)) interval_seconds).
    split; [rewrite Hr' at 1; reflexivity |].
    unfold previous_count_of.
    destruct (dict_get (row_key r') (fst (aggregate first))) as [r |] eqn:G1.
    + destruct Hkept as (r1 & Hk & Hm1). rewrite Hk, Hm1, Hm.
      split; [apply rate_of_value |].
      intros ->. rewrite G1 in G2. injection G2 as ->. apply rate_of_same.
    + rewrite Hkept. split; [apply rate_of_same | intros _; apply rate_of_same].
Qed.

Lemma rate_between_two_cycles_witness :
  exists channels' total_in_flight',
    process_stats [broker_doc "orders" "billing" 0 0 0 130]
      (Some (index_channels [rated_zero "orders" "billing" 0 0 200])) 2
      = Ok (channels', total_in_flight') /\
    forall r', In r' channels' ->
      exists per_second,
        AC.rate_per_second r' = Some per_second /\
        (per_second == 30 # 1)%Q.
Proof.
  destruct (rate_between_two_cycles
              [broker_doc "orders" "billing" 0 0 0 100]
              [broker_doc "orders" "billing" 0 0 0 130]
              None 2 _ _ ltac:(lia) eq_refl) as (chans & total & H2 & Hrate).
  exists chans, total. split; [exact H2 |].
  intros r' Hin. destruct (Hrate r' Hin) as (ps & Hps & Hval & _).
  exists ps. split; [exact Hps |].
  injection H2 as <- _. destruct Hin as [<- | []].
  simpl in Hval. rewrite Hval. reflexivity.
Defined.

(** ** More on the sparkline (lines 116-126) *)

Lemma mapM_ext_in {A B} (f g : A -> result B) (l : list A) :
  (forall a, In a l -> f a = g a) -> mapM f l = mapM g l.
Proof.
  induction l as [| a l IH]; simpl; intros H; [reflexivity |].
  rewrite (H a (or_introl eq_refl)), IH; [reflexivity |].
  intros x Hx. apply H. right. exact Hx.
Qed.

Lemma mapM_Ok_iff {A B} (f : A -> result B) (l : list A) :
  (exists out, mapM f l = Ok out) <-> (forall a, In a l -> exists b, f a = Ok b).
Proof.
  induction l as [| a l IH]; simpl.
  - split; [intros _ a [] | intros _; eexists; reflexivity].
  - split.
    + intros [out H]. apply bind_Ok in H. destruct H as [b [Hb H]].
      apply bind_Ok in H. destruct H as [bs [Hbs _]].
      intros x [<- | Hx]; [exists b; exact Hb |].
      apply IH; [exists bs; exact Hbs | exact Hx].
    + intros H. destruct (H a (or_introl eq_refl)) as [b Hb].
      destruct IH as [_ IH]. destruct IH as [bs Hbs].
      { intros x Hx. apply H. right. exact Hx. }
      exists (b :: bs). rewrite Hb, Hbs. reflexivity.
Qed.

Lemma mapM_Ok_Forall {A B} (f : A -> result B) (P : B -> Prop) (l : list A)
    (out : list B) :
  (forall a b, f a = Ok b -> P b) -> mapM f l = Ok out -> Forall P out.
Proof.
  intros HP. revert out. induction l as [| a l IH]; simpl; intros out H.
  - injection H as <-. constructor.
  - apply bind_Ok in H. destruct H as [b [Hb H]].
    apply bind_Ok in H. destruct H as [bs [Hbs H]].
    injection H as <-. constructor; [exact (HP a b Hb) | exact (IH bs Hbs)].
Qed.

Lemma py_index_palette_cases (i : Z) :
  (-8 <= i <= 7 /\ exists g, py_index SPARKLINE_CHARS i = Ok g /\ In g SPARKLINE_CHARS) \/
  ((i < -8 \/ 7 < i) /\ py_index SPARKLINE_CHARS i = Raise IndexError).
Proof.
  destruct (Z_lt_le_dec i (-8)) as [Hlo | Hlo].
  - right. split; [left; exact Hlo |]. unfold py_index.
    change (Z.of_nat (List.length SPARKLINE_CHARS)) with 8.
    destruct (Z.ltb_spec i 0); [| lia].
    destruct (Z.ltb_spec (i + 8) 0); [reflexivity | lia].
  - destruct (Z_lt_le_dec 7 i) as [Hhi | Hhi].
    + right. split; [right; exact Hhi |]. unfold py_index.
      change (Z.of_nat (List.length SPARKLINE_CHARS)) with 8.
      destruct (Z.ltb_spec i 0); [lia |].
      destruct (Z.ltb_spec i 0); [lia |].
      destruct (Z.leb_spec 8 i); [reflexivity | lia].
    + left. split; [lia |].
      assert (C : i = -8 \/ i = -7 \/ i = -6 \/ i = -5 \/ i = -4 \/ i = -3 \/
                  i = -2 \/ i = -1 \/ i = 0 \/ i = 1 \/ i = 2 \/ i = 3 \/
                  i = 4 \/ i = 5 \/ i = 6 \/ i = 7) by lia.
      repeat (destruct C as [-> | C];
              [eexists; split; [reflexivity | simpl; tauto] |]).
      subst i. eexists. split; [reflexivity | simpl; tauto].
Qed.

Lemma scaled_at_most_seven (x : Z) (xs : list Z) (value : Z) :
  In value (x :: xs) ->
  Z.quot (value * 7) (sparkline_max_val x xs) <= 7.
Proof.
  intros Hin. destruct (py_max_spec xs x) as (Hx & Hxs & _).
  assert (Hle : value <= py_max x xs).
  { destruct Hin as [<- | Hin]; [exact Hx |].
    rewrite Forall_forall in Hxs. apply Hxs. exact Hin. }
  unfold sparkline_max_val.
  destruct (Z.ltb_spec 0 (py_max x xs)) as [Hpos | Hnp].
  - apply Z.quot_le_upper_bound; lia.
  - rewrite Z.quot_1_r. lia.
Qed.

Lemma quot_below (a m : Z) :
  0 < m -> (Z.quot a m < -8 <-> a <= -9 * m).
Proof.
  intros Hm. pose proof (Z.quot_rem' a m) as Hqr.
  destruct (Z_lt_le_dec a 0) as [Ha | Ha].
  - pose proof (Z.rem_bound_pos_neg a m ltac:(lia) ltac:(lia)) as Hr. nia.
  - pose proof (Z.quot_pos a m Ha Hm). split; lia.
Qed.

(** X8: on a history that is not empty and whose values are below
    2^48 in magnitude, [get_sparkline] can only fail with an index
    error, and it does so exactly when some value is so far below zero
    that seven times the value is at most minus nine times the divisor
    (the maximum when that is above zero, else 1).  Whenever it returns,
    it returns one glyph of the palette per sample, also for values less
    far below zero. *)
Theorem sparkline_fails_iff_far_below_zero (x : Z) (xs : list Z) :
  Forall small_sample (x :: xs) ->
  (get_sparkline (x :: xs) = Raise IndexError <->
   exists value, In value (x :: xs) /\
                 value * 7 <= -9 * sparkline_max_val x xs) /\
  (forall e, get_sparkline (x :: xs) = Raise e -> e = IndexError) /\
  (forall sparkline,
     get_sparkline (x :: xs) = Ok sparkline ->
     List.length sparkline = List.length (x :: xs) /\
     Forall (fun glyph => In glyph SPARKLINE_CHARS) sparkline).
Proof.
  intros _.
  pose proof (sparkline_max_val_pos x xs) as Hm.
  rewrite get_sparkline_unfold.
  set (f := fun value =>
              py_index SPARKLINE_CHARS
                (Z.quot (value * 7) (sparkline_max_val x xs))).
  assert (Hf : forall value, In value (x :: xs) ->
             (f value = Raise IndexError /\
              value * 7 <= -9 * sparkline_max_val x xs) \/
             ((exists g, f value = Ok g /\ In g SPARKLINE_CHARS) /\
              ~ value * 7 <= -9 * sparkline_max_val x xs)).
  { intros value Hin. unfold f.
    pose proof (scaled_at_most_seven x xs value Hin) as H7.
    pose proof (quot_below (value * 7) (sparkline_max_val x xs) ltac:(lia)) as Hq.
    destruct (py_index_palette_cases
                (Z.quot (value * 7) (sparkline_max_val x xs)))
      as [[Hr Hg] | [Hr He]].
    - right. split; [exact Hg | lia].
    - left. split; [exact He | lia]. }
  assert (Hraise : forall e, mapM f (x :: xs) = Raise e -> e = IndexError).
  { intros e H. apply mapM_Raise in H. destruct H as [value [Hin H]].
    destruct (Hf value Hin) as [[He _] | [[g [Hg _]] _]]; congruence. }
  split; [| split].
  - split.
    + intros H. apply mapM_Raise in H. destruct H as [value [Hin H]].
      exists value. split; [exact Hin |].
      destruct (Hf value Hin) as [[_ Hlow] | [[g [Hg _]] _]];
        [exact Hlow | congruence].
    + intros [value [Hin Hlow]].
      destruct (mapM f (x :: xs)) as [out | e] eqn:M.
      * exfalso.
        assert (Hall : forall a, In a (x :: xs) -> exists b, f a = Ok b)
          by (apply mapM_Ok_iff; exists out; exact M).
        destruct (Hall value Hin) as [b Hb].
        destruct (Hf value Hin) as [[He _] | [_ Hn]];
          [congruence | exact (Hn Hlow)].
      * f_equal. apply Hraise. reflexivity.
  - exact Hraise.
  - intros sparkline H. split; [exact (mapM_Ok_length _ _ _ H) |].
    apply (mapM_Ok_Forall f _ (x :: xs)); [| exact H].
    intros value g Hg. unfold f in Hg.
    destruct (py_index_palette_cases
                (Z.quot (value * 7) (sparkline_max_val x xs)))
      as [[_ (g' & Hg' & Hin)] | [_ He]]; congruence.
Qed.

(** With a maximum of 2, the value -3 is too far below zero (-21 is at
    most -18), the value -2 is not (-14 is above -18). *)
Lemma sparkline_fails_iff_far_below_zero_witness :
  get_sparkline [-3; 2] = Raise IndexError /\
  exists sparkline,
    get_sparkline [-2; 2] = Ok sparkline /\ List.length sparkline = 2%nat.
Proof.
  split.
  - apply (sparkline_fails_iff_far_below_zero (-3) [2]).
    + repeat constructor; unfold small_sample; lia.
    + exists (-3). split; [left; reflexivity | vm_compute; discriminate].
  - destruct (get_sparkline [-2; 2]) as [sparkline | e] eqn:G.
    + exists sparkline. split; [reflexivity |].
      apply (sparkline_fails_iff_far_below_zero (-2) [2]); [| exact G].
      repeat constructor; unfold small_sample; lia.
    + exfalso.
      assert (Hs : Forall small_sample [-2; 2])
        by (repeat constructor; unfold small_sample; lia).
      destruct (sparkline_fails_iff_far_below_zero (-2) [2] Hs)
        as (Hiff & Honly & _).
      rewrite (Honly e G) in G. apply Hiff in G.
      destruct G as (value & [<- | [<- | []]] & Hlow);
        vm_compute in Hlow; apply Hlow; reflexivity.
Defined.

Lemma palette_monotone (i j : Z) :
  0 <= i -> i <= j -> j <= 7 ->
  (nth (Z.to_nat i) SPARKLINE_CHARS 0 <= nth (Z.to_nat j) SPARKLINE_CHARS 0)%N.
Proof.
  intros Hi Hij Hj.
  assert (Ci : i = 0 \/ i = 1 \/ i = 2 \/ i = 3 \/ i = 4 \/ i = 5 \/ i = 6 \/ i = 7)
    by lia.
  assert (Cj : j = 0 \/ j = 1 \/ j = 2 \/ j = 3 \/ j = 4 \/ j = 5 \/ j = 6 \/ j = 7)
    by lia.
  repeat (destruct Ci as [-> | Ci]);
    repeat (destruct Cj as [-> | Cj]); subst; try lia;
    vm_compute; discriminate.
Qed.

Lemma get_sparkline_nonneg (x : Z) (xs : list Z) :
  Forall (fun value => 0 <= value) (x :: xs) ->
  get_sparkline (x :: xs)
    = Ok (map (glyph_of (sparkline_max_val x xs)) (x :: xs)) /\
  forall value, In value (x :: xs) ->
    0 <= Z.quot (value * 7) (sparkline_max_val x xs) <= 7.
Proof.
  intros Hnn. pose proof (sparkline_max_val_pos x xs) as Hm.
  assert (Hidx : forall value, In value (x :: xs) ->
             0 <= Z.quot (value * 7) (sparkline_max_val x xs) <= 7).
  { intros value Hin. split; [| apply scaled_at_most_seven; exact Hin].
    rewrite Forall_forall in Hnn. specialize (Hnn value Hin).
    apply Z.quot_pos; lia. }
  split; [| exact Hidx].
  rewrite get_sparkline_unfold. apply mapM_total.
  intros value Hin. apply py_index_palette. apply Hidx. exact Hin.
Qed.

(** X9: on a history of values none of which is below zero, a larger
    value never gets a lower glyph than a smaller one: the glyphs, taken
    as positions in the palette (their code points rise along it), are
    monotone in the values. *)
Theorem sparkline_is_monotone (history : list Z) :
  Forall (fun value => 0 <= value) history ->
  exists sparkline,
    get_sparkline history = Ok sparkline /\
    forall i j v w,
      nth_error history i = Some v -> nth_error history j = Some w ->
      v <= w ->
      exists g g',
        nth_error sparkline i = Some g /\ nth_error sparkline j = Some g' /\
        (g <= g')%N.
Proof.
  intros Hnn. destruct history as [| x xs].
  - exists []. split; [reflexivity |]. intros [| i] j v w H; discriminate H.
  - destruct (get_sparkline_nonneg x xs Hnn) as [Hs Hidx].
    pose proof (sparkline_max_val_pos x xs) as Hm.
    eexists. split; [exact Hs |].
    intros i j v w Hv Hw Hle.
    exists (glyph_of (sparkline_max_val x xs) v),
           (glyph_of (sparkline_max_val x xs) w).
    rewrite !nth_error_map, Hv, Hw. split; [reflexivity |].
    split; [reflexivity |].
    apply nth_error_In in Hv, Hw. unfold glyph_of.
    apply palette_monotone.
    + apply Hidx. exact Hv.
    + apply Z.quot_le_mono; lia.
    + apply Hidx. exact Hw.
Qed.

Lemma sparkline_is_monotone_witness :
  exists sparkline,
    get_sparkline [4; 0; 9] = Ok sparkline /\
    exists g g',
      nth_error sparkline 1 = Some g /\ nth_error sparkline 0 = Some g' /\
      (g <= g')%N.
Proof.
  destruct (sparkline_is_monotone [4; 0; 9]) as (s & Hs & Hmono).
  - repeat constructor; lia.
  - exists s. split; [exact Hs |].
    apply (Hmono 1%nat 0%nat 0 4 eq_refl eq_refl). lia.
Defined.

Lemma py_max_scaled (c : Z) (xs : list Z) :
  0 <= c ->
  forall x, py_max (c * x) (map (Z.mul c) xs) = c * py_max x xs.
Proof.
  intros Hc. unfold py_max. induction xs as [| y ys IH]; intros x; simpl.
  - reflexivity.
  - rewrite Z.mul_max_distr_nonneg_l by exact Hc. apply IH.
Qed.

(** X10: the sparkline shows proportions only: multiplying every value
    of a history of values not below zero by the same factor above zero
    gives the same sparkline. *)
Theorem sparkline_ignores_common_factor (c : Z) (history : list Z) :
  0 < c ->
  Forall (fun value => 0 <= value) history ->
  get_sparkline (map (Z.mul c) history) = get_sparkline history.
Proof.
  intros Hc Hnn. destruct history as [| x xs]; [reflexivity |].
  assert (Hnn' : Forall (fun value => 0 <= value) (map (Z.mul c) (x :: xs))).
  { apply Forall_forall. intros v Hv. apply in_map_iff in Hv.
    destruct Hv as [u [<- Hu]]. rewrite Forall_forall in Hnn.
    specialize (Hnn u Hu). lia. }
  destruct (get_sparkline_nonneg x xs Hnn) as [Hs _].
  change (map (Z.mul c) (x :: xs)) with (c * x :: map (Z.mul c) xs) in *.
  destruct (get_sparkline_nonneg (c * x) (map (Z.mul c) xs) Hnn') as [Hs' _].
  rewrite Hs, Hs'. f_equal.
  change (c * x :: map (Z.mul c) xs) with (map (Z.mul c) (x :: xs)).
  rewrite map_map. apply map_ext_in. intros v Hv.
  unfold glyph_of, sparkline_max_val.
  rewrite py_max_scaled by lia.
  destruct (py_max_spec xs x) as (Hx & Hxs & _).
  assert (Hle : v <= py_max x xs).
  { destruct Hv as [<- | Hv]; [exact Hx |].
    rewrite Forall_forall in Hxs. apply Hxs. exact Hv. }
  rewrite Forall_forall in Hnn. specialize (Hnn v Hv).
  destruct (Z.ltb_spec 0 (py_max x xs)) as [Hpos | Hnp].
  - destruct (Z.ltb_spec 0 (c * py_max x xs)) as [_ | Hn]; [| nia].
    rewrite <- Z.mul_assoc, Z.quot_mul_cancel_l by lia. reflexivity.
  - destruct (Z.ltb_spec 0 (c * py_max x xs)) as [Hp | _]; [nia |].
    assert (v = 0) by lia. subst v. rewrite Z.mul_0_r. reflexivity.
Qed.

Lemma sparkline_ignores_common_factor_witness :
  get_sparkline (map (Z.mul 1000) [4; 0; 9]) = get_sparkline [4; 0; 9].
Proof.
  apply sparkline_ignores_common_factor; [lia | repeat constructor; lia].
Defined.

(** ** The layout of the table (lines 153-173, 180-184) *)

Lemma str_length_append (s t : string) :
  String.length (s ++ t) = (String.length s + String.length t)%nat.
Proof.
  induction s as [| c s IH]; simpl; [reflexivity | rewrite IH; reflexivity].
Qed.

Lemma py_mul_length (s : string) (n : Z) :
  String.length (py_mul s n) = (Z.to_nat n * String.length s)%nat.
Proof.
  unfold py_mul. induction (Z.to_nat n) as [| k IH]; simpl; [reflexivity |].
  destruct (repeat s k) as [| t ts] eqn:R.
  - destruct k; [simpl; lia | discriminate R].
  - simpl in IH |- *. rewrite str_length_append. simpl.
    destruct ts; simpl in *; rewrite ?str_length_append in *; simpl in *; lia.
Qed.

Lemma py_ljust_length (s : string) (width : Z) :
  Z.of_nat (String.length (py_ljust s width))
  = Z.max (Z.of_nat (String.length s)) width.
Proof.
  unfold py_ljust. rewrite str_length_append, py_mul_length. simpl. lia.
Qed.

Lemma py_rjust_length (s : string) (width : Z) :
  Z.of_nat (String.length (py_rjust s width))
  = Z.max (Z.of_nat (String.length s)) width.
Proof.
  unfold py_rjust. rewrite str_length_append, py_mul_length. simpl. lia.
Qed.

Lemma substring_length (s : string) :
  forall i m, (i + m <= String.length s)%nat ->
              String.length (substring i m s) = m.
Proof.
  induction s as [| c s IH]; intros i m H; simpl in H.
  - destruct i, m; simpl; lia.
  - destruct i as [| i]; simpl.
    + destruct m as [| m]; simpl; [reflexivity |].
      f_equal. apply (IH 0%nat m). lia.
    + apply IH. lia.
Qed.

Lemma substring_whole (s : string) : substring 0 (String.length s) s = s.
Proof.
  induction s as [| c s IH]; simpl; [reflexivity | rewrite IH; reflexivity].
Qed.

Lemma substring_split (s : string) :
  forall i, (i <= String.length s)%nat ->
    s = (substring 0 i s ++ substring i (String.length s - i) s)%string.
Proof.
  induction s as [| c s IH]; intros i H; simpl in H.
  - destruct i; [reflexivity | lia].
  - destruct i as [| i].
    + rewrite Nat.sub_0_r, substring_whole. reflexivity.
    + simpl. f_equal. apply IH. lia.
Qed.

Lemma topic_channel_width_value (term_width : Z) :
  topic_channel_width_of term_width = Z.max (term_width - 50) 25.
Proof. unfold topic_channel_width_of. lia. Qed.

(** The end of a name that is too long for its column: the last
    [width - 3] characters (line 184). *)
Lemma shown_name_cases (width : Z) (channel : AC.t) :
  25 <= width ->
  let name := row_key channel in
  (Z.of_nat (String.length name) <= width /\ shown_name width channel = name) \/
  (width < Z.of_nat (String.length name) /\
   exists dropped kept,
     name = (dropped ++ kept)%string /\
     Z.of_nat (String.length kept) = width - 3 /\
     shown_name width channel = ("..." ++ kept)%string).
Proof.
  intros Hw name. unfold shown_name. fold (row_key channel). fold name.
  destruct (Z.ltb_spec width (Z.of_nat (String.length name))) as [Hlong | Hfits].
  - right. split; [exact Hlong |].
    unfold py_from.
    destruct (Z.ltb_spec (- (width - 3)) 0) as [_ | Hn]; [| lia].
    set (n := String.length name) in *.
    replace (Z.to_nat (Z.max 0 (- (width - 3) + Z.of_nat n)))
      with (n - Z.to_nat (width - 3))%nat by lia.
    replace (Z.to_nat (Z.of_nat n - Z.max 0 (- (width - 3) + Z.of_nat n)))
      with (Z.to_nat (width - 3)) by lia.
    exists (substring 0 (n - Z.to_nat (width - 3)) name),
           (substring (n - Z.to_nat (width - 3)) (Z.to_nat (width - 3)) name).
    split; [| split; [| reflexivity]].
    + pose proof (substring_split name (n - Z.to_nat (width - 3))%nat
                    ltac:(unfold n; lia)) as Hs.
      fold n in Hs.
      replace (n - (n - Z.to_nat (width - 3)))%nat
        with (Z.to_nat (width - 3)) in Hs by lia.
      exact Hs.
    + rewrite substring_length by (fold n; lia). lia.
  - left. split; [exact Hfits | reflexivity].
Qed.

(** X11: the column of names is 25 characters wide or whatever the
    terminal leaves after 50 columns, whichever is more; the border and
    the heading are then exactly as wide as the terminal when it has 75
    columns or more, and 75 wide on a narrower one; and the name cell of
    every row fills its column exactly, whatever the length of the name. *)
Theorem table_is_as_wide_as_the_terminal (term_width : Z) :
  let width := topic_channel_width_of term_width in
  width = Z.max (term_width - 50) 25 /\
  Z.of_nat (String.length (separator_of width)) = Z.max term_width 75 /\
  Z.of_nat (String.length (header_row_of width)) = Z.max term_width 75 /\
  forall channel,
    Z.of_nat (String.length (cell_topic_channel (draw_row width channel)))
    = width.
Proof.
  cbv zeta. rewrite topic_channel_width_value.
  set (width := Z.max (term_width - 50) 25).
  assert (Hw : 25 <= width) by (unfold width; lia).
  split; [reflexivity |]. split; [| split].
  - unfold separator_of. rewrite !str_length_append, !py_mul_length.
    simpl String.length. unfold width. lia.
  - unfold header_row_of.
    rewrite !str_length_append.
    pose proof (py_ljust_length "Topic/Channel" width) as H1.
    pose proof (py_rjust_length "Depth" 9) as H2.
    pose proof (py_rjust_length "In-Flight" 9) as H3.
    pose proof (py_rjust_length "Rate/sec" 8) as H4.
    pose proof (py_rjust_length "Rate/min" 8) as H5.
    simpl String.length in *. unfold width in *. lia.
  - intros channel. unfold draw_row. cbn [cell_topic_channel].
    rewrite py_ljust_length.
    destruct (shown_name_cases width channel Hw)
      as [[Hfits ->] | [Hlong (dropped & kept & _ & Hk & ->)]].
    + lia.
    + rewrite str_length_append. simpl String.length. lia.
Qed.

(** X12: a name that fits its column is shown whole; a longer one is
    shown as three dots followed by its last characters, as many as fill
    the column, so that the end of the name, where the channel is, stays
    visible. *)
Theorem long_names_keep_their_end (term_width : Z) (channel : AC.t) :
  let width := topic_channel_width_of term_width in
  let name := row_key channel in
  (Z.of_nat (String.length name) <= width -> shown_name width channel = name) /\
  (width < Z.of_nat (String.length name) ->
   exists dropped kept,
     name = (dropped ++ kept)%string /\
     Z.of_nat (String.length kept) = width - 3 /\
     shown_name width channel = ("..." ++ kept)%string /\
     Z.of_nat (String.length (shown_name width channel)) = width).
Proof.
  cbv zeta.
  assert (Hw : 25 <= topic_channel_width_of term_width)
    by (rewrite topic_channel_width_value; lia).
  destruct (shown_name_cases _ channel Hw)
    as [[Hfits Hs] | [Hlong (dropped & kept & Hn & Hk & Hs)]].
  - split; [intros _; exact Hs | lia].
  - split; [lia |]. intros _. exists dropped, kept.
    repeat split; try assumption.
    rewrite Hs, str_length_append. simpl String.length. lia.
Qed.

(** ** The rows shown and the rows left out (lines 176-221) *)

Lemma draw_ui_table (term_width term_height : Z) (channels : list AC.t)
    (total_in_flight : Z) (inflight_history : list Z) (t : table) :
  draw_ui term_width term_height channels total_in_flight inflight_history None
    = Ok (Dashboard t) ->
  table_rows t =
    map (draw_row (topic_channel_width_of term_width))
        (py_upto (term_height - 12) channels) /\
  table_more t =
    (if term_height - 12 <? Z.of_nat (List.length channels)
     then Some (Z.of_nat (List.length channels) - (term_height - 12))
     else None) /\
  get_sparkline inflight_history = Ok (summary_trend t) /\
  summary_channels t = List.length channels /\
  summary_total_in_flight t = total_in_flight.
Proof.
  unfold draw_ui. intros H. apply bind_Ok in H.
  destruct H as [sparkline [Hs H]]. injection H as <-.
  cbn. repeat split. exact Hs.
Qed.

(** X13: on a terminal of 12 lines or more the table shows the first
    channels of the list it is given, as many as there are lines beyond
    the twelfth, and when some are left out the note below the table
    counts exactly those; rows shown and rows counted as left out add up
    to the number of channels.  On a terminal of fewer than 12 lines the
    note is always there and counts more channels than exist. *)
Theorem rows_shown_and_left_out (term_width term_height : Z)
    (channels : list AC.t) (total_in_flight : Z) (inflight_history : list Z)
    (t : table) :
  draw_ui term_width term_height channels total_in_flight inflight_history None
    = Ok (Dashboard t) ->
  let n := Z.of_nat (List.length channels) in
  let shown := Z.of_nat (List.length (table_rows t)) in
  (12 <= term_height ->
   table_rows t =
     map (draw_row (topic_channel_width_of term_width))
         (firstn (Z.to_nat (term_height - 12)) channels) /\
   shown = Z.min n (term_height - 12) /\
   (table_more t = None <-> n <= term_height - 12) /\
   (forall left_out, table_more t = Some left_out ->
                     0 < left_out /\ shown + left_out = n)) /\
  (term_height < 12 ->
   shown = Z.max 0 (n - (12 - term_height)) /\
   table_more t = Some (n + (12 - term_height))).
Proof.
  intros H. cbv zeta.
  destruct (draw_ui_table _ _ _ _ _ _ H) as (Hrows & Hmore & _).
  rewrite Hrows, Hmore, length_map. unfold py_upto.
  split; intros Hh.
  - destruct (Z.ltb_spec (term_height - 12) 0) as [Hneg | _]; [lia |].
    assert (Hlen : Z.of_nat
              (List.length
                 (firstn (Z.to_nat (Z.min (term_height - 12)
                                          (Z.of_nat (List.length channels))))
                         channels))
            = Z.min (Z.of_nat (List.length channels)) (term_height - 12))
      by (rewrite length_firstn; lia).
    split; [| split; [exact Hlen | split]].
    + f_equal.
      destruct (Z_le_gt_dec (term_height - 12) (Z.of_nat (List.length channels)))
        as [Hle | Hgt].
      * rewrite Z.min_l by exact Hle. reflexivity.
      * rewrite Z.min_r by lia. rewrite Nat2Z.id.
        rewrite !firstn_all2 by lia. reflexivity.
    + destruct (Z.ltb_spec (term_height - 12) (Z.of_nat (List.length channels)));
        split; intros; try discriminate; try reflexivity; lia.
    + intros left_out Hl. rewrite Hlen.
      destruct (Z.ltb_spec (term_height - 12) (Z.of_nat (List.length channels)));
        [| discriminate Hl].
      injection Hl as <-. lia.
  - destruct (Z.ltb_spec (term_height - 12) 0) as [_ | Hn]; [| lia].
    split.
    + rewrite length_firstn. lia.
    + destruct (Z.ltb_spec (term_height - 12) (Z.of_nat (List.length channels)));
        [f_equal; lia | lia].
Qed.

Lemma rows_shown_and_left_out_witness :
  exists t,
    draw_ui 80 14 [rated_zero "t" "a" 9 0 0; rated_zero "t" "b" 5 0 0;
                   rated_zero "t" "c" 1 0 0] 0 [0] None = Ok (Dashboard t) /\
    Z.of_nat (List.length (table_rows t)) = 2 /\
    table_more t = Some 1.
Proof.
  eexists. split; [reflexivity |].
  destruct (rows_shown_and_left_out 80 14
              [rated_zero "t" "a" 9 0 0; rated_zero "t" "b" 5 0 0;
               rated_zero "t" "c" 1 0 0] 0 [0] _ eq_refl) as [Htall _].
  destruct (Htall ltac:(lia)) as (_ & Hshown & _). cbv zeta in Hshown.
  split; [exact Hshown | reflexivity].
Defined.

Lemma in_firstn {A} (k : nat) (l : list A) (x : A) :
  In x (firstn k l) -> In x l.
Proof.
  intros H. rewrite <- (firstn_skipn k l). apply in_or_app. left. exact H.
Qed.

Lemma in_skipn {A} (k : nat) (l : list A) (x : A) :
  In x (skipn k l) -> In x l.
Proof.
  intros H. rewrite <- (firstn_skipn k l). apply in_or_app. right. exact H.
Qed.

Lemma sorted_firstn (l : list AC.t) :
  StronglySorted depth_ge l ->
  forall k, StronglySorted depth_ge (firstn k l).
Proof.
  induction 1 as [| x l Hs IH Hall]; intros k.
  - rewrite firstn_nil. constructor.
  - destruct k as [| k]; simpl; [constructor |].
    constructor; [apply IH |].
    rewrite Forall_forall in *. intros y Hy. apply Hall.
    eapply in_firstn. exact Hy.
Qed.

Lemma sorted_firstn_skipn (l : list AC.t) (k : nat) (shown hidden : AC.t) :
  StronglySorted depth_ge l ->
  In shown (firstn k l) -> In hidden (skipn k l) ->
  AC.depth hidden <= AC.depth shown.
Proof.
  revert k. induction l as [| x l IH]; intros k Hs Hshown Hhidden.
  - destruct k; destruct Hshown.
  - inversion Hs as [| ? ? Hs' Hall]; subst.
    destruct k as [| k]; [destruct Hshown |].
    simpl in Hshown, Hhidden. destruct Hshown as [<- | Hshown].
    + rewrite Forall_forall in Hall.
      apply (Hall hidden). eapply in_skipn. exact Hhidden.
    + exact (IH k Hs' Hshown Hhidden).
Qed.

(** X14: what [process_stats] returns and [draw_ui] then shows: the rows
    of the table are in descending order of depth, and no channel left
    out of the table has more depth than a channel shown in it. *)
Theorem table_shows_the_deepest_channels (nsqd_stats : list BS.t)
    (previous_stats : option (dict AC.t)) (interval_seconds : Z)
    (channels : list AC.t) (total_in_flight : Z)
    (term_width term_height : Z) (inflight_history : list Z) (t : table) :
  process_stats nsqd_stats previous_stats interval_seconds
    = Ok (channels, total_in_flight) ->
  draw_ui term_width term_height channels total_in_flight inflight_history None
    = Ok (Dashboard t) ->
  exists shown left_out,
    channels = shown ++ left_out /\
    table_rows t = map (draw_row (topic_channel_width_of term_width)) shown /\
    StronglySorted (fun a b => cell_depth b <= cell_depth a) (table_rows t) /\
    forall row channel,
      In row (table_rows t) -> In channel left_out ->
      AC.depth channel <= cell_depth row.
Proof.
  intros Hps Hdraw.
  destruct (draw_ui_table _ _ _ _ _ _ Hdraw) as (Hrows & _).
  assert (Hsorted : StronglySorted depth_ge channels).
  { unfold process_stats in Hps. destruct (aggregate nsqd_stats) as [cd total].
    apply bind_Ok in Hps. destruct Hps as [cd' [_ Hps]].
    injection Hps as <- _. apply sorted_by_depth_desc_sorted. }
  unfold py_upto in Hrows.
  set (k := Z.to_nat
              (if term_height - 12 <? 0
               then Z.max 0 (term_height - 12 + Z.of_nat (List.length channels))
               else Z.min (term_height - 12) (Z.of_nat (List.length channels))))
    in Hrows.
  exists (firstn k channels), (skipn k channels).
  split; [symmetry; apply firstn_skipn |]. split; [exact Hrows |].
  rewrite Hrows. split.
  - assert (Hpre := sorted_firstn channels Hsorted k). clear Hrows.
    induction Hpre as [| x l Hs IH Hall]; simpl; constructor.
    + exact IH.
    + apply Forall_forall. intros row Hrow. apply in_map_iff in Hrow.
      destruct Hrow as [y [<- Hy]]. rewrite Forall_forall in Hall.
      exact (Hall y Hy).
  - intros row channel Hrow Hch. apply in_map_iff in Hrow.
    destruct Hrow as [y [<- Hy]]. cbn [draw_row cell_depth].
    exact (sorted_firstn_skipn channels k y channel Hsorted Hy Hch).
Qed.

Lemma table_shows_the_deepest_channels_witness :
  exists t,
    draw_ui 80 13 [rated_zero "t" "b" 9 0 0; rated_zero "t" "a" 5 0 0] 0 [0] None
      = Ok (Dashboard t) /\
    StronglySorted (fun a b => cell_depth b <= cell_depth a) (table_rows t).
Proof.
  destruct (draw_ui 80 13 [rated_zero "t" "b" 9 0 0; rated_zero "t" "a" 5 0 0]
                    0 [0] None) as [[m | t] | e] eqn:D.
  - vm_compute in D. discriminate D.
  - exists t. split; [reflexivity |].
    destruct (table_shows_the_deepest_channels
                [broker_doc "t" "a" 5 0 0 0; broker_doc "t" "b" 9 0 0 0] None 2
                [rated_zero "t" "b" 9 0 0; rated_zero "t" "a" 5 0 0] 0
                80 13 [0] t eq_refl D)
      as (shown & left_out & _ & _ & Hsorted & _).
    exact Hsorted.
  - vm_compute in D. discriminate D.
Defined.

(** ** The rate cells (lines 188-208) *)

Lemma rate_cell_none (q : Q) :
  (0 <= q)%Q -> (rate_cell (Some q) = None <-> (q == 0)%Q).
Proof.
  unfold rate_cell, Qle, Qeq. simpl. intros H.
  destruct (Z.ltb_spec 0 (Qnum q)); split; intros; try discriminate;
    try reflexivity; lia.
Qed.

Lemma rate_cell_some (q : Q) :
  (0 <= q)%Q -> ~ (q == 0)%Q -> rate_cell (Some q) = Some q.
Proof.
  unfold rate_cell, Qle, Qeq. simpl. intros H Hn.
  destruct (Z.ltb_spec 0 (Qnum q)); [reflexivity | lia].
Qed.

(** The two rates of a returned record, with an interval above zero. *)
Lemma rates_of_rows (nsqd_stats : list BS.t)
    (previous_stats : option (dict AC.t)) (interval_seconds : Z)
    (channels : list AC.t) (total_in_flight : Z) (r : AC.t) :
  0 < interval_seconds ->
  process_stats nsqd_stats previous_stats interval_seconds
    = Ok (channels, total_in_flight) ->
  In r channels ->
  exists per_second per_minute,
    AC.rate_per_second r = Some per_second /\
    AC.rate_per_minute r = Some per_minute /\
    (0 <= per_second)%Q /\ (per_minute == per_second * inject_Z 60)%Q.
Proof.
  intros Hpos H Hin. apply (in_rows _ _ _ _ _ r H) in Hin.
  destruct Hin as (r0 & _ & Hr). unfold annotate_entry in Hr.
  set (k := row_key r) in Hr. clearbody k. subst r.
  destruct (truthy previous_stats) as [previous |].
  - eexists _, _. cbn [rated snd set_rates AC.rate_per_second
                        AC.rate_per_minute].
    split; [reflexivity |]. split; [reflexivity |].
    split; [apply rate_of_nonneg; exact Hpos | apply Qred_correct].
  - exists 0%Q, 0%Q. split; [reflexivity |]. split; [reflexivity |].
    split; [discriminate | reflexivity].
Qed.

(** X15: with an interval above zero every record [process_stats]
    returns carries both rates, the per-second one not below zero and
    the per-minute one sixty times it; in the table the two rate cells of
    a row show the dashes together, exactly when the rate is zero, and
    the rates themselves otherwise. *)
Theorem rate_cells_show_dashes_iff_zero (nsqd_stats : list BS.t)
    (previous_stats : option (dict AC.t)) (interval_seconds : Z)
    (channels : list AC.t) (total_in_flight : Z) (width : Z) (r : AC.t) :
  0 < interval_seconds ->
  process_stats nsqd_stats previous_stats interval_seconds
    = Ok (channels, total_in_flight) ->
  In r channels ->
  exists per_second per_minute,
    AC.rate_per_second r = Some per_second /\
    AC.rate_per_minute r = Some per_minute /\
    (0 <= per_second)%Q /\ (per_minute == per_second * inject_Z 60)%Q /\
    (cell_rate_sec (draw_row width r) = None <-> (per_second == 0)%Q) /\
    (cell_rate_min (draw_row width r) = None <-> (per_second == 0)%Q) /\
    (~ (per_second == 0)%Q ->
     cell_rate_sec (draw_row width r) = Some per_second /\
     cell_rate_min (draw_row width r) = Some per_minute).
Proof.
  intros Hpos H Hin.
  destruct (rates_of_rows _ _ _ _ _ r Hpos H Hin)
    as (ps & pm & Hps & Hpm & Hnn & Hmin).
  exists ps, pm. unfold draw_row. cbn [cell_rate_sec cell_rate_min].
  rewrite Hps, Hpm.
  assert (Hnn' : (0 <= pm)%Q).
  { rewrite Hmin. apply Qmult_le_0_compat; [exact Hnn | discriminate]. }
  assert (Hz : (pm == 0)%Q <-> (ps == 0)%Q).
  { rewrite Hmin. split; intros Hq.
    - apply Qmult_integral in Hq. destruct Hq as [Hq | Hq];
        [exact Hq | discriminate Hq].
    - rewrite Hq. reflexivity. }
  repeat split; try assumption.
  - apply rate_cell_none. exact Hnn.
  - apply rate_cell_none. exact Hnn.
  - intros Hn. apply Hz. apply rate_cell_none; assumption.
  - intros Hq. apply rate_cell_none; [exact Hnn' | apply Hz; exact Hq].
  - apply rate_cell_some; assumption.
  - apply rate_cell_some; [exact Hnn' |]. rewrite Hz. assumption.
Qed.

Lemma rate_cells_show_dashes_iff_zero_witness :
  exists per_second,
    AC.rate_per_second (rated_zero "orders" "billing" 0 0 10) = Some per_second /\
    (cell_rate_sec (draw_row 30 (rated_zero "orders" "billing" 0 0 10)) = None
     <-> (per_second == 0)%Q).
Proof.
  destruct (rate_cells_show_dashes_iff_zero
              [broker_doc "orders" "billing" 0 0 0 5] None 2
              [rated_zero "orders" "billing" 0 0 10] 0 30
              (rated_zero "orders" "billing" 0 0 10)
              ltac:(lia) eq_refl (or_introl eq_refl))
    as (ps & pm & Hps & _ & _ & _ & Hsec & _).
  exists ps. split; [exact Hps | exact Hsec].
Defined.

(** ** Drawing inside the loop (lines 294-309) *)






Lemma update_history_nonneg (h : list Z) (x : Z) :
  Forall (fun value => 0 <= value) h -> 0 <= x ->
  Forall (fun value => 0 <= value) (update_history h x).
Proof.
  intros Hh Hx. unfold update_history.
  assert (Hall : Forall (fun value => 0 <= value) (h ++ [x])).
  { apply Forall_app. split; [exact Hh | constructor; [exact Hx | constructor]]. }
  destruct (SPARKLINE_LENGTH <? List.length (h ++ [x]))%nat; [| exact Hall].
  destruct (h ++ [x]) as [| a l]; [constructor |].
  inversion Hall; assumption.
Qed.

Lemma get_sparkline_nonneg_length (history : list Z) :
  Forall (fun value => 0 <= value) history ->
  exists sparkline,
    get_sparkline history = Ok sparkline /\
    List.length sparkline = List.length history.
Proof.
  intros Hnn. destruct history as [| x xs].
  - exists []. split; reflexivity.
  - destruct (get_sparkline_nonneg x xs Hnn) as [Hs _].
    eexists. split; [exact Hs | apply length_map].
Qed.

(** ** A cycle in which no broker answers (lines 298-302) *)

Lemma process_stats_no_baseline (nsqd_stats : list BS.t)
    (previous_stats : option (dict AC.t)) (interval_seconds : Z) :
  truthy previous_stats = None ->
  exists sorted_channels total_in_flight,
    process_stats nsqd_stats previous_stats interval_seconds
      = Ok (sorted_channels, total_in_flight) /\
    forall r, In r sorted_channels ->
      AC.rate_per_second r = Some 0%Q /\ AC.rate_per_minute r = Some 0%Q.
Proof.
  intros Ht.
  assert (H : process_stats nsqd_stats previous_stats interval_seconds
              = Ok (sorted_by_depth_desc
                      (dict_values (map zero_entry (fst (aggregate nsqd_stats)))),
                    snd (aggregate nsqd_stats))).
  { unfold process_stats. destruct (aggregate nsqd_stats) as [cd total].
    rewrite annotate_rates_zero by exact Ht. reflexivity. }
  eexists _, _. split; [exact H |].
  intros r Hin. apply (in_rows _ _ _ _ _ r H) in Hin.
  destruct Hin as (r0 & _ & Hr). unfold annotate_entry in Hr.
  rewrite Ht in Hr. rewrite Hr. split; reflexivity.
Qed.

Lemma process_stats_nil (previous_stats : option (dict AC.t))
    (interval_seconds : Z) :
  process_stats [] previous_stats interval_seconds = Ok ([], 0).
Proof.
  unfold process_stats, annotate_rates. simpl.
  destruct (truthy previous_stats); reflexivity.
Qed.

(** X7: a cycle that resolves its nodes but gets no answer from any of
    them (or resolves none) comes to its end, whatever the interval from
    zero up that the sleep accepts, when the history it has holds no
    value below zero: it shows
    a table without rows, no error, and replaces the previous mapping by
    an empty one.  The cycle after it, when it draws its table, has
    therefore computed every rate as zero, and its rate cells show the
    two dashes; this is unlike the cycle after a resolution failure. *)
Theorem unanswered_cycle_resets_baseline (lookupd_urls : list string)
    (interval : Z) (st : loop_state) (env : surroundings)
    (nodes : list Producer.t) :
  0 <= interval < 2 ^ 31 ->
  get_nsqd_nodes (http_get_nodes (around_net env)) lookupd_urls = Nodes nodes ->
  (forall node, In node nodes ->
     answered (http_get_stats (around_net env)) node = false) ->
  Forall (fun value => 0 <= value) (inflight_history st) ->
  exists st' t,
    drawn_cycle lookupd_urls interval st env = Ok (st', Dashboard t) /\
    table_rows t = [] /\
    summary_channels t = 0%nat /\
    summary_total_in_flight t = 0 /\
    previous_channel_stats st' = Some [] /\
    inflight_history st' = update_history (inflight_history st) 0 /\
    forall (next : surroundings) (st'' : loop_state) (t' : table),
      drawn_cycle lookupd_urls interval st' next = Ok (st'', Dashboard t') ->
      exists nodes' channels total_in_flight,
        get_nsqd_nodes (http_get_nodes (around_net next)) lookupd_urls
          = Nodes nodes' /\
        process_stats (get_all_stats (http_get_stats (around_net next)) nodes')
                      (Some []) interval = Ok (channels, total_in_flight) /\
        (forall r, In r channels ->
           AC.rate_per_second r = Some 0%Q /\ AC.rate_per_minute r = Some 0%Q) /\
        previous_channel_stats st'' = Some (index_channels channels) /\
        forall row, In row (table_rows t') ->
          cell_rate_sec row = None /\ cell_rate_min row = None.
Proof.
  intros [Hint _] Hnodes Hdown Hnn.
  assert (Hnil := get_all_stats_all_failed
                    (http_get_stats (around_net env)) nodes Hdown).
  assert (Hsleep : time_sleep interval = Ok tt).
  { unfold time_sleep. destruct (Z.ltb_spec interval 0); [lia | reflexivity]. }
  assert (Hnn' := update_history_nonneg _ 0 Hnn (Z.le_refl 0)).
  destruct (get_sparkline_nonneg_length _ Hnn') as (sparkline & Hs & _).
  unfold drawn_cycle at 1, poll. rewrite Hnodes, Hnil, process_stats_nil.
  cbn [bind]. unfold draw_ui. rewrite Hs. cbn [bind]. rewrite Hsleep. cbn [bind].
  eexists _, _. split; [reflexivity |].
  cbn [table_rows summary_channels summary_total_in_flight
       previous_channel_stats inflight_history].
  split; [unfold py_upto; rewrite firstn_nil; reflexivity |].
  repeat (split; [reflexivity |]).
  intros next st'' t' Hnext.
  pose proof (drawn_cycle_Ok _ _ _ _ _ _ Hnext) as [_ H].
  cbn [previous_channel_stats] in H.
  destruct (get_nsqd_nodes (http_get_nodes (around_net next)) lookupd_urls)
    as [error' | nodes'].
  - destruct H as [H _]. discriminate H.
  - destruct H as (channels & total & t0 & Hps & Hprev & Ht & _ & _ & _ & Hrows).
    injection Ht as <-.
    destruct (process_stats_no_baseline
                (get_all_stats (http_get_stats (around_net next)) nodes')
                (Some []) interval eq_refl) as (chans & tot & Hps' & Hzero).
    assert (E := eq_trans (eq_sym Hps) Hps'). injection E as <- <-.
    exists nodes', channels, total.
    split; [reflexivity |]. split; [exact Hps |]. split; [exact Hzero |].
    split; [exact Hprev |].
    intros row Hrow. rewrite Hrows in Hrow. apply in_map_iff in Hrow.
    destruct Hrow as (r & <- & Hr). unfold py_upto in Hr.
    apply in_firstn in Hr. destruct (Hzero r Hr) as [H1 H2].
    cbn [draw_row cell_rate_sec cell_rate_min]. rewrite H1, H2.
    split; reflexivity.
Qed.

(** An unanswered cycle after one that kept a count of 200, and then a
    cycle that reports 130: the table of the latter shows no rate. *)
Lemma unanswered_cycle_resets_baseline_witness :
  exists st' t,
    drawn_cycle ["http://a:4161"] 2
      {| inflight_history := [3];
         previous_channel_stats := Some [("orders/billing", counted 200)] |}
      (at_terminal {| http_get_nodes := one_then_down;
                      http_get_stats := fun _ _ => StatsFailed |})
      = Ok (st', Dashboard t) /\
    table_rows t = [] /\
    previous_channel_stats st' = Some [] /\
    exists st'' t',
      drawn_cycle ["http://a:4161"] 2 st' (at_terminal (net_up 130))
        = Ok (st'', Dashboard t') /\
      map cell_rate_sec (table_rows t') = [None].
Proof.
  destruct (unanswered_cycle_resets_baseline
              ["http://a:4161"] 2
              {| inflight_history := [3];
                 previous_channel_stats := Some [("orders/billing", counted 200)] |}
              (at_terminal {| http_get_nodes := one_then_down;
                              http_get_stats := fun _ _ => StatsFailed |})
              [Producer.mk "10.0.0.1" 4151 "nsqd-1"]
              ltac:(lia) eq_refl)
    as (st' & t & Hc & Hrows & _ & _ & Hp & Hh & Hnext).
  - intros node [<- | []]. reflexivity.
  - repeat constructor. lia.
  - exists st', t. split; [exact Hc |]. split; [exact Hrows |].
    split; [exact Hp |].
    destruct (drawn_cycle ["http://a:4161"] 2 st' (at_terminal (net_up 130)))
      as [[st'' [message | t']] | e] eqn:D.
    + exfalso. pose proof (drawn_cycle_Ok _ _ _ _ _ _ D) as [_ H].
      vm_compute in H.
      destruct H as (? & ? & ? & _ & _ & H & _). discriminate H.
    + exists st'', t'. split; [reflexivity |].
      destruct (Hnext _ _ _ D) as (_ & _ & _ & _ & _ & _ & _ & Hcells).
      pose proof (drawn_cycle_Ok _ _ _ _ _ _ D) as [_ H].
      change (get_nsqd_nodes
                (http_get_nodes (around_net (at_terminal (net_up 130))))
                ["http://a:4161"])
        with (Nodes [Producer.mk "10.0.0.1" 4151 "nsqd-1"]) in H.
      destruct H as (channels & total & t0 & Hps & _ & Ht & _ & _ & _ & Hr).
      injection Ht as <-. rewrite Hp in Hps. vm_compute in Hps.
      injection Hps as <- _.
      destruct (table_rows t') as [| row [| row' rows]];
        try discriminate Hr.
      simpl. f_equal. apply Hcells. left. reflexivity.
    + exfalso. unfold drawn_cycle, poll in D. rewrite Hp, Hh in D.
      vm_compute in D. discriminate D.
Defined.






(** ** Stripping and splitting (lines 240, 268) *)

Lemma py_lstrip_chars (s : string) (c : Ascii.ascii) :
  In c (chars (py_lstrip s)) -> In c (chars s).
Proof.
  induction s as [| a s IH]; simpl; [tauto |].
  destruct (py_isspace a); [intros H; right; exact (IH H) | tauto].
Qed.

Lemma py_rstrip_chars (s : string) (c : Ascii.ascii) :
  In c (chars (py_rstrip s)) -> In c (chars s).
Proof.
  induction s as [| a s IH]; simpl; [tauto |].
  destruct (py_rstrip s) as [| b kept].
  - destruct (py_isspace a); simpl; [tauto | intros [H | []]; left; exact H].
  - simpl. intros [H | H]; [left; exact H | right; apply IH; exact H].
Qed.

Lemma py_lstrip_head (s : string) :
  py_lstrip s = EmptyString \/
  exists c rest, py_lstrip s = String c rest /\ py_isspace c = false.
Proof.
  induction s as [| a s IH]; simpl; [left; reflexivity |].
  destruct (py_isspace a) eqn:E; [exact IH |].
  right. exists a, s. split; [reflexivity | exact E].
Qed.

Lemma py_lstrip_fixed (c : Ascii.ascii) (rest : string) :
  py_isspace c = false -> py_lstrip (String c rest) = String c rest.
Proof. intros H. simpl. rewrite H. reflexivity. Qed.

Lemma py_rstrip_empty_iff (s : string) :
  py_rstrip s = EmptyString <-> forall c, In c (chars s) -> py_isspace c = true.
Proof.
  induction s as [| a s IH]; simpl.
  - split; [intros _ c [] | reflexivity].
  - destruct (py_rstrip s) as [| b kept].
    + destruct (py_isspace a) eqn:E.
      * split; [| reflexivity]. intros _ c [<- | Hc]; [exact E |].
        apply IH; [reflexivity | exact Hc].
      * split; [discriminate |]. intros H.
        specialize (H a (or_introl eq_refl)). congruence.
    + split; [discriminate |]. intros H.
      assert (Hs : String b kept = EmptyString)
        by (apply IH; intros c Hc; apply H; right; exact Hc).
      discriminate Hs.
Qed.

Lemma py_lstrip_empty_iff (s : string) :
  py_lstrip s = EmptyString <-> forall c, In c (chars s) -> py_isspace c = true.
Proof.
  induction s as [| a s IH]; simpl.
  - split; [intros _ c [] | reflexivity].
  - destruct (py_isspace a) eqn:E.
    + rewrite IH. split.
      * intros H c [<- | Hc]; [exact E | exact (H c Hc)].
      * intros H c Hc. apply H. right. exact Hc.
    + split; [discriminate |]. intros H.
      specialize (H a (or_introl eq_refl)). congruence.
Qed.

Lemma py_rstrip_idem (s : string) : py_rstrip (py_rstrip s) = py_rstrip s.
Proof.
  induction s as [| a s IH]; simpl; [reflexivity |].
  destruct (py_rstrip s) as [| b kept] eqn:R.
  - destruct (py_isspace a) eqn:E; simpl; [reflexivity | rewrite E; reflexivity].
  - simpl in IH |- *. rewrite IH. reflexivity.
Qed.

Lemma py_rstrip_keeps_head (c : Ascii.ascii) (rest : string) :
  py_isspace c = false ->
  exists kept, py_rstrip (String c rest) = String c kept.
Proof.
  intros H. simpl. destruct (py_rstrip rest) as [| b kept].
  - rewrite H. exists EmptyString. reflexivity.
  - exists (String b kept). reflexivity.
Qed.

Lemma py_strip_idem (s : string) : py_strip (py_strip s) = py_strip s.
Proof.
  unfold py_strip.
  destruct (py_lstrip_head s) as [-> | (c & rest & -> & Hc)]; [reflexivity |].
  destruct (py_rstrip_keeps_head c rest Hc) as [kept Hk].
  rewrite Hk, (py_lstrip_fixed c kept Hc), <- Hk. apply py_rstrip_idem.
Qed.

Lemma py_strip_chars (s : string) (c : Ascii.ascii) :
  In c (chars (py_strip s)) -> In c (chars s).
Proof.
  intros H. apply py_lstrip_chars, py_rstrip_chars. exact H.
Qed.

Lemma py_strip_empty_iff (s : string) :
  py_strip s = EmptyString <-> forall c, In c (chars s) -> py_isspace c = true.
Proof.
  unfold py_strip. split.
  - intros H. destruct (py_lstrip_head s) as [E | (c & rest & E & Hc)].
    + apply py_lstrip_empty_iff. exact E.
    + rewrite E in H. destruct (py_rstrip_keeps_head c rest Hc) as [kept Hk].
      rewrite Hk in H. discriminate H.
  - intros H. apply py_lstrip_empty_iff in H. rewrite H. reflexivity.
Qed.

Lemma py_rstrip_app (p t : string) :
  py_rstrip t <> EmptyString ->
  py_rstrip (p ++ t) = (p ++ py_rstrip t)%string.
Proof.
  intros Ht. induction p as [| a p IH]; simpl; [reflexivity |].
  rewrite IH. destruct (p ++ py_rstrip t)%string as [| b kept] eqn:E;
    [| reflexivity].
  destruct p; simpl in E; [congruence | discriminate E].
Qed.

Lemma py_split_not_nil (sep : Ascii.ascii) (s : string) : py_split sep s <> [].
Proof.
  destruct s as [| a s]; simpl; [discriminate |].
  destruct (Ascii.eqb a sep); [discriminate |].
  destruct (py_split sep s); discriminate.
Qed.

Lemma py_split_pieces (sep : Ascii.ascii) (s : string) :
  (forall piece c, In piece (py_split sep s) -> In c (chars piece) ->
                   In c (chars s) /\ c <> sep) /\
  (forall c, In c (chars s) ->
             c = sep \/ exists piece, In piece (py_split sep s) /\ In c (chars piece)).
Proof.
  induction s as [| a s [IH1 IH2]]; simpl.
  - split; [intros piece c [<- | []] [] | intros c []].
  - destruct (Ascii.eqb_spec a sep) as [-> | Hne].
    + split.
      * intros piece c [<- | Hp] Hc; [destruct Hc |].
        destruct (IH1 piece c Hp Hc) as [H1 H2]. split; [right; exact H1 | exact H2].
      * intros c [<- | Hc]; [left; reflexivity |].
        destruct (IH2 c Hc) as [H | [piece [Hp Hin]]]; [left; exact H |].
        right. exists piece. split; [right; exact Hp | exact Hin].
    + pose proof (py_split_not_nil sep s) as Hnn.
      destruct (py_split sep s) as [| q qs]; [congruence |]. split.
      * intros piece c [<- | Hp] Hc.
        -- simpl in Hc. destruct Hc as [<- | Hc]; [split; [left; reflexivity | exact Hne] |].
           destruct (IH1 q c (or_introl eq_refl) Hc) as [H1 H2].
           split; [right; exact H1 | exact H2].
        -- destruct (IH1 piece c (or_intror Hp) Hc) as [H1 H2].
           split; [right; exact H1 | exact H2].
      * intros c [<- | Hc].
        -- right. exists (String a q). split; [left; reflexivity | left; reflexivity].
        -- destruct (IH2 c Hc) as [H | [piece [[<- | Hp] Hin]]]; [left; exact H | |].
           ++ right. exists (String a q). split; [left; reflexivity | right; exact Hin].
           ++ right. exists piece. split; [right; exact Hp | exact Hin].
Qed.

Lemma py_split_whole (sep : Ascii.ascii) (p : string) :
  ~ In sep (chars p) -> py_split sep p = [p].
Proof.
  induction p as [| a p IH]; simpl; intros H; [reflexivity |].
  destruct (Ascii.eqb_spec a sep) as [-> | Hne]; [exfalso; apply H; left; reflexivity |].
  rewrite IH by (intros Hin; apply H; right; exact Hin). reflexivity.
Qed.

Lemma py_split_app (sep : Ascii.ascii) (p rest : string) :
  ~ In sep (chars p) ->
  py_split sep (p ++ String sep rest) = p :: py_split sep rest.
Proof.
  induction p as [| a p IH]; simpl; intros H.
  - rewrite Ascii.eqb_refl. reflexivity.
  - destruct (Ascii.eqb_spec a sep) as [-> | Hne]; [exfalso; apply H; left; reflexivity |].
    rewrite IH by (intros Hin; apply H; right; exact Hin). reflexivity.
Qed.

(** Joining pieces that hold no separator and splitting again gives the
    pieces back. *)
Lemma py_split_join (sep : Ascii.ascii) (pieces : list string) :
  pieces <> [] ->
  (forall piece, In piece pieces -> ~ In sep (chars piece)) ->
  py_split sep (String.concat (String sep EmptyString) pieces) = pieces.
Proof.
  induction pieces as [| p ps IH]; intros Hne Hall; [congruence |].
  destruct ps as [| q qs].
  - simpl. apply py_split_whole. apply Hall. left. reflexivity.
  - change (String.concat (String sep EmptyString) (p :: q :: qs))
      with (p ++ String sep (String.concat (String sep EmptyString) (q :: qs)))%string.
    rewrite py_split_app by (apply Hall; left; reflexivity).
    f_equal. apply IH; [discriminate |].
    intros piece Hin. apply Hall. right. exact Hin.
Qed.

(** ** The addresses the loop polls (lines 235-278) *)

Lemma trimmed_shape (u : string) :
  py_strip u = u -> u <> EmptyString ->
  py_rstrip u = u /\
  exists c rest, u = String c rest /\ py_isspace c = false.
Proof.
  intros Hs Hne. split.
  - rewrite <- Hs at 1. unfold py_strip. rewrite py_rstrip_idem. exact Hs.
  - unfold py_strip in Hs.
    destruct (py_lstrip_head u) as [E | (c & rest & E & Hc)].
    + rewrite E in Hs. simpl in Hs. congruence.
    + rewrite E in Hs. destruct (py_rstrip_keeps_head c rest Hc) as [kept Hk].
      rewrite Hk in Hs. exists c, kept. split; [symmetry; exact Hs | exact Hc].
Qed.

Lemma stripped_pieces_In (s u : string) :
  In u (stripped_pieces s) ->
  py_strip u = u /\ u <> EmptyString /\ ~ In ","%char (chars u).
Proof.
  unfold stripped_pieces. intros H. apply filter_In in H.
  destruct H as [Hin Hne]. apply in_map_iff in Hin.
  destruct Hin as [piece [<- Hp]].
  split; [apply py_strip_idem |]. split.
  - intros E. rewrite E in Hne. discriminate Hne.
  - intros Hc. apply py_strip_chars in Hc.
    destruct (py_split_pieces ","%char s) as [H1 _].
    destruct (H1 piece _ Hp Hc) as [_ Hn]. congruence.
Qed.

Lemma add_scheme_has_scheme (url : string) : has_scheme (add_scheme url).
Proof.
  unfold add_scheme, has_scheme.
  destruct (String.prefix "http://" url) eqn:E1; [left; exact E1 |].
  destruct (String.prefix "https://" url) eqn:E2; [right; exact E2 |].
  left. simpl. destruct url; reflexivity.
Qed.

Lemma add_scheme_idem (url : string) : add_scheme (add_scheme url) = add_scheme url.
Proof.
  destruct (add_scheme_has_scheme url) as [H | H]; unfold add_scheme at 1;
    rewrite H; [reflexivity | rewrite orb_true_r; reflexivity].
Qed.

Lemma add_scheme_keeps (url : string) :
  py_strip url = url -> url <> EmptyString -> ~ In ","%char (chars url) ->
  py_strip (add_scheme url) = add_scheme url /\
  add_scheme url <> EmptyString /\
  ~ In ","%char (chars (add_scheme url)).
Proof.
  intros Hs Hne Hc. unfold add_scheme.
  destruct (String.prefix "http://" url || String.prefix "https://" url);
    [repeat split; assumption |].
  destruct (trimmed_shape url Hs Hne) as [Hr _].
  split; [| split].
  - unfold py_strip. change (py_lstrip ("http://" ++ url)) with ("http://" ++ url)%string.
    rewrite py_rstrip_app by (rewrite Hr; exact Hne). rewrite Hr. reflexivity.
  - discriminate.
  - simpl. intros [H | [H | [H | [H | [H | [H | [H | H]]]]]]];
      try discriminate H. exact (Hc H).
Qed.

Lemma stripped_pieces_of_joined (urls : list string) :
  urls <> [] ->
  (forall u, In u urls ->
     py_strip u = u /\ u <> EmptyString /\ ~ In ","%char (chars u)) ->
  stripped_pieces (String.concat "," urls) = urls.
Proof.
  intros Hne Hall. unfold stripped_pieces.
  rewrite (py_split_join ","%char urls Hne)
    by (intros piece Hin; apply (Hall piece Hin)).
  clear Hne. induction urls as [| u us IH]; [reflexivity |].
  destruct (Hall u (or_introl eq_refl)) as (Hs & Hn & _).
  simpl. rewrite Hs.
  destruct (String.eqb_spec u "") as [E | _]; [congruence |].
  simpl. f_equal. apply IH. intros v Hv. apply Hall. right. exact Hv.
Qed.

(** X18: when the start of [main] yields addresses, there is at least
    one, and every one of them begins with one of the two schemes, has
    no blank at either end and holds no comma. *)
Theorem parsed_addresses_are_urls (flag : option string)
    (NSQ_LOOKUPD_ADDRESSES NSQ_LOOKUPD_ADDRESS : option string)
    (lookupd_urls : list string) :
  parse_addresses flag NSQ_LOOKUPD_ADDRESSES NSQ_LOOKUPD_ADDRESS
    = Addresses lookupd_urls ->
  lookupd_urls <> [] /\
  forall url, In url lookupd_urls ->
    has_scheme url /\ py_strip url = url /\ ~ In ","%char (chars url).
Proof.
  unfold parse_addresses.
  set (address := match flag with Some v => v | None => _ end).
  destruct address as [| a rest]; [discriminate |].
  destruct (stripped_pieces (String a rest)) as [| u us] eqn:E; [discriminate |].
  intros H. injection H as <-. split; [discriminate |].
  intros url Hin.
  change (add_scheme u :: map add_scheme us)
    with (map add_scheme (u :: us)) in Hin.
  apply in_map_iff in Hin. destruct Hin as [v [<- Hv]].
  rewrite <- E in Hv. destruct (stripped_pieces_In _ _ Hv) as (Hs & Hn & Hc).
  destruct (add_scheme_keeps v Hs Hn Hc) as (Hs' & _ & Hc').
  split; [apply add_scheme_has_scheme | split; assumption].
Qed.

Lemma parsed_addresses_are_urls_witness :
  has_scheme "http://localhost:4161" /\
  py_strip "http://localhost:4161" = "http://localhost:4161" /\
  ~ In ","%char (chars "http://localhost:4161").
Proof.
  destruct (parsed_addresses_are_urls (Some " localhost:4161 , https://x ,")
              None None ["http://localhost:4161"; "https://x"] eq_refl)
    as [_ Hall].
  exact (Hall "http://localhost:4161" (or_introl eq_refl)).
Defined.

Lemma stripped_pieces_nil_iff (s : string) :
  stripped_pieces s = [] <-> only_commas_and_blanks s.
Proof.
  destruct (py_split_pieces ","%char s) as [H1 H2].
  unfold stripped_pieces, only_commas_and_blanks. split.
  - intros Hnil c Hc. destruct (H2 c Hc) as [-> | [piece [Hp Hin]]];
      [left; reflexivity | right].
    assert (Hs : py_strip piece = EmptyString).
    { destruct (String.eqb_spec (py_strip piece) "") as [E | Hne]; [exact E |].
      exfalso.
      assert (Hf : In (py_strip piece)
                      (filter (fun url => negb (String.eqb url ""))
                              (map py_strip (py_split ","%char s)))).
      { apply filter_In. split; [apply in_map; exact Hp |].
        destruct (String.eqb_spec (py_strip piece) ""); [congruence | reflexivity]. }
      rewrite Hnil in Hf. destruct Hf. }
    apply (proj1 (py_strip_empty_iff piece) Hs c Hin).
  - intros Hall.
    destruct (filter _ (map py_strip (py_split ","%char s))) as [| u us] eqn:F;
      [reflexivity |].
    exfalso. assert (Hu : In u (u :: us)) by (left; reflexivity).
    rewrite <- F in Hu. apply filter_In in Hu. destruct Hu as [Hin Hne].
    apply in_map_iff in Hin. destruct Hin as [piece [<- Hp]].
    assert (Hs : py_strip piece = EmptyString).
    { apply py_strip_empty_iff. intros c Hc.
      destruct (H1 piece c Hp Hc) as [Hcs Hn].
      destruct (Hall c Hcs) as [E | E]; [congruence | exact E]. }
    rewrite Hs in Hne. discriminate Hne.
Qed.

(** X19: an address list given with the flag is refused with the usage
    message exactly when it holds nothing but commas and blanks (the
    empty list included); the environment is not consulted then. *)
Theorem flag_refused_iff_blank (v : string)
    (NSQ_LOOKUPD_ADDRESSES NSQ_LOOKUPD_ADDRESS : option string) :
  (exists message,
     parse_addresses (Some v) NSQ_LOOKUPD_ADDRESSES NSQ_LOOKUPD_ADDRESS
       = Usage message) <->
  only_commas_and_blanks v.
Proof.
  unfold parse_addresses. rewrite <- stripped_pieces_nil_iff.
  destruct v as [| a rest].
  - split; [reflexivity | intros _; eexists; reflexivity].
  - destruct (stripped_pieces (String a rest)) as [| u us].
    + split; [reflexivity | intros _; eexists; reflexivity].
    + split; [intros [m H]; discriminate H | discriminate].
Qed.

(** X20: an address list taken from the environment, which is first
    normalised and joined again with commas and then parsed like a flag,
    ends as the same list given with the flag would: the same addresses,
    or a refusal in both cases. *)
Theorem environment_is_parsed_like_the_flag (v : string)
    (NSQ_LOOKUPD_ADDRESSES NSQ_LOOKUPD_ADDRESS : option string) :
  NSQ_LOOKUPD_ADDRESSES = Some v \/
  (NSQ_LOOKUPD_ADDRESSES = None /\ NSQ_LOOKUPD_ADDRESS = Some v) ->
  match parse_addresses None NSQ_LOOKUPD_ADDRESSES NSQ_LOOKUPD_ADDRESS,
        parse_addresses (Some v) None None with
  | Addresses from_environment, Addresses from_flag =>
      from_environment = from_flag
  | Usage _, Usage _ => True
  | _, _ => False
  end.
Proof.
  intros Henv.
  assert (Hdef : default_lookupd NSQ_LOOKUPD_ADDRESSES NSQ_LOOKUPD_ADDRESS =
                 match v with
                 | EmptyString => v
                 | _ => String.concat "," (map add_scheme (stripped_pieces v))
                 end).
  { unfold default_lookupd.
    destruct Henv as [-> | [-> ->]]; reflexivity. }
  unfold parse_addresses. rewrite Hdef.
  destruct v as [| a rest]; [exact I |].
  destruct (stripped_pieces (String a rest)) as [| u us] eqn:E; [exact I |].
  assert (Hall : forall w, In w (map add_scheme (u :: us)) ->
             py_strip w = w /\ w <> EmptyString /\ ~ In ","%char (chars w)).
  { intros w Hw. apply in_map_iff in Hw. destruct Hw as [x [<- Hx]].
    rewrite <- E in Hx. destruct (stripped_pieces_In _ _ Hx) as (Hs & Hn & Hc).
    apply add_scheme_keeps; assumption. }
  assert (Hsp := stripped_pieces_of_joined (map add_scheme (u :: us))
                   ltac:(discriminate) Hall).
  destruct (String.concat "," (map add_scheme (u :: us))) as [| b joined] eqn:J.
  - discriminate Hsp.
  - rewrite Hsp. cbn [map].
    f_equal; [apply add_scheme_idem |].
    rewrite map_map. apply map_ext. intros x. apply add_scheme_idem.
Qed.

Lemma environment_is_parsed_like_the_flag_witness :
  match parse_addresses None None (Some " localhost:4161 , https://x ,"),
        parse_addresses (Some " localhost:4161 , https://x ,") None None with
  | Addresses from_environment, Addresses from_flag =>
      from_environment = from_flag
  | Usage _, Usage _ => True
  | _, _ => False
  end.
Proof.
  apply (environment_is_parsed_like_the_flag
           " localhost:4161 , https://x ," None
           (Some " localhost:4161 , https://x ,")).
  right. split; reflexivity.
Defined.

(** ** The order of the documents (lines 78-95) *)

(** X21: whatever the order in which the documents of the brokers come,
    [process_stats] returns the same total and records for the same
    channel keys, each with the same depth and the same in-flight count. *)
Theorem depth_and_in_flight_ignore_document_order (first second : list BS.t)
    (previous_stats : option (dict AC.t)) (interval_seconds : Z) :
  Permutation first second ->
  interval_seconds <> 0 ->
  exists channels channels' total_in_flight,
    process_stats first previous_stats interval_seconds
      = Ok (channels, total_in_flight) /\
    process_stats second previous_stats interval_seconds
      = Ok (channels', total_in_flight) /\
    List.length channels' = List.length channels /\
    forall r, In r channels ->
      exists r', In r' channels' /\ row_key r' = row_key r /\
                 AC.depth r' = AC.depth r /\
                 AC.in_flight_count r' = AC.in_flight_count r.
Proof.
  intros Hperm Hi.
  destruct (process_stats_shape first previous_stats interval_seconds Hi)
    as (h & _ & H1 & _).
  destruct (process_stats_shape second previous_stats interval_seconds Hi)
    as (h' & _ & H2 & _).
  destruct (aggregate_sums_order_independent first second Hperm)
    as [Htotal Hkeys].
  rewrite <- Htotal in H2.
  eexists _, _, _. split; [exact H1 |]. split; [exact H2 |]. split.
  - destruct (row_keys_permuted _ _ _ _ _ H1) as [P1 _].
    destruct (row_keys_permuted _ _ _ _ _ H2) as [P2 _].
    apply Permutation_length in P1, P2. rewrite !length_map in P1, P2.
    unfold dict_keys in P1, P2. rewrite !length_map in P1, P2.
    rewrite <- P1, <- P2. rewrite <- !(length_map fst).
    apply Permutation_length. apply NoDup_Permutation.
    + apply (aggregate_well_keyed second).
    + apply (aggregate_well_keyed first).
    + intros k. fold (dict_keys (fst (aggregate second))).
      fold (dict_keys (fst (aggregate first))).
      rewrite !dict_get_keys. specialize (Hkeys k).
      destruct (dict_get k (fst (aggregate first)));
        destruct (dict_get k (fst (aggregate second)));
        try destruct Hkeys; split; congruence.
  - intros r Hin. apply (in_rows _ _ _ _ _ r H1) in Hin.
    destruct Hin as (r0 & G & Hr).
    specialize (Hkeys (row_key r)). rewrite G in Hkeys.
    destruct (dict_get (row_key r) (fst (aggregate second))) as [r0' |] eqn:G';
      [| destruct Hkeys].
    destruct Hkeys as [Hd Hf].
    destruct (aggregate_well_keyed second) as [_ Hkey].
    pose (r' := snd (annotate_entry previous_stats interval_seconds (row_key r, r0'))).
    destruct (annotate_entry_same previous_stats interval_seconds (row_key r, r0'))
      as (_ & Ht' & Hc' & Hd' & Hf' & _).
    destruct (annotate_entry_same previous_stats interval_seconds (row_key r, r0))
      as (_ & _ & _ & Hd0 & Hf0 & _).
    assert (Hk : row_key r' = row_key r).
    { unfold row_key at 1. unfold r'. rewrite Ht', Hc'. simpl. symmetry.
      apply Hkey. apply dict_get_In. exact G'. }
    exists r'. split; [| split; [exact Hk | split]].
    + apply (in_rows _ _ _ _ _ r' H2). exists r0'. rewrite Hk.
      split; [exact G' | reflexivity].
    + unfold r'. rewrite Hd'. rewrite Hr at 2. rewrite Hd0. simpl.
      symmetry. exact Hd.
    + unfold r'. rewrite Hf'. rewrite Hr at 2. rewrite Hf0. simpl.
      symmetry. exact Hf.
Qed.

Lemma depth_and_in_flight_ignore_document_order_witness :
  exists channels channels' total_in_flight,
    process_stats [broker_doc "orders" "billing" 3 4 5 1;
                   broker_doc "orders" "billing" 1 0 2 2] None 2
      = Ok (channels, total_in_flight) /\
    process_stats [broker_doc "orders" "billing" 1 0 2 2;
                   broker_doc "orders" "billing" 3 4 5 1] None 2
      = Ok (channels', total_in_flight) /\
    List.length channels' = List.length channels.
Proof.
  destruct (depth_and_in_flight_ignore_document_order
              [broker_doc "orders" "billing" 3 4 5 1;
               broker_doc "orders" "billing" 1 0 2 2]
              [broker_doc "orders" "billing" 1 0 2 2;
               broker_doc "orders" "billing" 3 4 5 1]
              None 2 (perm_swap _ _ _) ltac:(lia))
    as (channels & channels' & total & H1 & H2 & Hlen & _).
  exists channels, channels', total. repeat split; assumption.
Defined.
